(** * Protocol_database: the ingestion pipeline, embedded and verified

    A shallow embedding of the Python sources

    - [src/database.py]   : [ProtocolDatabase] (SQLite store),
    - [src/api_client.py] : [ClinicalTrialsAPI] (paginated fetch client),
    - [src/downloader.py] : [ProtocolDownloader] and [PipelineRunner],

    followed by the properties of the specification, each stated on the
    embedded code.

    Conventions.  A Python [dict] read with [.get(k)] is a record whose
    fields are [option]s ([None]: the key is absent or holds [None]).  A
    Python exception is a value of [Exn] carried by [Raises]; code that can
    raise returns an [Outcome].  The SQLite database is a record of two
    tables, each a list of rows in rowid order.  [CURRENT_TIMESTAMP] is the
    integer number of seconds read from the clock when the statement runs
    (SQLite's resolution is one second); it is an argument [now] of every
    writing operation.  Everything the environment decides (HTTP responses,
    SQLite failures, clock readings) comes from an [Env] of oracles indexed
    by the number of interactions made so far; the date parser is an
    oracle too, which returns a year or raises.  Paths are the pure POSIX
    paths of [pathlib], and a file on disk is identified by the string of
    its path.  The character classes and the lowercasing of Python are
    modelled on ASCII text. *)

From Stdlib Require Import ZArith List Bool Lia String Ascii Sorted Permutation.
From stdpp Require Import base option list strings gmap.
Import ListNotations.
Open Scope Z_scope.

(** ** Python values *)

(** Exceptions that the modelled code raises or lets through. *)
Inductive Exn : Type :=
| RequestException          (* requests.exceptions.RequestException *)
| SqliteError               (* sqlite3.Error raised by execute or commit *)
| IntegrityError            (* sqlite3.IntegrityError: UNIQUE constraint *)
| ValueError                (* ValueError and its subclasses *)
| TypeError                 (* TypeError *)
| OtherError (msg : string) (* any other subclass of Exception *).

Inductive Outcome (A : Type) : Type :=
| Returns (a : A)
| Raises (e : Exn).
Arguments Returns {A} a.
Arguments Raises {A} e.

(** Truth value of an optional string: [None] and [''] are falsy. *)
Definition truthy (o : option string) : bool :=
  match o with
  | Some s => negb (String.eqb s EmptyString)
  | None => false
  end.

(** ** database.py: the schema *)

(** The fourteen descriptive columns, copied verbatim from the payload by
    both the INSERT and the UPDATE of [upsert_protocol]. *)
Record Fields : Type := {
  official_title : option string;
  brief_title : option string;
  sponsor : option string;
  sponsor_class : option string;
  year : option Z;
  start_date : option string;
  completion_date : option string;
  indication : option string;
  conditions : option string;
  phase : option string;
  study_type : option string;
  overall_status : option string;
  enrollment : option Z;
  interventions : option string
}.

(** A row of table [protocols]. *)
Record Row : Type := {
  id : Z;
  nct_id : string;
  fields : Fields;
  protocol_url : option string;
  protocol_pdf_path : option string;
  has_protocol_doc : bool;
  created_at : Z;
  updated_at : Z
}.

(** The [protocol_data] dictionary handed to [upsert_protocol].  The key
    ['nct_id'] is always present (the only producer, [_parse_study], sets
    it); [pd_has_protocol_doc = None] is an absent key, read as [False] by
    [.get('has_protocol_doc', False)]. *)
Record Payload : Type := {
  pd_nct_id : string;
  pd_fields : Fields;
  pd_protocol_url : option string;
  pd_protocol_pdf_path : option string;
  pd_has_protocol_doc : option bool
}.

(** A row of table [download_history]. *)
Record HistoryEntry : Type := {
  h_id : Z;
  h_indication : string;
  h_download_date : Z;
  h_studies_found : Z;
  h_protocols_downloaded : Z;
  h_new_studies : Z;
  h_updated_studies : Z;
  h_status : string
}.

Record Store : Type := {
  protocols : list Row;
  download_history : list HistoryEntry
}.

Definition empty_store : Store :=
  {| protocols := []; download_history := [] |}.

(** ** database.py: connections and transactions *)

(** Where SQLite fails during one transaction: [fail_execute k] says that
    the [k]-th [cursor.execute] of the transaction raises, [fail_commit]
    that [conn.commit()] does. *)
Record Faults : Type := {
  fail_execute : nat -> bool;
  fail_commit : bool
}.

Definition no_faults : Faults :=
  {| fail_execute := fun _ => false; fail_commit := false |}.

(** An open connection: the uncommitted working copy of the database and
    the number of statements executed so far. *)
Record Conn : Type := {
  working : Store;
  executed : nat
}.

(** Code running inside [with self._get_connection() as conn]. *)
Definition Tx (A : Type) : Type := Faults -> Conn -> Outcome A * Conn.

Definition tx_ret {A} (a : A) : Tx A := fun _ c => (Returns a, c).

Definition tx_bind {A B} (m : Tx A) (k : A -> Tx B) : Tx B :=
  fun flt c =>
    match m flt c with
    | (Returns a, c') => k a flt c'
    | (Raises e, c') => (Raises e, c')
    end.

Notation "'let*' x ':=' m 'in' k" := (tx_bind m (fun x => k))
  (at level 10, x pattern, m at level 200, k at level 200).

(** [cursor.execute(stmt)]: a statement reads the working copy and either
    yields a result and a new working copy or raises, leaving the working
    copy as it was (SQLite statements are atomic). *)
Definition execute {A} (stmt : Store -> Outcome (A * Store)) : Tx A :=
  fun flt c =>
    let c' := {| working := working c; executed := S (executed c) |} in
    if fail_execute flt (executed c) then (Raises SqliteError, c')
    else match stmt (working c) with
         | Returns (a, s') =>
             (Returns a, {| working := s'; executed := S (executed c) |})
         | Raises e => (Raises e, c')
         end.

(** [_get_connection]: connect, run the body, commit; on any exception
    roll back and re-raise; close in every case.  The result is the
    committed database. *)
Definition _get_connection {A} (body : Tx A) (flt : Faults) (db : Store)
  : Outcome A * Store :=
  match body flt {| working := db; executed := 0 |} with
  | (Returns a, c) =>
      if fail_commit flt then (Raises SqliteError, db)
      else (Returns a, working c)
  | (Raises e, _) => (Raises e, db)
  end.

(** ** database.py: statements *)

Definition has_nct_id (n : string) (r : Row) : bool := String.eqb (nct_id r) n.

(** SELECT id FROM protocols WHERE nct_id = ?  followed by [fetchone()]. *)
Definition select_id (n : string) (s : Store) : Outcome (option Z * Store) :=
  Returns (option_map id (List.find (has_nct_id n) (protocols s)), s).

Definition update_row (now : Z) (pd : Payload) (r : Row) : Row :=
  if has_nct_id (pd_nct_id pd) r then
    {| id := id r;
       nct_id := nct_id r;
       fields := pd_fields pd;
       protocol_url := pd_protocol_url pd;
       protocol_pdf_path := pd_protocol_pdf_path pd;
       has_protocol_doc := default false (pd_has_protocol_doc pd);
       created_at := created_at r;
       updated_at := now |}
  else r.

(** UPDATE protocols SET ... , updated_at = CURRENT_TIMESTAMP
    WHERE nct_id = ? *)
Definition sql_update (now : Z) (pd : Payload) (s : Store)
  : Outcome (unit * Store) :=
  Returns (tt, {| protocols := List.map (update_row now pd) (protocols s);
                  download_history := download_history s |}).

(** AUTOINCREMENT: one more than the largest rowid in the table. *)
Definition next_rowid {A} (key : A -> Z) (l : list A) : Z :=
  1 + List.fold_right (fun r m => Z.max (key r) m) 0 l.

(** The row that the INSERT of [upsert_protocol] adds. *)
Definition new_row (rowid now : Z) (pd : Payload) : Row :=
  {| id := rowid;
     nct_id := pd_nct_id pd;
     fields := pd_fields pd;
     protocol_url := pd_protocol_url pd;
     protocol_pdf_path := pd_protocol_pdf_path pd;
     has_protocol_doc := default false (pd_has_protocol_doc pd);
     created_at := now;
     updated_at := now |}.

(** INSERT INTO protocols (...) VALUES (...): both timestamps default to
    CURRENT_TIMESTAMP; the UNIQUE constraint on [nct_id] is checked. *)
Definition sql_insert (now : Z) (pd : Payload) (s : Store)
  : Outcome (unit * Store) :=
  if existsb (has_nct_id (pd_nct_id pd)) (protocols s) then Raises IntegrityError
  else
    Returns (tt,
      {| protocols := protocols s ++
           [ new_row (next_rowid id (protocols s)) now pd ];
         download_history := download_history s |}).

Definition set_pdf_path (now : Z) (n pdf_path : string) (r : Row) : Row :=
  if has_nct_id n r then
    {| id := id r;
       nct_id := nct_id r;
       fields := fields r;
       protocol_url := protocol_url r;
       protocol_pdf_path := Some pdf_path;
       has_protocol_doc := true;
       created_at := created_at r;
       updated_at := now |}
  else r.

(** UPDATE protocols SET protocol_pdf_path = ?, has_protocol_doc = 1,
    updated_at = CURRENT_TIMESTAMP WHERE nct_id = ? *)
Definition sql_update_pdf (now : Z) (n pdf_path : string) (s : Store)
  : Outcome (unit * Store) :=
  Returns (tt, {| protocols := List.map (set_pdf_path now n pdf_path) (protocols s);
                  download_history := download_history s |}).

(** INSERT INTO download_history (...) VALUES (?, ?, ?, ?, ?, ?) *)
Definition sql_insert_history (now : Z) (ind : string)
    (studies_found protocols_downloaded new_studies updated_studies : Z)
    (status : string) (s : Store) : Outcome (unit * Store) :=
  Returns (tt,
    {| protocols := protocols s;
       download_history := download_history s ++
         [ {| h_id := next_rowid h_id (download_history s);
              h_indication := ind;
              h_download_date := now;
              h_studies_found := studies_found;
              h_protocols_downloaded := protocols_downloaded;
              h_new_studies := new_studies;
              h_updated_studies := updated_studies;
              h_status := status |} ] |}).

(** ** database.py: the operations *)

(** [upsert_protocol]: [True] if the row is new, [False] if updated. *)
Definition upsert_protocol (now : Z) (flt : Faults) (protocol_data : Payload)
    (db : Store) : Outcome bool * Store :=
  _get_connection
    (let* existing := execute (select_id (pd_nct_id protocol_data)) in
     match existing with
     | Some _ =>
         let* _ := execute (sql_update now protocol_data) in
         tx_ret false
     | None =>
         let* _ := execute (sql_insert now protocol_data) in
         tx_ret true
     end) flt db.

Definition update_pdf_path (now : Z) (flt : Faults) (n pdf_path : string)
    (db : Store) : Outcome unit * Store :=
  _get_connection (execute (sql_update_pdf now n pdf_path)) flt db.

Definition log_download (now : Z) (flt : Faults) (ind : string)
    (studies_found protocols_downloaded new_studies updated_studies : Z)
    (status : string) (db : Store) : Outcome unit * Store :=
  _get_connection
    (execute (sql_insert_history now ind studies_found protocols_downloaded
                new_studies updated_studies status)) flt db.

(** SELECT * FROM protocols WHERE nct_id = ?  and [fetchone()]. *)
Definition get_protocol (n : string) (db : Store) : option Row :=
  List.find (has_nct_id n) (protocols db).

(** The WHERE clause of [get_protocols_without_pdf]:
    protocol_url IS NOT NULL
    AND (protocol_pdf_path IS NULL OR protocol_pdf_path = '')
    and, when [if indication:] holds, AND indication = ?. *)
Definition without_pdf_where (scope : option string) (r : Row) : bool :=
  match protocol_url r with Some _ => true | None => false end
  && match protocol_pdf_path r with
     | None => true
     | Some p => String.eqb p EmptyString
     end
  && if truthy scope
     then match indication (fields r), scope with
          | Some i, Some s => String.eqb i s
          | _, _ => false
          end
     else true.

Definition get_protocols_without_pdf (scope : option string) (db : Store)
  : list Row :=
  List.filter (without_pdf_where scope) (protocols db).

(** ** Strings: the Python string operations the sources use *)

Definition in_range (lo hi : N) (c : ascii) : bool :=
  (lo <=? N_of_ascii c)%N && (N_of_ascii c <=? hi)%N.

Definition is_upper (c : ascii) : bool := in_range 65 90 c.

(** [str.lower()] on ASCII text: a string is its sequence of characters
    below 128; Python's lowercasing of other characters is not modelled. *)
Definition lower_char (c : ascii) : ascii :=
  if is_upper c then ascii_of_N (N_of_ascii c + 32) else c.

Fixpoint lower (s : string) : string :=
  match s with
  | EmptyString => EmptyString
  | String c s' => String (lower_char c) (lower s')
  end.

(** [needle in s]. *)
Fixpoint contains (needle s : string) : bool :=
  String.prefix needle s ||
  match s with
  | EmptyString => false
  | String _ s' => contains needle s'
  end.

(** [sep.join(l)]. *)
Fixpoint join (sep : string) (l : list string) : string :=
  match l with
  | [] => EmptyString
  | [x] => x
  | x :: l' => x +:+ sep +:+ join sep l'
  end.

(** [s[-2:]]: the last two characters, or all of [s] when it is shorter. *)
Definition last2 (s : string) : string :=
  String.substring (String.length s - 2) 2 s.

(** ** api_client.py: payloads of the remote registry *)

(** One entry of [documentSection.largeDocumentModule.largeDocs]. *)
Record LargeDoc : Type := {
  label : option string;
  filename : option string
}.

(** One entry of [armsInterventionsModule.interventions]. *)
Record Intervention : Type := {
  i_type : option string;
  i_name : option string
}.

(** A study as the registry returns it, with the nested sections
    flattened: a leaf is [None] when it or a section above it is absent,
    which is when the chain of [.get(k, {})] reaches the default. *)
Record StudyData : Type := {
  nctId : option string;
  officialTitle : option string;
  briefTitle : option string;
  overallStatus : option string;
  startDate : option string;
  completionDate : option string;
  leadSponsorName : option string;
  leadSponsorClass : option string;
  studyType : option string;
  phases : list string;
  enrollmentCount : option Z;
  conditionList : list string;
  interventionList : list Intervention;
  largeDocs : list LargeDoc
}.

(** The JSON object of one page. *)
Record Data : Type := {
  studies : option (list StudyData);
  totalCount : option Z;
  nextPageToken : option string
}.

(** [not data]: the dictionary is empty. *)
Definition data_falsy (d : Data) : bool :=
  match studies d, totalCount d, nextPageToken d with
  | None, None, None => true
  | _, _, _ => false
  end.

(** ** The environment and the world *)

(** One attempt of [download_pdf]: the file was saved, or an exception was
    raised, before or after [open(save_path, 'wb')] created the file. *)
Inductive DlResult : Type :=
| DlSaved
| DlRaised (e : Exn) (file_opened : bool).

(** What the program does not decide.  The [nat] argument is the number of
    interactions made before this one. *)
Record Env : Type := {
  (* dateutil's parse(s).year, or the exception that parse(s) raises:
     ValueError for text that is no date, OverflowError for a number too
     large, ... *)
  parse_date : string -> Outcome Z;
  (* session.get(base_url, params), raise_for_status() and json() for a
     condition and a page token *)
  http_get : nat -> string -> option string -> Outcome Data;
  (* one attempt at fetching and writing a document *)
  http_download : nat -> string -> DlResult;
  (* failures of SQLite during one transaction *)
  db_faults : nat -> Faults;
  (* CURRENT_TIMESTAMP *)
  clock : nat -> Z;
  (* str(config.PROTOCOLS_DIR) *)
  PROTOCOLS_DIR : string
}.

Inductive Delay : Type :=
| Backoff (seconds : Z) (* time.sleep(2 ** attempt) *)
| REQUEST_DELAY         (* time.sleep(REQUEST_DELAY), 1.5 seconds *).

Inductive Event : Type :=
| EvGet (condition : string) (page_token : option string)
| EvDownload (url save_path : string)
| EvSleep (d : Delay).

Record World : Type := {
  db : Store;
  files : gset string;  (* the paths that exist on disk *)
  ticks : nat;          (* interactions with the environment so far *)
  trace : list Event    (* requests and sleeps, oldest first *)
}.

Definition emit (e : Event) (w : World) : World :=
  {| db := db w; files := files w; ticks := ticks w; trace := trace w ++ [e] |}.

Definition tick (w : World) : World :=
  {| db := db w; files := files w; ticks := S (ticks w); trace := trace w |}.

Definition sleep (d : Delay) (w : World) : World := emit (EvSleep d) w.

(** ** api_client.py: [_make_request] *)

(** The iterations [attempt, attempt + 1, ...] of the loop
    [for attempt in range(retries)], [todo] of them being left. *)
Fixpoint request_attempts (env : Env) (condition : string)
    (page_token : option string) (retries : nat) (todo attempt : nat)
    (w : World) : Outcome (option Data) * World :=
  match todo with
  | O => (Returns None, w)
  | S todo' =>
      let w1 := tick (emit (EvGet condition page_token) w) in
      match http_get env (ticks w) condition page_token with
      | Returns d => (Returns (Some d), w1)
      | Raises RequestException =>
          if Z.of_nat attempt <? Z.of_nat retries - 1 then
            request_attempts env condition page_token retries todo'
              (S attempt) (sleep (Backoff (2 ^ Z.of_nat attempt)) w1)
          else (Returns None, w1)
      | Raises e => (Raises e, w1)
      end
  end.

Definition _make_request (env : Env) (condition : string)
    (page_token : option string) (retries : nat) (w : World)
  : Outcome (option Data) * World :=
  request_attempts env condition page_token retries retries 0 w.

(** ** api_client.py: [_parse_study] *)

Definition get_str (o : option string) : string := default EmptyString o.

(** The scan of [large_doc_list] for the first protocol or SAP document
    that has a file name. *)
Fixpoint find_protocol_url (nct : string) (docs : list LargeDoc)
  : option string :=
  match docs with
  | [] => None
  | doc :: docs' =>
      let lbl := lower (get_str (label doc)) in
      if contains "protocol" lbl || contains "sap" (lower lbl) then
        if negb (String.eqb (get_str (filename doc)) EmptyString) then
          Some ("https://clinicaltrials.gov/ProvidedDocs/" +:+ last2 nct
                +:+ "/" +:+ nct +:+ "/" +:+ get_str (filename doc))
        else find_protocol_url nct docs'
      else find_protocol_url nct docs'
  end.

Definition intervention_name (i : Intervention) : string :=
  get_str (i_type i) +:+ ": " +:+ get_str (i_name i).

(** [year = None; if start_date: try: ... except (ValueError, TypeError):
    pass]: an exception of [parse_date] that is neither a [ValueError]
    nor a [TypeError] is not caught. *)
Definition start_year (env : Env) (start : string) : Outcome (option Z) :=
  if String.eqb start EmptyString then Returns None
  else match parse_date env start with
       | Returns y => Returns (Some y)
       | Raises ValueError => Returns None
       | Raises TypeError => Returns None
       | Raises e => Raises e
       end.

(** The dictionary that [_parse_study] returns, [parsed_year] being the
    value of its variable [year]. *)
Definition study_record (study_data : StudyData) (indication : string)
    (parsed_year : option Z) : Payload :=
  let nct := get_str (nctId study_data) in
  let start := get_str (startDate study_data) in
  let url := find_protocol_url nct (largeDocs study_data) in
  {| pd_nct_id := nct;
     pd_fields :=
       {| official_title := Some (get_str (officialTitle study_data));
          brief_title := Some (get_str (briefTitle study_data));
          sponsor := Some (get_str (leadSponsorName study_data));
          sponsor_class := Some (get_str (leadSponsorClass study_data));
          year := parsed_year;
          start_date := Some start;
          completion_date := Some (get_str (completionDate study_data));
          indication := Some indication;
          conditions := Some (join "; " (conditionList study_data));
          phase := Some (match phases study_data with
                         | [] => "N/A"
                         | ps => join ", " ps
                         end);
          study_type := Some (get_str (studyType study_data));
          overall_status := Some (get_str (overallStatus study_data));
          enrollment := Some (default 0 (enrollmentCount study_data));
          interventions :=
            Some (join "; " (List.map intervention_name
                               (interventionList study_data))) |};
     pd_protocol_url := url;
     pd_protocol_pdf_path := None;
     pd_has_protocol_doc :=
       Some (match url with Some _ => true | None => false end) |}.

Definition _parse_study (env : Env) (study_data : StudyData)
    (indication : string) : Outcome Payload :=
  match start_year env (get_str (startDate study_data)) with
  | Raises e => Raises e
  | Returns parsed_year =>
      Returns (study_record study_data indication parsed_year)
  end.

(** ** api_client.py: the generator [search_studies] *)

(** Where the generator is suspended: before its first statement, at the
    [yield] inside the page [data] with the studies [rest] still to
    come, or after its end. *)
Inductive Gen : Type :=
| NotStarted
| InPage (rest : list StudyData) (data : Data)
| Finished.

Inductive GenStep : Type :=
| Yielded (record : Payload)
| StopIteration
| GenRaises (e : Exn).

(** [yield self._parse_study(study, condition)] for the first of the
    studies left in the page [data]; an exception of [_parse_study] ends
    the generator. *)
Definition yield_study (env : Env) (condition : string) (study : StudyData)
    (rest : list StudyData) (data : Data) (w : World) : GenStep * Gen * World :=
  match _parse_study env study condition with
  | Returns record => (Yielded record, InPage rest data, w)
  | Raises e => (GenRaises e, Finished, w)
  end.

(** One turn of [while True] from its top to the first [yield]. *)
Definition fetch_page (env : Env) (condition : string)
    (page_token : option string) (w : World) : GenStep * Gen * World :=
  match _make_request env condition page_token 3 w with
  | (Raises e, w1) => (GenRaises e, Finished, w1)
  | (Returns None, w1) => (StopIteration, Finished, w1)
  | (Returns (Some data), w1) =>
      if data_falsy data then (StopIteration, Finished, w1)
      else match default [] (studies data) with
           | [] => (StopIteration, Finished, w1)
           | study :: rest => yield_study env condition study rest data w1
           end
  end.

(** [next(gen)]. *)
Definition gen_next (env : Env) (condition : string) (g : Gen) (w : World)
  : GenStep * Gen * World :=
  match g with
  | NotStarted => fetch_page env condition None w
  | InPage (study :: rest) data => yield_study env condition study rest data w
  | InPage [] data =>
      if truthy (nextPageToken data) then
        fetch_page env condition (nextPageToken data) (sleep REQUEST_DELAY w)
      else (StopIteration, Finished, w)
  | Finished => (StopIteration, Finished, w)
  end.

(** The generator run to its end, as [list(gen)] or a [for] loop without
    [break] does: the records yielded, how it ended, and the world.
    [None]: [fuel] calls of [next] did not reach the end. *)
Fixpoint drain (fuel : nat) (env : Env) (condition : string) (g : Gen)
    (w : World) : option (list Payload * Outcome unit * World) :=
  match fuel with
  | O => None
  | S fuel' =>
      match gen_next env condition g w with
      | (Yielded r, g', w') =>
          match drain fuel' env condition g' w' with
          | Some (rs, o, w'') => Some (r :: rs, o, w'')
          | None => None
          end
      | (StopIteration, _, w') => Some ([], Returns tt, w')
      | (GenRaises e, _, w') => Some ([], Raises e, w')
      end
  end.

Definition search_studies (fuel : nat) (env : Env) (condition : string)
    (w : World) : option (list Payload * Outcome unit * World) :=
  drain fuel env condition NotStarted w.

(** ** downloader.py: [ProtocolDownloader] *)

(** Character classes of [re] on ASCII text: [\w] and [\s].  On a [str]
    pattern [\s] includes the separators 28 to 31.  Characters outside
    ASCII, which Python classifies by their Unicode properties, are not
    modelled: the properties of folder names are stated for ASCII terms. *)
Definition is_word (c : ascii) : bool :=
  in_range 97 122 c || in_range 65 90 c || in_range 48 57 c
  || Ascii.eqb c "_".

Definition is_space (c : ascii) : bool :=
  in_range 9 13 c || in_range 28 32 c.

(** [re.sub(cls, '', s)] for a class [cls] of single characters. *)
Fixpoint re_sub_delete (cls : ascii -> bool) (s : string) : string :=
  match s with
  | EmptyString => EmptyString
  | String c s' =>
      if cls c then re_sub_delete cls s' else String c (re_sub_delete cls s')
  end.

(** [re.sub(cls+, repl, s)]: matches are found left to right and each is
    the longest run of [cls] characters; [in_match] holds while the
    scan is inside a match that has already been replaced. *)
Fixpoint re_sub_runs (cls : ascii -> bool) (repl : string) (in_match : bool)
    (s : string) : string :=
  match s with
  | EmptyString => EmptyString
  | String c s' =>
      if cls c then
        if in_match then re_sub_runs cls repl true s'
        else repl +:+ re_sub_runs cls repl true s'
      else String c (re_sub_runs cls repl false s')
  end.

(** The class [[^\w\s-]]. *)
Definition special_char (c : ascii) : bool :=
  negb (is_word c || is_space c || Ascii.eqb c "-").

Definition _sanitize_folder_name (name : string) : string :=
  let safe_name := re_sub_delete special_char (lower name) in
  re_sub_runs is_space "_" false safe_name.

(** *** pathlib: POSIX paths *)

(** [s.split(sep)] for a separator of one character. *)
Fixpoint split (sep : ascii) (s : string) : list string :=
  match s with
  | EmptyString => [EmptyString]
  | String c s' =>
      if Ascii.eqb c sep then EmptyString :: split sep s'
      else match split sep s' with
           | x :: l => String c x :: l
           | [] => [String c EmptyString]
           end
  end.

(** A [pathlib.Path]: its root (['/'], ['//'] or none) and its
    components after the root. *)
Record Path : Type := {
  path_root : string;
  path_parts : list string
}.

(** The components that parsing keeps: empty ones (from doubled or
    trailing separators) and ['.'] are dropped, ['..'] is kept. *)
Definition path_component (x : string) : bool :=
  negb (String.eqb x EmptyString) && negb (String.eqb x ".").

(** [Path(s)]: exactly two leading separators are a root of their own. *)
Definition parse_path (s : string) : Path :=
  {| path_root :=
       if String.prefix "/" s then
         if String.prefix "//" s && negb (String.prefix "///" s) then "//"
         else "/"
       else EmptyString;
     path_parts := List.filter path_component (split "/" s) |}.

(** [p / name]: a name with a root replaces the path. *)
Definition path_div (p : Path) (name : string) : Path :=
  let q := parse_path name in
  if String.eqb (path_root q) EmptyString then
    {| path_root := path_root p; path_parts := path_parts p ++ path_parts q |}
  else q.

(** [str(p)]; the empty path is ['.']. *)
Definition path_str (p : Path) : string :=
  match path_root p, path_parts p with
  | EmptyString, [] => "."
  | r, l => r +:+ join "/" l
  end.

(** [_get_indication_folder]; the [mkdir] creates directories only.
    [PROTOCOLS_DIR env] is [str(config.PROTOCOLS_DIR)], from which the
    path is read back. *)
Definition _get_indication_folder (env : Env) (indication : string) : Path :=
  path_div (parse_path (PROTOCOLS_DIR env)) (_sanitize_folder_name indication).

Definition create_file (path : string) (w : World) : World :=
  {| db := db w; files := {[ path ]} ∪ files w; ticks := ticks w;
     trace := trace w |}.

(** The iterations of [for attempt in range(retries)] in [download_pdf]. *)
Fixpoint download_attempts (env : Env) (url save_path : string)
    (retries : nat) (todo attempt : nat) (w : World) : Outcome bool * World :=
  match todo with
  | O => (Returns false, w)
  | S todo' =>
      let w1 := tick (emit (EvDownload url save_path) w) in
      match http_download env (ticks w) url with
      | DlSaved => (Returns true, create_file save_path w1)
      | DlRaised e file_opened =>
          let w2 := if file_opened then create_file save_path w1 else w1 in
          match e with
          | RequestException =>
              download_attempts env url save_path retries todo' (S attempt)
                (if Z.of_nat attempt <? Z.of_nat retries - 1
                 then sleep (Backoff (2 ^ Z.of_nat attempt)) w2 else w2)
          | _ => (Raises e, w2)
          end
      end
  end.

Definition download_pdf (env : Env) (url save_path : string) (retries : nat)
    (w : World) : Outcome bool * World :=
  download_attempts env url save_path retries retries 0 w.

(** A store operation run from the pipeline: the clock and the failures
    of SQLite are those of the environment at this interaction. *)
Definition db_call {A} (op : Z -> Faults -> Store -> Outcome A * Store)
    (env : Env) (w : World) : Outcome A * World :=
  let (r, s) := op (clock env (ticks w)) (db_faults env (ticks w)) (db w) in
  (r, {| db := s; files := files w; ticks := S (ticks w); trace := trace w |}).

(** The [stats] dictionary, without the wall-clock entries. *)
Record Stats : Type := {
  st_indication : string;
  studies_found : Z;
  new_studies : Z;
  updated_studies : Z;
  protocols_downloaded : Z;
  download_errors : Z
}.

Definition new_stats (indication : string) : Stats :=
  {| st_indication := indication; studies_found := 0; new_studies := 0;
     updated_studies := 0; protocols_downloaded := 0; download_errors := 0 |}.

Definition count_found (st : Stats) : Stats :=
  {| st_indication := st_indication st;
     studies_found := studies_found st + 1;
     new_studies := new_studies st;
     updated_studies := updated_studies st;
     protocols_downloaded := protocols_downloaded st;
     download_errors := download_errors st |}.

Definition count_upsert (is_new : bool) (st : Stats) : Stats :=
  {| st_indication := st_indication st;
     studies_found := studies_found st;
     new_studies := if is_new then new_studies st + 1 else new_studies st;
     updated_studies :=
       if is_new then updated_studies st else updated_studies st + 1;
     protocols_downloaded := protocols_downloaded st;
     download_errors := download_errors st |}.

Definition count_download (ok : bool) (st : Stats) : Stats :=
  {| st_indication := st_indication st;
     studies_found := studies_found st;
     new_studies := new_studies st;
     updated_studies := updated_studies st;
     protocols_downloaded :=
       if ok then protocols_downloaded st + 1 else protocols_downloaded st;
     download_errors :=
       if ok then download_errors st else download_errors st + 1 |}.

(** [str(indication_folder / f"{nct_id}_protocol.pdf")]: the path at
    which the document of [nct] is kept; files on disk are identified by
    this string. *)
Definition pdf_path_of (indication_folder : Path) (nct : string) : string :=
  path_str (path_div indication_folder (nct +:+ "_protocol.pdf")).

(** The body of the loop of [process_indication] for one record, from
    [stats['studies_found'] += 1] to the download. *)
Definition process_study (env : Env) (indication_folder : Path)
    (download_pdfs : bool) (st : Stats) (study_data : Payload) (w : World)
  : Outcome Stats * World :=
  let st1 := count_found st in
  let nct := pd_nct_id study_data in
  match db_call (fun now flt => upsert_protocol now flt study_data) env w with
  | (Raises e, w1) => (Raises e, w1)
  | (Returns is_new, w1) =>
      let st2 := count_upsert is_new st1 in
      if download_pdfs && truthy (pd_protocol_url study_data) then
        let pdf_path := pdf_path_of indication_folder nct in
        if bool_decide (pdf_path ∈ files w1) then (Returns st2, w1)
        else
          match download_pdf env (get_str (pd_protocol_url study_data))
                  pdf_path 3 w1 with
          | (Raises e, w2) => (Raises e, w2)
          | (Returns true, w2) =>
              match db_call (fun now flt => update_pdf_path now flt nct pdf_path)
                      env w2 with
              | (Raises e, w3) => (Raises e, w3)
              | (Returns _, w3) =>
                  (Returns (count_download true st2), sleep REQUEST_DELAY w3)
              end
          | (Returns false, w2) =>
              (Returns (count_download false st2), sleep REQUEST_DELAY w2)
          end
      else (Returns st2, w1)
  end.

(** [max_studies and studies_processed >= max_studies]: a cap of [None]
    or [0] is no cap. *)
Definition cap_reached (max_studies : option Z) (studies_processed : Z) : bool :=
  match max_studies with
  | Some m => negb (m =? 0) && (m <=? studies_processed)
  | None => false
  end.

(** [for study_data in self.api.search_studies(indication)]. *)
Fixpoint process_loop (fuel : nat) (env : Env) (indication : string)
    (folder : Path) (download_pdfs : bool) (max_studies : option Z) (g : Gen) (st : Stats)
    (studies_processed : Z) (w : World) : option (Outcome Stats * World) :=
  match fuel with
  | O => None
  | S fuel' =>
      match gen_next env indication g w with
      | (GenRaises e, _, w1) => Some (Raises e, w1)
      | (StopIteration, _, w1) => Some (Returns st, w1)
      | (Yielded study_data, g1, w1) =>
          if cap_reached max_studies studies_processed then
            Some (Returns st, w1)
          else
            match process_study env folder download_pdfs st study_data w1 with
            | (Raises e, w2) => Some (Raises e, w2)
            | (Returns st', w2) =>
                process_loop fuel' env indication folder download_pdfs
                  max_studies g1 st' (studies_processed + 1) w2
            end
      end
  end.

Definition process_indication (fuel : nat) (env : Env) (indication : string)
    (download_pdfs : bool) (max_studies : option Z) (w : World)
  : option (Outcome Stats * World) :=
  let indication_folder := _get_indication_folder env indication in
  match process_loop fuel env indication indication_folder download_pdfs
          max_studies NotStarted (new_stats indication) 0 w with
  | None => None
  | Some (Raises e, w1) => Some (Raises e, w1)
  | Some (Returns stats, w1) =>
      match db_call (fun now flt =>
                       log_download now flt indication (studies_found stats)
                         (protocols_downloaded stats) (new_studies stats)
                         (updated_studies stats) "completed") env w1 with
      | (Raises e, w2) => Some (Raises e, w2)
      | (Returns _, w2) => Some (Returns stats, w2)
      end
  end.

(** ** downloader.py: [PipelineRunner] *)

(** An element of [all_stats]: the statistics of a term, or
    [{'indication': ..., 'error': str(e)}]. *)
Inductive RunEntry : Type :=
| TermStats (stats : Stats)
| TermError (indication : string) (error : Exn).

(** [PipelineRunner.run]: the list under ['indications'] of its result. *)
Fixpoint run (fuel : nat) (env : Env) (indications : list string)
    (download_pdfs : bool) (max_studies_per_indication : option Z)
    (w : World) : option (list RunEntry * World) :=
  match indications with
  | [] => Some ([], w)
  | indication :: rest =>
      match process_indication fuel env indication download_pdfs
              max_studies_per_indication w with
      | None => None
      | Some (r, w1) =>
          let entry := match r with
                       | Returns stats => TermStats stats
                       | Raises e => TermError indication e
                       end in
          match run fuel env rest download_pdfs max_studies_per_indication w1 with
          | None => None
          | Some (all_stats, w2) => Some (entry :: all_stats, w2)
          end
      end
  end.

(** * The rest of the sources *)

(** ** database.py: queries *)

(** ORDER BY: rows are put in order by insertion, which keeps rows with
    equal keys in table order.  SQL leaves the order of rows with equal
    keys open, and SQLite's depends on the query plan (table order after
    a scan, the reverse when it walks an index backwards): what is
    proved of an ordered result is that it is a permutation of the rows
    selected and in order, never the place of a row among its equals. *)
Fixpoint insert_sorted {A} (before : A -> A -> bool) (x : A) (l : list A)
  : list A :=
  match l with
  | [] => [x]
  | y :: l' =>
      if before x y then x :: y :: l' else y :: insert_sorted before x l'
  end.

Definition order_by {A} (before : A -> A -> bool) (l : list A) : list A :=
  List.fold_right (insert_sorted before) [] l.

(** The order of SQLite on an INTEGER column: NULL is below every number. *)
Definition null_le (a b : option Z) : bool :=
  match a, b with
  | None, _ => true
  | Some _, None => false
  | Some x, Some y => x <=? y
  end.

(** ORDER BY year DESC. *)
Definition year_desc (r1 r2 : Row) : bool :=
  null_le (year (fields r2)) (year (fields r1)).

(** The comparison [column = ?] of SQL: never true on a NULL side. *)
Definition sql_eq (column param : option string) : bool :=
  match column, param with
  | Some c, Some p => String.eqb c p
  | _, _ => false
  end.

(** SELECT * FROM protocols WHERE indication = ? ORDER BY year DESC.
    The parameter is [None] when the caller passes [None]. *)
Definition get_protocols_by_indication (ind : option string) (db : Store)
  : list Row :=
  order_by year_desc
    (List.filter (fun r => sql_eq (indication (fields r)) ind) (protocols db)).

(** LIMIT n: a negative bound is no bound. *)
Definition sql_limit {A} (n : Z) (l : list A) : list A :=
  if n <? 0 then l else firstn (Z.to_nat n) l.

Definition date_desc (h1 h2 : HistoryEntry) : bool :=
  h_download_date h2 <=? h_download_date h1.

(** [get_download_history]: the scope applies when [if indication:]
    holds. *)
Definition get_download_history (scope : option string) (limit : Z)
    (db : Store) : list HistoryEntry :=
  sql_limit limit
    (order_by date_desc
       (List.filter
          (fun h => if truthy scope
                    then sql_eq (Some (h_indication h)) scope else true)
          (download_history db))).

(** The dictionary that [get_statistics] returns.  SUM, MIN and MAX are
    NULL over no rows; COUNT(DISTINCT c) counts the values of [c] that
    are not NULL.  An absent key is [None] in [phase_count] and
    [indication_count]. *)
Record Statistics : Type := {
  total_studies : Z;
  with_protocols : option Z;
  phase_count : option Z;
  indication_count : option Z;
  earliest_year : option Z;
  latest_year : option Z
}.

Fixpoint present {A} (l : list (option A)) : list A :=
  match l with
  | [] => []
  | Some x :: l' => x :: present l'
  | None :: l' => present l'
  end.

Definition count_distinct (l : list (option string)) : Z :=
  Z.of_nat (length (List.nodup string_dec (present l))).

Definition sql_sum (l : list Z) : option Z :=
  match l with
  | [] => None
  | _ => Some (List.fold_right Z.add 0 l)
  end.

Definition sql_min (l : list Z) : option Z :=
  match l with
  | [] => None
  | x :: l' => Some (List.fold_right Z.min x l')
  end.

Definition sql_max (l : list Z) : option Z :=
  match l with
  | [] => None
  | x :: l' => Some (List.fold_right Z.max x l')
  end.

Definition get_statistics (scope : option string) (db : Store) : Statistics :=
  let rows :=
    if truthy scope
    then List.filter (fun r => sql_eq (indication (fields r)) scope)
           (protocols db)
    else protocols db in
  let years := present (List.map (fun r => year (fields r)) rows) in
  {| total_studies := Z.of_nat (length rows);
     with_protocols :=
       sql_sum (List.map (fun r => if has_protocol_doc r then 1 else 0) rows);
     phase_count :=
       if truthy scope
       then Some (count_distinct (List.map (fun r => phase (fields r)) rows))
       else None;
     indication_count :=
       if truthy scope then None
       else Some (count_distinct
                    (List.map (fun r => indication (fields r)) rows));
     earliest_year := sql_min years;
     latest_year := sql_max years |}.

(** The order of SQLite on a TEXT column: NULL first, then the strings
    byte by byte. *)
Definition text_le (a b : option string) : bool :=
  match a, b with
  | None, _ => true
  | Some _, None => false
  | Some x, Some y => String.leb x y
  end.

Definition option_string_dec (a b : option string) : {a = b} + {a <> b}.
Proof. decide equality. apply string_dec. Defined.

(** SELECT DISTINCT indication FROM protocols ORDER BY indication. *)
Definition get_all_indications (db : Store) : list (option string) :=
  order_by text_le
    (List.nodup option_string_dec
       (List.map (fun r => indication (fields r)) (protocols db))).

(** The LIKE of SQLite: [%] stands for any characters, [_] for any one
    character, and ASCII letters match without regard to case. *)
Fixpoint like (pattern s : string) : bool :=
  match pattern with
  | EmptyString =>
      match s with EmptyString => true | String _ _ => false end
  | String p pattern' =>
      if Ascii.eqb p "%" then
        (fix skip (s : string) : bool :=
           like pattern' s ||
           match s with
           | EmptyString => false
           | String _ s' => skip s'
           end) s
      else
        match s with
        | EmptyString => false
        | String c s' =>
            (Ascii.eqb p "_" || Ascii.eqb (lower_char p) (lower_char c))
            && like pattern' s'
        end
  end.

(** [column LIKE ?], false on NULL. *)
Definition sql_like (column : option string) (pattern : string) : bool :=
  match column with
  | Some c => like pattern c
  | None => false
  end.

Definition search_protocols (query : string) (scope : option string)
    (db : Store) : list Row :=
  let search_pattern := "%" +:+ query +:+ "%" in
  let hit (r : Row) :=
    sql_like (Some (nct_id r)) search_pattern
    || sql_like (official_title (fields r)) search_pattern
    || sql_like (brief_title (fields r)) search_pattern
    || sql_like (conditions (fields r)) search_pattern in
  order_by year_desc
    (List.filter
       (fun r => if truthy scope
                 then sql_eq (indication (fields r)) scope && hit r
                 else hit r)
       (protocols db)).

(** ** downloader.py: [download_missing_pdfs] and [export_to_csv] *)

(** A query run from the pipeline: it opens a connection like every
    operation of the store, and SQLite may fail. *)
Definition db_query {A} (q : Store -> A) (now : Z) (flt : Faults) (db : Store)
  : Outcome A * Store :=
  _get_connection (execute (fun s => Returns (q s, s))) flt db.

(** The [stats] dictionary of [download_missing_pdfs]. *)
Record SweepStats : Type := {
  sw_total : Z;
  sw_downloaded : Z;
  sw_errors : Z
}.

Definition sweep_count (ok : bool) (st : SweepStats) : SweepStats :=
  {| sw_total := sw_total st;
     sw_downloaded := if ok then sw_downloaded st + 1 else sw_downloaded st;
     sw_errors := if ok then sw_errors st else sw_errors st + 1 |}.

(** [for protocol in protocols] of [download_missing_pdfs].  A row whose
    term is NULL makes [_sanitize_folder_name] call [None.lower()], an
    AttributeError that nothing catches. *)
Fixpoint sweep_loop (env : Env) (rows : list Row) (st : SweepStats)
    (w : World) : Outcome SweepStats * World :=
  match rows with
  | [] => (Returns st, w)
  | protocol :: rest =>
      if negb (truthy (protocol_url protocol)) then sweep_loop env rest st w
      else
        match indication (fields protocol) with
        | None => (Raises (OtherError "AttributeError"), w)
        | Some ind =>
            let pdf_path :=
              pdf_path_of (_get_indication_folder env ind) (nct_id protocol) in
            match download_pdf env (get_str (protocol_url protocol))
                    pdf_path 3 w with
            | (Raises e, w1) => (Raises e, w1)
            | (Returns true, w1) =>
                match db_call (fun now flt =>
                                 update_pdf_path now flt (nct_id protocol)
                                   pdf_path) env w1 with
                | (Raises e, w2) => (Raises e, w2)
                | (Returns _, w2) =>
                    sweep_loop env rest (sweep_count true st)
                      (sleep REQUEST_DELAY w2)
                end
            | (Returns false, w1) =>
                sweep_loop env rest (sweep_count false st)
                  (sleep REQUEST_DELAY w1)
            end
        end
  end.

Definition download_missing_pdfs (env : Env) (scope : option string)
    (w : World) : Outcome SweepStats * World :=
  match db_call (db_query (get_protocols_without_pdf scope)) env w with
  | (Raises e, w1) => (Raises e, w1)
  | (Returns rows, w1) =>
      sweep_loop env rows
        {| sw_total := Z.of_nat (length rows); sw_downloaded := 0;
           sw_errors := 0 |} w1
  end.

(** [export_to_csv]: the rows handed to the CSV writer, in order; [None]
    when there is no row, in which case no file is opened. *)
Definition export_to_csv (scope : option string) (db : Store)
  : option (list Row) :=
  let rows :=
    if truthy scope then get_protocols_by_indication scope db
    else List.concat
           (List.map (fun ind => get_protocols_by_indication ind db)
              (get_all_indications db)) in
  match rows with
  | [] => None
  | _ => Some rows
  end.
(** * Vocabulary of the properties

    Definitions used to state the properties: the effect of a committed
    operation, chains of pages, the folder name in the words of the
    specification, and the sample data of the worked examples. *)

(** ** The store: effects, failures, reachable states *)

(** What a committed [upsert_protocol] does to the database and what it
    returns. *)
Definition upsert_effect (now : Z) (pd : Payload) (db : Store) : bool * Store :=
  match get_protocol (pd_nct_id pd) db with
  | Some _ =>
      (false, {| protocols := List.map (update_row now pd) (protocols db);
                 download_history := download_history db |})
  | None =>
      (true,
       {| protocols := protocols db ++
            [ new_row (next_rowid id (protocols db)) now pd ];
          download_history := download_history db |})
  end.

Definition pdf_path_effect (now : Z) (n pdf_path : string) (db : Store)
  : unit * Store :=
  (tt, {| protocols := List.map (set_pdf_path now n pdf_path) (protocols db);
          download_history := download_history db |}).

Definition log_effect (now : Z) (ind : string) (found downloaded new updated : Z)
    (status : string) (db : Store) : unit * Store :=
  (tt, {| protocols := protocols db;
          download_history := download_history db ++
            [ {| h_id := next_rowid h_id (download_history db);
                 h_indication := ind;
                 h_download_date := now;
                 h_studies_found := found;
                 h_protocols_downloaded := downloaded;
                 h_new_studies := new;
                 h_updated_studies := updated;
                 h_status := status |} ] |}).

(** A failure happens in a transaction of [stmts] statements. *)
Definition fails (flt : Faults) (stmts : nat) : Prop :=
  fail_commit flt = true \/ exists k, (k < stmts)%nat /\ fail_execute flt k = true.

Definition fault_free (flt : Faults) (stmts : nat) : Prop :=
  fail_commit flt = false /\ forall k, (k < stmts)%nat -> fail_execute flt k = false.

(** An operation that runs [stmts] statements in one transaction with
    the effect [effect]: without failure the effect is committed and its
    value returned; with a failure an exception reaches the caller and the
    database is the one before the call. *)
Definition transactional {A} (op : Faults -> Store -> Outcome A * Store)
    (stmts : nat) (effect : Store -> A * Store) : Prop :=
  forall flt db,
    (fault_free flt stmts ->
       op flt db = (Returns (fst (effect db)), snd (effect db)))
    /\ (fails flt stmts -> exists e, op flt db = (Raises e, db))
    /\ (forall e db', op flt db = (Raises e, db') -> db' = db).

(** The states of the store that the operations build: from the empty
    database, by upserts of records normalised by the fetch client, by
    [update_pdf_path] and by [log_download], whatever the clock and the
    failures. *)
Inductive reachable (env : Env) : Store -> Prop :=
| reach_empty : reachable env empty_store
| reach_upsert db now flt study ind pd :
    reachable env db ->
    _parse_study env study ind = Returns pd ->
    reachable env (snd (upsert_protocol now flt pd db))
| reach_pdf_path db now flt n p :
    reachable env db ->
    reachable env (snd (update_pdf_path now flt n p db))
| reach_log db now flt ind a b c d status :
    reachable env db ->
    reachable env (snd (log_download now flt ind a b c d status db)).

Definition is_set {A} (o : option A) : bool :=
  match o with Some _ => true | None => false end.

(** What the flag of a row records: a document URL or a local path. *)
Definition flag_consistent (r : Row) : Prop :=
  has_protocol_doc r = is_set (protocol_url r) || is_set (protocol_pdf_path r).

(** The invariant of the flag, on a store. *)
Definition flag_invariant_holds (db : Store) : Prop :=
  forall r, In r (protocols db) ->
    (has_protocol_doc r = true
     <-> protocol_url r <> None \/ protocol_pdf_path r <> None)
    /\ (protocol_pdf_path r <> None -> has_protocol_doc r = true).

(** ** Token chains *)















(** ** Folder names, as the specification words them *)








(** Every character of [s] satisfies [p]. *)
Fixpoint all_chars (p : ascii -> bool) (s : string) : bool :=
  match s with
  | EmptyString => true
  | String c s' => p c && all_chars p s'
  end.






(** The world that processing a term leaves. *)
Definition world_after (fuel : nat) (env : Env) (indication : string)
    (download_pdfs : bool) (cap : option Z) (w : World) : World :=
  match process_indication fuel env indication download_pdfs cap w with
  | Some (_, w') => w'
  | None => w
  end.

(** ** Sample data: studies, records and stores *)

(** The date parser of the samples: it reads the dates that the sample
    studies carry, overflows on a number of twenty digits as
    dateutil does, and rejects everything else. *)
Definition sample_parse_date (s : string) : Outcome Z :=
  if String.eqb s "2015-03" then Returns 2015
  else if String.eqb s "2018-01" then Returns 2018
  else if String.eqb s "2011-06" then Returns 2011
  else if String.eqb s "99999999999999999999"
       then Raises (OtherError "OverflowError")
       else Raises ValueError.

(** An environment in which nothing fails and the registry has no study. *)
Definition quiet_env : Env :=
  {| parse_date := sample_parse_date;
     http_get := fun _ _ _ =>
       Returns {| studies := Some []; totalCount := Some 0;
                  nextPageToken := None |};
     http_download := fun _ _ => DlSaved;
     db_faults := fun _ => no_faults;
     clock := fun k => Z.of_nat k;
     PROTOCOLS_DIR := "protocols" |}.

Definition make_study_dated (nct title date : string) (docs : list LargeDoc)
  : StudyData :=
  {| nctId := Some nct;
     officialTitle := Some title;
     briefTitle := Some title;
     overallStatus := Some "COMPLETED";
     startDate := Some date;
     completionDate := None;
     leadSponsorName := Some "Sponsor";
     leadSponsorClass := Some "INDUSTRY";
     studyType := Some "INTERVENTIONAL";
     phases := ["PHASE2"; "PHASE3"];
     enrollmentCount := Some 120;
     conditionList := ["Obesity"];
     interventionList := [ {| i_type := Some "DRUG"; i_name := Some "X" |} ];
     largeDocs := docs |}.

Definition make_study (nct title : string) (docs : list LargeDoc) : StudyData :=
  make_study_dated nct title "2015-03" docs.

Definition study_with_doc : StudyData :=
  make_study "NCT00000001" "A trial"
    [ {| label := Some "Study Protocol"; filename := Some "Prot_000.pdf" |} ].

Definition study_plain : StudyData :=
  make_study "NCT00000001" "A trial, renamed" [].

(** The records to which the sample studies are normalised. *)
Definition record_with_doc : Payload :=
  study_record study_with_doc "obesity" (Some 2015).

Definition record_plain : Payload :=
  study_record study_plain "obesity" (Some 2015).

(** A store with one row whose document was downloaded and recorded. *)
Definition store_with_pdf : Store :=
  snd (update_pdf_path 20 no_faults "NCT00000001"
         "protocols/obesity/NCT00000001_protocol.pdf"
         (snd (upsert_protocol 10 no_faults record_with_doc empty_store))).

Definition row_with_pdf : Row :=
  set_pdf_path 20 "NCT00000001" "protocols/obesity/NCT00000001_protocol.pdf"
    (new_row 1 10 record_with_doc).

(** The stores after one more upsert. *)
Definition store_after_plain : Store :=
  snd (upsert_protocol 30 no_faults record_plain store_with_pdf).

Definition store_with_url : Store :=
  snd (upsert_protocol 10 no_faults record_with_doc empty_store).

(** A payload whose document URL is the empty string, and the store that
    holds it. *)
Definition record_empty_url : Payload :=
  {| pd_nct_id := "NCT00000003";
     pd_fields := pd_fields record_plain;
     pd_protocol_url := Some EmptyString;
     pd_protocol_pdf_path := None;
     pd_has_protocol_doc := None |}.

Definition store_empty_url : Store :=
  snd (upsert_protocol 10 no_faults record_empty_url empty_store).

(** Two upserts of one ID within the same second. *)
Definition store_first : Store :=
  snd (upsert_protocol 10 no_faults record_with_doc empty_store).

Definition store_second : Store :=
  snd (upsert_protocol 10 no_faults record_plain store_first).

(** SQLite failing at commit only. *)
Definition commit_fails : Faults :=
  {| fail_execute := fun _ => false; fail_commit := true |}.

(** ** Sample data: registries and worlds *)

(** A fresh world. *)
Definition initial_world : World :=
  {| db := empty_store; files := ∅; ticks := 0; trace := [] |}.

Definition page_one : Data :=
  {| studies := Some [study_with_doc]; totalCount := Some 2;
     nextPageToken := Some "token-2" |}.

Definition page_two : Data :=
  {| studies := Some [make_study "NCT00000002" "Another trial" []];
     totalCount := Some 2; nextPageToken := None |}.

(** A registry of two pages linked by a token. *)
Definition two_page_env : Env :=
  {| parse_date := sample_parse_date;
     http_get := fun _ _ tok =>
       match tok with
       | None => Returns page_one
       | Some _ => Returns page_two
       end;
     http_download := fun _ _ => DlSaved;
     db_faults := fun _ => no_faults;
     clock := fun k => Z.of_nat k;
     PROTOCOLS_DIR := "protocols" |}.

Definition study_page_two : StudyData :=
  make_study "NCT00000002" "Another trial" [].

Definition record_page_two : Payload :=
  study_record study_page_two "obesity" (Some 2015).







(** A registry that serves two pages for every term but "bad", for which
    the request raises an exception that is not a [RequestException]. *)
Definition one_bad_term_env : Env :=
  {| parse_date := sample_parse_date;
     http_get := fun _ cond tok =>
       if String.eqb cond "bad" then Raises (OtherError "boom")
       else match tok with
            | None => Returns page_one
            | Some _ => Returns page_two
            end;
     http_download := fun _ _ => DlSaved;
     db_faults := fun _ => no_faults;
     clock := fun k => Z.of_nat k;
     PROTOCOLS_DIR := "protocols" |}.

Definition world_after_obesity : World :=
  world_after 10 one_bad_term_env "obesity" false None initial_world.

Definition world_after_bad : World :=
  world_after 10 one_bad_term_env "bad" false None world_after_obesity.

Definition world_after_asthma : World :=
  world_after 10 one_bad_term_env "asthma" false None world_after_bad.

(** The quiet environment with the clock stopped at 10. *)
Definition stopped_clock_env : Env :=
  {| parse_date := sample_parse_date;
     http_get := http_get quiet_env;
     http_download := http_download quiet_env;
     db_faults := fun _ => no_faults;
     clock := fun _ => 10;
     PROTOCOLS_DIR := "protocols" |}.

(** A world in which the document of NCT00000001 is on disk but not in
    the store. *)
Definition world_with_file : World :=
  {| db := empty_store;
     files := {[ "protocols/obesity/NCT00000001_protocol.pdf" ]};
     ticks := 0;
     trace := [] |}.

Definition world_with_file_upserted : World :=
  {| db := store_with_url;
     files := {[ "protocols/obesity/NCT00000001_protocol.pdf" ]};
     ticks := 1;
     trace := [] |}.



(** * Vocabulary of the further properties *)

(** At most one row per registry ID. *)
Definition unique_ids (db : Store) : Prop :=
  NoDup (List.map nct_id (protocols db)).

(** The internal ids of the rows are pairwise distinct. *)
Definition distinct_rowids (db : Store) : Prop :=
  NoDup (List.map id (protocols db)).

(** The row [r] with its update timestamp moved to [now] when its
    registry ID is [n]. *)
Definition touch (now : Z) (n : string) (r : Row) : Row :=
  if has_nct_id n r then
    {| id := id r; nct_id := nct_id r; fields := fields r;
       protocol_url := protocol_url r;
       protocol_pdf_path := protocol_pdf_path r;
       has_protocol_doc := has_protocol_doc r;
       created_at := created_at r; updated_at := now |}
  else r.

(** The sample store after a run has been logged. *)
Definition store_logged : Store :=
  snd (log_download 50 no_faults "obesity" 2 1 2 0 "completed" store_with_pdf).

(** A list in the order [before]: every element comes before all the
    later ones. *)
Definition in_order {A} (before : A -> A -> bool) (l : list A) : Prop :=
  StronglySorted (fun a b => before a b = true) l.

(** The rows that a term scope selects. *)
Definition in_scope (scope : option string) (r : Row) : bool :=
  sql_eq (indication (fields r)) scope.

(** The history entries that a scope selects: all of them when the scope
    is [None] or empty. *)
Definition history_in_scope (scope : option string) (h : HistoryEntry) : bool :=
  if truthy scope then sql_eq (Some (h_indication h)) scope else true.

(** The rows over which [get_statistics] aggregates. *)
Definition stat_rows (scope : option string) (db : Store) : list Row :=
  if truthy scope then List.filter (in_scope scope) (protocols db)
  else protocols db.

(** The rows that [export_to_csv] is to write: those of the scope, or,
    without scope, those that have a term. *)
Definition exported (scope : option string) (r : Row) : bool :=
  if truthy scope then in_scope scope r else is_set (indication (fields r)).

(** A sample table of three rows, two of them of one term, of the years
    2015, 2018 and 2011. *)
Definition record_second : Payload :=
  study_record (make_study_dated "NCT00000002" "Another trial" "2018-01" [])
    "asthma" (Some 2018).

Definition record_third : Payload :=
  study_record (make_study_dated "NCT00000003" "Third trial" "2011-06" [])
    "obesity" (Some 2011).

Definition store_three : Store :=
  {| protocols :=
       [ new_row 1 10 record_with_doc;
         new_row 2 11 record_second;
         new_row 3 12 record_third ];
     download_history := [] |}.

(** The pattern [rest] matches [s] from some position on. *)
Fixpoint like_from_some (rest s : string) : bool :=
  like rest s ||
  match s with
  | EmptyString => false
  | String _ s' => like_from_some rest s'
  end.

(** A query without the wildcards of LIKE. *)
Definition no_wildcard (query : string) : bool :=
  all_chars (fun c => negb (Ascii.eqb c "%" || Ascii.eqb c "_")) query.

(** The text of a column contains the query, ASCII case ignored. *)
Definition mentions (query : string) (column : option string) : bool :=
  match column with
  | Some text => contains (lower query) (lower text)
  | None => false
  end.

(** A row that [search_protocols] is to find for a query without
    wildcards. *)
Definition found_by (query : string) (scope : option string) (r : Row) : bool :=
  (if truthy scope then in_scope scope r else true)
  && (mentions query (Some (nct_id r))
      || mentions query (official_title (fields r))
      || mentions query (brief_title (fields r))
      || mentions query (conditions (fields r))).

(** The requests and waits of [k] failed attempts, the first of them
    being attempt number [attempt]: after attempt [i] the client waits
    [2 ^ i] seconds. *)
Definition retry_trace (ev : Event) (attempt k : nat) : list Event :=
  List.flat_map (fun i => [ev; EvSleep (Backoff (2 ^ Z.of_nat i))])
    (seq attempt k).

(** A registry that fails twice and then serves a page. *)
Definition flaky_env : Env :=
  {| parse_date := sample_parse_date;
     http_get := fun k _ _ =>
       match k with
       | O | S O => Raises RequestException
       | _ => Returns page_two
       end;
     http_download := fun k _ =>
       match k with
       | O | S O => DlRaised RequestException false
       | _ => DlSaved
       end;
     db_faults := fun _ => no_faults;
     clock := fun k => Z.of_nat k;
     PROTOCOLS_DIR := "protocols" |}.

(** A document descriptor that [_parse_study] takes for the protocol:
    its label mentions "protocol" or "sap", case ignored, and it has a
    file name. *)
Definition is_protocol_doc (doc : LargeDoc) : bool :=
  (contains "protocol" (lower (get_str (label doc)))
   || contains "sap" (lower (get_str (label doc))))
  && negb (String.eqb (get_str (filename doc)) EmptyString).

Definition document_url (nct file : string) : string :=
  "https://clinicaltrials.gov/ProvidedDocs/" +:+ last2 nct +:+ "/" +:+ nct
  +:+ "/" +:+ file.

(** What every record of the fetch client for [condition] looks like. *)
Definition normalised (condition : string) (r : Payload) : Prop :=
  indication (pd_fields r) = Some condition
  /\ pd_protocol_pdf_path r = None
  /\ pd_has_protocol_doc r = Some (is_set (pd_protocol_url r))
  /\ (pd_protocol_url r = None \/ truthy (pd_protocol_url r) = true).

(** The number of download attempts in a trace. *)
Definition count_downloads (t : list Event) : nat :=
  length (List.filter (fun e => match e with
                                | EvDownload _ _ => true
                                | _ => false
                                end) t).



(** The counters of a run are consistent: every study found is new or
    updated, and each download attempt belongs to a study found. *)
Definition stats_ok (ind : string) (st : Stats) : Prop :=
  st_indication st = ind
  /\ 0 <= new_studies st /\ 0 <= updated_studies st
  /\ studies_found st = new_studies st + updated_studies st
  /\ 0 <= protocols_downloaded st /\ 0 <= download_errors st
  /\ protocols_downloaded st + download_errors st <= studies_found st.

(** The term that an entry of the run result is about. *)
Definition entry_term (e : RunEntry) : string :=
  match e with
  | TermStats stats => st_indication stats
  | TermError ind _ => ind
  end.

(** The world after a run capped at one study. *)
Definition world_after_capped : World :=
  world_after 10 two_page_env "obesity" false (Some 1) initial_world.

(** A row with a recorded local path that is not empty. *)
Definition recorded (r : Row) : Prop :=
  exists p, protocol_pdf_path r = Some p /\ p <> EmptyString.

(** The row [x'] is the row [x] after document retrieval: same registry
    ID, document URL and descriptive columns, and a local path that is
    the old one or a recorded one. *)
Definition advanced (x x' : Row) : Prop :=
  nct_id x' = nct_id x
  /\ protocol_url x' = protocol_url x
  /\ fields x' = fields x
  /\ (protocol_pdf_path x' = protocol_pdf_path x \/ recorded x').

(** Every download succeeds at once, and SQLite never fails. *)
Definition downloads_succeed (env : Env) : Prop :=
  forall k url, http_download env k url = DlSaved.

Definition store_never_fails (env : Env) : Prop :=
  forall k, fault_free (db_faults env k) 1.

(** The characters of a safe folder name: lowercase letters, digits,
    underscore and hyphen. *)
Definition safe_char (c : ascii) : bool :=
  in_range 97 122 c || in_range 48 57 c || Ascii.eqb c "_" || Ascii.eqb c "-".
(** * Properties *)

(** ** Transactions *)

Lemma find_none_existsb {A} (f : A -> bool) (l : list A) :
  List.find f l = None -> existsb f l = false.
Proof.
  induction l as [|x l IH]; simpl; [reflexivity|].
  destruct (f x); [discriminate | exact IH].
Qed.

Lemma upsert_protocol_unfold now flt pd db :
  upsert_protocol now flt pd db =
  if fail_execute flt 0 || fail_execute flt 1 || fail_commit flt
  then (Raises SqliteError, db)
  else (Returns (fst (upsert_effect now pd db)), snd (upsert_effect now pd db)).
Proof.
  unfold upsert_protocol, _get_connection, tx_bind, execute, tx_ret,
    upsert_effect, get_protocol, select_id, sql_update, sql_insert; simpl.
  destruct (fail_execute flt 0); simpl; [reflexivity|].
  destruct (List.find (has_nct_id (pd_nct_id pd)) (protocols db)) eqn:Hf; simpl.
  - destruct (fail_execute flt 1); simpl; [reflexivity|].
    destruct (fail_commit flt); reflexivity.
  - destruct (fail_execute flt 1); simpl; [reflexivity|].
    rewrite (find_none_existsb _ _ Hf).
    destruct (fail_commit flt); reflexivity.
Qed.

Lemma update_pdf_path_unfold now flt n p db :
  update_pdf_path now flt n p db =
  if fail_execute flt 0 || fail_commit flt
  then (Raises SqliteError, db)
  else (Returns tt, snd (pdf_path_effect now n p db)).
Proof.
  unfold update_pdf_path, _get_connection, execute, sql_update_pdf,
    pdf_path_effect; simpl.
  destruct (fail_execute flt 0); simpl; [reflexivity|].
  destruct (fail_commit flt); reflexivity.
Qed.

Lemma log_download_unfold now flt ind a b c d status db :
  log_download now flt ind a b c d status db =
  if fail_execute flt 0 || fail_commit flt
  then (Raises SqliteError, db)
  else (Returns tt, snd (log_effect now ind a b c d status db)).
Proof.
  unfold log_download, _get_connection, execute, sql_insert_history,
    log_effect; simpl.
  destruct (fail_execute flt 0); simpl; [reflexivity|].
  destruct (fail_commit flt); reflexivity.
Qed.

Lemma fault_free_1 flt :
  fault_free flt 1 -> fail_execute flt 0 || fail_commit flt = false.
Proof. intros [Hc He]. rewrite Hc, (He 0%nat) by lia. reflexivity. Qed.

Lemma fault_free_2 flt :
  fault_free flt 2 ->
  fail_execute flt 0 || fail_execute flt 1 || fail_commit flt = false.
Proof.
  intros [Hc He]. rewrite Hc, (He 0%nat), (He 1%nat) by lia. reflexivity.
Qed.

Lemma fails_1 flt :
  fails flt 1 -> fail_execute flt 0 || fail_commit flt = true.
Proof.
  intros [Hc | (k & Hk & He)].
  - rewrite Hc. apply orb_true_r.
  - assert (k = 0%nat) as -> by lia. rewrite He. reflexivity.
Qed.

Lemma fails_2 flt :
  fails flt 2 ->
  fail_execute flt 0 || fail_execute flt 1 || fail_commit flt = true.
Proof.
  intros [Hc | (k & Hk & He)].
  - rewrite Hc. apply orb_true_r.
  - assert (k = 0 \/ k = 1)%nat as [-> | ->] by lia; rewrite He;
      [reflexivity | rewrite orb_true_r; reflexivity].
Qed.

(** C8.  Each mutating operation of the store ([upsert_protocol],
    [update_pdf_path], [log_download]) runs in one transaction: when no
    statement and no commit fails, its effect is committed; when one
    fails, the caller receives the exception and the database, hence
    every row of it, is what it was before the call. *)
Theorem mutating_operations_are_transactional :
  forall now,
    (forall pd,
        transactional (fun flt => upsert_protocol now flt pd) 2
          (upsert_effect now pd))
    /\ (forall n p,
          transactional (fun flt => update_pdf_path now flt n p) 1
            (pdf_path_effect now n p))
    /\ (forall ind a b c d status,
          transactional (fun flt => log_download now flt ind a b c d status) 1
            (log_effect now ind a b c d status)).
Proof.
  intros now; repeat split.
  - intros Hff. rewrite upsert_protocol_unfold, (fault_free_2 _ Hff). reflexivity.
  - intros Hf. exists SqliteError.
    rewrite upsert_protocol_unfold, (fails_2 _ Hf). reflexivity.
  - intros e db'. rewrite upsert_protocol_unfold.
    destruct (_ || _); congruence.
  - intros Hff. rewrite update_pdf_path_unfold, (fault_free_1 _ Hff). reflexivity.
  - intros Hf. exists SqliteError.
    rewrite update_pdf_path_unfold, (fails_1 _ Hf). reflexivity.
  - intros e db'. rewrite update_pdf_path_unfold.
    destruct (_ || _); congruence.
  - intros Hff. rewrite log_download_unfold, (fault_free_1 _ Hff). reflexivity.
  - intros Hf. exists SqliteError.
    rewrite log_download_unfold, (fails_1 _ Hf). reflexivity.
  - intros e db'. rewrite log_download_unfold.
    destruct (_ || _); congruence.
Qed.

Lemma mutating_operations_are_transactional_witness :
  fault_free no_faults 2
  /\ upsert_protocol 30 no_faults record_plain store_with_pdf
     = (Returns false, store_after_plain)
  /\ fails commit_fails 2
  /\ exists e,
      upsert_protocol 30 commit_fails record_plain store_with_pdf
      = (Raises e, store_with_pdf).
Proof.
  destruct (mutating_operations_are_transactional 30) as (Hupsert & _ & _).
  assert (fault_free no_faults 2) as Hok by (split; reflexivity).
  assert (fails commit_fails 2) as Hko by (left; reflexivity).
  split; [exact Hok|].
  split; [exact (proj1 (Hupsert record_plain no_faults store_with_pdf) Hok)|].
  split; [exact Hko|].
  exact (proj1 (proj2 (Hupsert record_plain commit_fails store_with_pdf)) Hko).
Defined.

(** ** Rows after an upsert *)

Lemma has_nct_id_update_row now pd n r :
  has_nct_id n (update_row now pd r) = has_nct_id n r.
Proof. unfold update_row. destruct (has_nct_id (pd_nct_id pd) r); reflexivity. Qed.

Lemma has_nct_id_set_pdf_path now m p n r :
  has_nct_id n (set_pdf_path now m p r) = has_nct_id n r.
Proof. unfold set_pdf_path. destruct (has_nct_id m r); reflexivity. Qed.

Lemma find_map_preserving (f : Row -> Row) n l :
  (forall r, has_nct_id n (f r) = has_nct_id n r) ->
  List.find (has_nct_id n) (List.map f l)
  = option_map f (List.find (has_nct_id n) l).
Proof.
  intros Hf. induction l as [|r l IH]; simpl; [reflexivity|].
  rewrite Hf. destruct (has_nct_id n r); [reflexivity | exact IH].
Qed.

Lemma filter_map_preserving (f : Row -> Row) n l :
  (forall r, has_nct_id n (f r) = has_nct_id n r) ->
  List.filter (has_nct_id n) (List.map f l)
  = List.map f (List.filter (has_nct_id n) l).
Proof.
  intros Hf. induction l as [|r l IH]; simpl; [reflexivity|].
  rewrite Hf. destruct (has_nct_id n r); simpl; rewrite IH; reflexivity.
Qed.

Lemma find_none_filter {A} (f : A -> bool) (l : list A) :
  List.find f l = None -> List.filter f l = [].
Proof.
  induction l as [|x l IH]; simpl; [reflexivity|].
  destruct (f x); [discriminate | exact IH].
Qed.

Lemma find_app_none {A} (f : A -> bool) (l l' : list A) :
  List.find f l = None -> List.find f (l ++ l') = List.find f l'.
Proof.
  induction l as [|x l IH]; simpl; [reflexivity|].
  destruct (f x); [discriminate | exact IH].
Qed.

Lemma find_app_some {A} (f : A -> bool) (l l' : list A) x :
  List.find f l = Some x -> List.find f (l ++ l') = Some x.
Proof.
  induction l as [|y l IH]; simpl; [discriminate|].
  destruct (f y); [trivial | exact IH].
Qed.

Lemma has_nct_id_true n r : has_nct_id n r = true <-> nct_id r = n.
Proof. unfold has_nct_id. apply String.eqb_eq. Qed.

Lemma has_nct_id_false n r : has_nct_id n r = false <-> nct_id r <> n.
Proof. unfold has_nct_id. apply String.eqb_neq. Qed.

Lemma find_has_nct_id n l r :
  List.find (has_nct_id n) l = Some r -> nct_id r = n.
Proof. intros H. apply find_some in H as [_ H]. apply has_nct_id_true, H. Qed.

(** A committed upsert seen through [get_protocol]: the row of the
    payload's ID holds the payload's columns, every other ID keeps its
    row. *)
Lemma get_protocol_upsert_same now pd db :
  get_protocol (pd_nct_id pd) (snd (upsert_effect now pd db))
  = Some (match get_protocol (pd_nct_id pd) db with
          | Some r => update_row now pd r
          | None =>
              new_row (next_rowid id (protocols db)) now pd
          end).
Proof.
  unfold upsert_effect, get_protocol.
  destruct (List.find _ (protocols db)) eqn:Hf; simpl.
  - rewrite find_map_preserving by apply has_nct_id_update_row.
    rewrite Hf. reflexivity.
  - rewrite (find_app_none _ _ _ Hf). simpl.
    unfold has_nct_id at 1; simpl. rewrite String.eqb_refl. reflexivity.
Qed.

Lemma update_row_other now pd r :
  nct_id r <> pd_nct_id pd -> update_row now pd r = r.
Proof.
  intros H. unfold update_row.
  apply has_nct_id_false in H. rewrite H. reflexivity.
Qed.

Lemma get_protocol_upsert_other now pd db n :
  n <> pd_nct_id pd ->
  get_protocol n (snd (upsert_effect now pd db)) = get_protocol n db.
Proof.
  intros Hn. unfold upsert_effect, get_protocol.
  destruct (List.find (has_nct_id (pd_nct_id pd)) (protocols db)); simpl.
  - rewrite find_map_preserving by apply has_nct_id_update_row.
    destruct (List.find (has_nct_id n) (protocols db)) eqn:Hf; simpl;
      [|reflexivity].
    rewrite update_row_other; [reflexivity|].
    apply find_has_nct_id in Hf. congruence.
  - destruct (List.find (has_nct_id n) (protocols db)) eqn:Hf.
    + apply find_app_some, Hf.
    + rewrite (find_app_none _ _ _ Hf). simpl.
      unfold has_nct_id; simpl.
      destruct (String.eqb_spec (pd_nct_id pd) n); [congruence | reflexivity].
Qed.

Lemma upsert_returns now flt pd db b db' :
  upsert_protocol now flt pd db = (Returns b, db') ->
  b = fst (upsert_effect now pd db) /\ db' = snd (upsert_effect now pd db).
Proof.
  rewrite upsert_protocol_unfold. destruct (_ || _); [discriminate|].
  intros [= <- <-]. split; reflexivity.
Qed.

(** C1 (as amended).  An upsert that commits on an existing ID writes the
    payload's local document path over the stored one: the stored path
    becomes the payload's, so it is cleared when the payload supplies
    none and kept only when the payload carries the same path; the rows
    of other IDs are untouched. *)
Theorem upsert_overwrites_pdf_path :
  forall now flt pd db r b db',
    get_protocol (pd_nct_id pd) db = Some r ->
    upsert_protocol now flt pd db = (Returns b, db') ->
    (exists r', get_protocol (pd_nct_id pd) db' = Some r'
                /\ protocol_pdf_path r' = pd_protocol_pdf_path pd
                /\ (protocol_pdf_path r' = protocol_pdf_path r
                    <-> pd_protocol_pdf_path pd = protocol_pdf_path r))
    /\ (forall n, n <> pd_nct_id pd -> get_protocol n db' = get_protocol n db).
Proof.
  intros now flt pd db r b db' Hr Hup.
  apply upsert_returns in Hup as [_ ->]. split.
  - rewrite get_protocol_upsert_same, Hr.
    exists (update_row now pd r). split; [reflexivity|].
    assert (protocol_pdf_path (update_row now pd r) = pd_protocol_pdf_path pd) as ->.
    { unfold update_row. apply find_has_nct_id in Hr.
      apply has_nct_id_true in Hr. rewrite Hr. reflexivity. }
    split; [reflexivity | tauto].
  - intros n Hn. apply get_protocol_upsert_other, Hn.
Qed.

(** C1, counterexample.  The row of NCT00000001 has a recorded local
    path; upserting a record of that ID without document URL and without
    path clears it. *)
Lemma upsert_clears_pdf_path :
  option_map protocol_pdf_path (get_protocol "NCT00000001" store_with_pdf)
  = Some (Some "protocols/obesity/NCT00000001_protocol.pdf")
  /\ pd_nct_id record_plain = "NCT00000001"
  /\ pd_protocol_url record_plain = None
  /\ pd_protocol_pdf_path record_plain = None
  /\ fst (upsert_protocol 30 no_faults record_plain store_with_pdf) = Returns false
  /\ option_map protocol_pdf_path
       (get_protocol "NCT00000001"
          (snd (upsert_protocol 30 no_faults record_plain store_with_pdf)))
     = Some None.
Proof. vm_compute. repeat split; reflexivity. Qed.

Lemma upsert_overwrites_pdf_path_witness :
  get_protocol (pd_nct_id record_plain) store_with_pdf = Some row_with_pdf
  /\ upsert_protocol 30 no_faults record_plain store_with_pdf
     = (Returns false, store_after_plain)
  /\ (exists r', get_protocol (pd_nct_id record_plain) store_after_plain = Some r'
                 /\ protocol_pdf_path r' = pd_protocol_pdf_path record_plain)
  /\ get_protocol "NCT00000002" store_after_plain
     = get_protocol "NCT00000002" store_with_pdf.
Proof.
  assert (get_protocol (pd_nct_id record_plain) store_with_pdf
          = Some row_with_pdf) as Hr by reflexivity.
  destruct (upsert_overwrites_pdf_path 30 no_faults record_plain store_with_pdf
              row_with_pdf false store_after_plain Hr eq_refl)
    as [(r' & Hget & Hpath & _) Hother].
  split; [exact Hr|]. split; [reflexivity|].
  split; [exists r'; split; assumption|].
  apply Hother. discriminate.
Defined.

(** ** The has-document flag *)

(** What [_parse_study] returns when it returns. *)
Lemma parse_study_returns env study ind pd :
  _parse_study env study ind = Returns pd ->
  exists parsed_year, pd = study_record study ind parsed_year.
Proof.
  unfold _parse_study.
  destruct (start_year env _) as [y|e]; [|discriminate].
  intros [= <-]. exists y. reflexivity.
Qed.

(** The sample records are the sample studies normalised. *)
Lemma sample_records_parsed :
  _parse_study quiet_env study_with_doc "obesity" = Returns record_with_doc
  /\ _parse_study quiet_env study_plain "obesity" = Returns record_plain.
Proof. split; reflexivity. Qed.

Lemma parsed_record_flag env study ind pd :
  _parse_study env study ind = Returns pd ->
  pd_protocol_pdf_path pd = None
  /\ pd_has_protocol_doc pd = Some (is_set (pd_protocol_url pd)).
Proof.
  intros H. apply parse_study_returns in H as [y ->]. split; reflexivity.
Qed.

Lemma update_row_consistent env now study ind pd r :
  _parse_study env study ind = Returns pd ->
  flag_consistent r ->
  flag_consistent (update_row now pd r).
Proof.
  intros H Hr. apply parse_study_returns in H as [y ->]. unfold update_row.
  destruct (has_nct_id _ r); [|exact Hr].
  unfold flag_consistent; simpl. rewrite orb_false_r. reflexivity.
Qed.

Lemma set_pdf_path_consistent now n p r :
  flag_consistent r -> flag_consistent (set_pdf_path now n p r).
Proof.
  intros Hr. unfold set_pdf_path.
  destruct (has_nct_id n r); [|exact Hr].
  unfold flag_consistent; simpl. rewrite orb_true_r. reflexivity.
Qed.

Lemma upsert_preserves_consistent env now flt study ind pd db :
  _parse_study env study ind = Returns pd ->
  Forall flag_consistent (protocols db) ->
  Forall flag_consistent (protocols (snd (upsert_protocol now flt pd db))).
Proof.
  intros Hpd H. rewrite upsert_protocol_unfold.
  destruct (_ || _); [exact H|]. unfold upsert_effect.
  destruct (get_protocol _ db); simpl.
  - apply Forall_map. eapply Forall_impl; [exact H|].
    intros x. exact (update_row_consistent _ _ _ _ _ _ Hpd).
  - apply Forall_app; split; [exact H|].
    constructor; [|constructor].
    apply parse_study_returns in Hpd as [y ->].
    unfold flag_consistent; simpl. rewrite orb_false_r. reflexivity.
Qed.

Lemma update_pdf_path_preserves_consistent now flt n p db :
  Forall flag_consistent (protocols db) ->
  Forall flag_consistent (protocols (snd (update_pdf_path now flt n p db))).
Proof.
  intros H. rewrite update_pdf_path_unfold.
  destruct (_ || _); [exact H|]. simpl.
  apply Forall_map. eapply Forall_impl; [exact H|].
  intros x. apply set_pdf_path_consistent.
Qed.

Lemma log_download_keeps_protocols now flt ind a b c d status db :
  protocols (snd (log_download now flt ind a b c d status db)) = protocols db.
Proof. rewrite log_download_unfold. destruct (_ || _); reflexivity. Qed.

Lemma flag_consistent_iff r :
  flag_consistent r
  <-> (has_protocol_doc r = true
       <-> protocol_url r <> None \/ protocol_pdf_path r <> None)
      /\ (protocol_pdf_path r <> None -> has_protocol_doc r = true).
Proof.
  unfold flag_consistent.
  destruct (has_protocol_doc r), (protocol_url r) as [u|],
    (protocol_pdf_path r) as [p|]; simpl;
    intuition (try congruence);
    match goal with
    | H : _ \/ _ -> false = true |- _ =>
        exfalso; discriminate H; (left; discriminate) || (right; discriminate)
    | H : true = true -> None <> None \/ None <> None |- _ =>
        destruct (H eq_refl); congruence
    | |- Some _ <> None \/ _ => left; discriminate
    | |- _ \/ Some _ <> None => right; discriminate
    end.
Qed.

Lemma flag_invariant_forall db :
  flag_invariant_holds db <-> Forall flag_consistent (protocols db).
Proof.
  rewrite List.Forall_forall. unfold flag_invariant_holds.
  split; intros H r Hr; apply flag_consistent_iff, H, Hr.
Qed.

(** C2 (as amended).  The flag of a row is true if and only if a
    document URL or a local document path is recorded for the row (so a
    recorded path implies the flag).  This holds in the empty store, is
    preserved by [upsert_protocol] of a normalised record, by
    [update_pdf_path] and by [log_download], whatever the clock and the
    failures, and hence holds in every reachable state of the store. *)
Theorem flag_invariant :
  forall env,
    flag_invariant_holds empty_store
    /\ (forall db now flt study ind pd,
          _parse_study env study ind = Returns pd ->
          flag_invariant_holds db ->
          flag_invariant_holds (snd (upsert_protocol now flt pd db)))
    /\ (forall db now flt n p,
          flag_invariant_holds db ->
          flag_invariant_holds (snd (update_pdf_path now flt n p db)))
    /\ (forall db now flt ind a b c d status,
          flag_invariant_holds db ->
          flag_invariant_holds
            (snd (log_download now flt ind a b c d status db)))
    /\ (forall db, reachable env db -> flag_invariant_holds db).
Proof.
  intros env.
  assert (flag_invariant_holds empty_store) as H0 by (intros r []).
  assert (forall db now flt study ind pd,
            _parse_study env study ind = Returns pd ->
            flag_invariant_holds db ->
            flag_invariant_holds (snd (upsert_protocol now flt pd db)))
    as H1.
  { intros db now flt study ind pd Hpd H. apply flag_invariant_forall.
    apply (upsert_preserves_consistent _ _ _ _ _ _ _ Hpd).
    apply flag_invariant_forall, H. }
  assert (forall db now flt n p,
            flag_invariant_holds db ->
            flag_invariant_holds (snd (update_pdf_path now flt n p db)))
    as H2.
  { intros db now flt n p H. apply flag_invariant_forall.
    apply update_pdf_path_preserves_consistent, flag_invariant_forall, H. }
  assert (forall db now flt ind a b c d status,
            flag_invariant_holds db ->
            flag_invariant_holds
              (snd (log_download now flt ind a b c d status db))) as H3.
  { intros db now flt ind a b c d status H. apply flag_invariant_forall.
    rewrite log_download_keeps_protocols. apply flag_invariant_forall, H. }
  repeat (split; [assumption|]).
  intros db Hreach. induction Hreach; eauto.
Qed.

Lemma flag_invariant_witness :
  reachable quiet_env store_with_pdf
  /\ In row_with_pdf (protocols store_with_pdf)
  /\ (has_protocol_doc row_with_pdf = true
      <-> protocol_url row_with_pdf <> None
          \/ protocol_pdf_path row_with_pdf <> None)
  /\ (protocol_pdf_path row_with_pdf <> None
      -> has_protocol_doc row_with_pdf = true).
Proof.
  assert (reachable quiet_env store_with_pdf) as H.
  { apply reach_pdf_path.
    apply (reach_upsert _ _ _ _ study_with_doc "obesity");
      [apply reach_empty | reflexivity]. }
  assert (In row_with_pdf (protocols store_with_pdf)) as Hin.
  { left. reflexivity. }
  split; [exact H|]. split; [exact Hin|].
  destruct (flag_invariant quiet_env) as (_ & _ & _ & _ & Hall).
  exact (Hall store_with_pdf H row_with_pdf Hin).
Defined.

(** C2, counterexample.  After the upsert of a normalised record that
    has a document URL, the row's flag is true although no local path is
    recorded. *)
Lemma flag_set_without_path :
  reachable quiet_env store_with_url
  /\ option_map has_protocol_doc (get_protocol "NCT00000001" store_with_url)
     = Some true
  /\ option_map protocol_pdf_path (get_protocol "NCT00000001" store_with_url)
     = Some None
  /\ ~ (forall r, In r (protocols store_with_url) ->
          (has_protocol_doc r = true <-> protocol_pdf_path r <> None)).
Proof.
  split; [apply (reach_upsert _ _ _ _ study_with_doc "obesity");
            [apply reach_empty | reflexivity]|].
  split; [reflexivity|]. split; [reflexivity|].
  intros H.
  destruct (H (new_row 1 10 record_with_doc)) as [Hflag _].
  - left. reflexivity.
  - apply Hflag; reflexivity.
Qed.

(** ** Upserting an ID twice *)

Lemma upsert_fault_free now flt pd db :
  fault_free flt 2 ->
  upsert_protocol now flt pd db
  = (Returns (fst (upsert_effect now pd db)), snd (upsert_effect now pd db)).
Proof.
  intros H. rewrite upsert_protocol_unfold, (fault_free_2 _ H). reflexivity.
Qed.

Lemma update_row_new_row t1 t2 rowid pd1 pd2 :
  pd_nct_id pd2 = pd_nct_id pd1 ->
  update_row t2 pd2 (new_row rowid t1 pd1)
  = {| id := rowid; nct_id := pd_nct_id pd1; fields := pd_fields pd2;
       protocol_url := pd_protocol_url pd2;
       protocol_pdf_path := pd_protocol_pdf_path pd2;
       has_protocol_doc := default false (pd_has_protocol_doc pd2);
       created_at := t1; updated_at := t2 |}.
Proof.
  intros Hid. unfold update_row, has_nct_id; simpl.
  rewrite Hid, String.eqb_refl. reflexivity.
Qed.

(** C3 (as amended).  On a store that holds no row for an ID, two
    committed upserts of records with that ID leave exactly one row for
    it; the first returns [True] (new) and the second [False] (updated);
    the second leaves the creation timestamp as the first set it and sets
    the update timestamp to its own clock reading, which is later than
    the first one exactly when the clock (of one-second resolution) has
    moved between the two calls. *)
Theorem upsert_twice_one_row :
  forall db pd1 pd2 t1 t2 flt1 flt2,
    pd_nct_id pd2 = pd_nct_id pd1 ->
    get_protocol (pd_nct_id pd1) db = None ->
    fault_free flt1 2 -> fault_free flt2 2 ->
    exists db1 db2 r1 r2,
      upsert_protocol t1 flt1 pd1 db = (Returns true, db1)
      /\ upsert_protocol t2 flt2 pd2 db1 = (Returns false, db2)
      /\ List.filter (has_nct_id (pd_nct_id pd1)) (protocols db2) = [r2]
      /\ get_protocol (pd_nct_id pd1) db1 = Some r1
      /\ get_protocol (pd_nct_id pd1) db2 = Some r2
      /\ fields r1 = pd_fields pd1 /\ fields r2 = pd_fields pd2
      /\ created_at r1 = t1 /\ updated_at r1 = t1
      /\ created_at r2 = created_at r1 /\ updated_at r2 = t2
      /\ (updated_at r1 < updated_at r2 <-> t1 < t2).
Proof.
  intros db pd1 pd2 t1 t2 flt1 flt2 Hid Hnone Hf1 Hf2.
  set (r1 := new_row (next_rowid id (protocols db)) t1 pd1).
  set (db1 := {| protocols := protocols db ++ [r1];
                 download_history := download_history db |}).
  assert (upsert_effect t1 pd1 db = (true, db1)) as He1.
  { unfold upsert_effect. rewrite Hnone. reflexivity. }
  assert (get_protocol (pd_nct_id pd1) db1 = Some r1) as Hg1.
  { unfold get_protocol, db1; simpl. unfold get_protocol in Hnone.
    rewrite (find_app_none _ _ _ Hnone). simpl.
    unfold has_nct_id; simpl. rewrite String.eqb_refl. reflexivity. }
  set (r2 := update_row t2 pd2 r1).
  set (db2 := {| protocols := List.map (update_row t2 pd2) (protocols db1);
                 download_history := download_history db1 |}).
  assert (upsert_effect t2 pd2 db1 = (false, db2)) as He2.
  { unfold upsert_effect. rewrite Hid, Hg1. reflexivity. }
  assert (r2 = {| id := next_rowid id (protocols db);
                  nct_id := pd_nct_id pd1; fields := pd_fields pd2;
                  protocol_url := pd_protocol_url pd2;
                  protocol_pdf_path := pd_protocol_pdf_path pd2;
                  has_protocol_doc := default false (pd_has_protocol_doc pd2);
                  created_at := t1; updated_at := t2 |}) as Hr2.
  { apply update_row_new_row, Hid. }
  exists db1, db2, r1, r2.
  split; [rewrite (upsert_fault_free _ _ _ _ Hf1), He1; reflexivity|].
  split; [rewrite (upsert_fault_free _ _ _ _ Hf2), He2; reflexivity|].
  split.
  { unfold db2; simpl.
    rewrite filter_map_preserving by (intros; apply has_nct_id_update_row).
    rewrite List.filter_app. unfold get_protocol in Hnone.
    rewrite (find_none_filter _ _ Hnone). simpl.
    unfold has_nct_id at 1; simpl. rewrite String.eqb_refl. reflexivity. }
  split; [exact Hg1|].
  split.
  { replace db2 with (snd (upsert_effect t2 pd2 db1))
      by (rewrite He2; reflexivity).
    rewrite <- Hid, get_protocol_upsert_same, Hid, Hg1. reflexivity. }
  rewrite Hr2; simpl. repeat split; auto.
Qed.

Lemma upsert_twice_one_row_witness :
  pd_nct_id record_plain = pd_nct_id record_with_doc
  /\ get_protocol (pd_nct_id record_with_doc) empty_store = None
  /\ fault_free no_faults 2
  /\ exists db1 db2 r1 r2,
      upsert_protocol 10 no_faults record_with_doc empty_store
      = (Returns true, db1)
      /\ upsert_protocol 30 no_faults record_plain db1 = (Returns false, db2)
      /\ List.filter (has_nct_id (pd_nct_id record_with_doc)) (protocols db2)
         = [r2]
      /\ created_at r2 = created_at r1 /\ updated_at r2 = 30
      /\ updated_at r1 < updated_at r2.
Proof.
  assert (fault_free no_faults 2) as Hff by (split; reflexivity).
  split; [reflexivity|]. split; [reflexivity|]. split; [exact Hff|].
  destruct (upsert_twice_one_row empty_store record_with_doc record_plain
              10 30 no_faults no_faults eq_refl eq_refl Hff Hff)
    as (db1 & db2 & r1 & r2 & H1 & H2 & H3 & _ & _ & _ & _ & _ & _ & H4 & H5 & H6).
  exists db1, db2, r1, r2. repeat split; try assumption.
  apply H6. reflexivity.
Defined.

(** C3, counterexample.  Two upserts of NCT00000001 with differing
    descriptive fields, both at clock reading 10: the second returns
    [False], yet the update timestamp of the row is what it was. *)
Lemma upsert_twice_same_second :
  fst (upsert_protocol 10 no_faults record_with_doc empty_store) = Returns true
  /\ fst (upsert_protocol 10 no_faults record_plain store_first) = Returns false
  /\ pd_fields record_plain <> pd_fields record_with_doc
  /\ option_map updated_at (get_protocol "NCT00000001" store_first) = Some 10
  /\ option_map updated_at (get_protocol "NCT00000001" store_second) = Some 10.
Proof.
  split; [reflexivity|]. split; [reflexivity|].
  split; [discriminate|]. split; reflexivity.
Qed.

(** ** The missing-documents query *)

Lemma in_without_pdf db scope r :
  In r (get_protocols_without_pdf scope db)
  <-> In r (protocols db)
      /\ protocol_url r <> None
      /\ (protocol_pdf_path r = None \/ protocol_pdf_path r = Some EmptyString)
      /\ (truthy scope = true -> indication (fields r) = scope).
Proof.
  unfold get_protocols_without_pdf.
  rewrite filter_In. unfold without_pdf_where.
  rewrite !andb_true_iff.
  split.
  - intros (Hin & (Hurl & Hpath) & Hscope). split; [exact Hin|].
    split; [destruct (protocol_url r); [discriminate | discriminate]|].
    split.
    + destruct (protocol_pdf_path r) as [p|]; [|left; reflexivity].
      right. apply String.eqb_eq in Hpath. congruence.
    + intros Ht. rewrite Ht in Hscope.
      destruct (indication (fields r)), scope; try discriminate.
      apply String.eqb_eq in Hscope. congruence.
  - intros (Hin & Hurl & Hpath & Hscope). split; [exact Hin|].
    split; [split|].
    + destruct (protocol_url r); [reflexivity | congruence].
    + destruct Hpath as [-> | ->]; reflexivity.
    + destruct (truthy scope) eqn:Ht; [|reflexivity].
      rewrite (Hscope eq_refl). destruct scope; [|discriminate].
      apply String.eqb_refl.
Qed.

(** Document URLs made by the fetch client are never empty, so in the
    stores that the pipeline builds a URL that is set is a URL that is
    not empty. *)
Lemma find_protocol_url_truthy nct docs :
  find_protocol_url nct docs = None
  \/ truthy (find_protocol_url nct docs) = true.
Proof.
  induction docs as [|doc docs IH]; simpl; [left; reflexivity|].
  destruct (_ || _); [|exact IH].
  destruct (negb _); [right; reflexivity | exact IH].
Qed.

Lemma reachable_url_not_empty env db :
  reachable env db ->
  forall r, In r (protocols db) ->
    protocol_url r = None \/ truthy (protocol_url r) = true.
Proof.
  intros Hreach.
  induction Hreach as [|db now flt study ind pd _ IH Hpd|db now flt n p _ IH
                       |db now flt ind a b c d status _ IH]; intros r.
  - intros [].
  - apply parse_study_returns in Hpd as [y ->].
    rewrite upsert_protocol_unfold.
    destruct (_ || _); [apply IH|]. unfold upsert_effect.
    destruct (get_protocol _ db) as [old|]; simpl.
    + rewrite List.in_map_iff. intros (r0 & <- & Hr0).
      unfold update_row. destruct (has_nct_id _ r0); [|apply IH, Hr0].
      apply find_protocol_url_truthy.
    + rewrite List.in_app_iff. intros [Hr | [<- | []]]; [apply IH, Hr|].
      apply find_protocol_url_truthy.
  - rewrite update_pdf_path_unfold.
    destruct (_ || _); [apply IH|]. simpl.
    rewrite List.in_map_iff. intros (r0 & <- & Hr0).
    unfold set_pdf_path. destruct (has_nct_id n r0); simpl; apply (IH r0 Hr0).
  - rewrite log_download_keeps_protocols. apply IH.
Qed.

(** C7 (as amended).  A row is in the result of
    [get_protocols_without_pdf] if and only if it is in the table, its
    document URL is set (not NULL; an empty string counts as set) and its
    local path is unset or empty; and, when a non-empty term scope is
    given, its term is the scope.  An empty scope is no scope. *)
Theorem without_pdf_query :
  forall db scope r,
    In r (get_protocols_without_pdf scope db)
    <-> In r (protocols db)
        /\ protocol_url r <> None
        /\ (protocol_pdf_path r = None \/ protocol_pdf_path r = Some EmptyString)
        /\ (truthy scope = true -> indication (fields r) = scope).
Proof. intros db scope r. apply in_without_pdf. Qed.

(** C7, counterexample.  A row whose document URL is the empty string is
    in the result; and with the empty string as scope, a row of term
    "obesity" is in the result. *)
Lemma without_pdf_empty_url :
  In (new_row 1 10 record_empty_url) (get_protocols_without_pdf None store_empty_url)
  /\ protocol_url (new_row 1 10 record_empty_url) = Some EmptyString
  /\ In (new_row 1 10 record_with_doc)
       (get_protocols_without_pdf (Some EmptyString) store_with_url)
  /\ indication (fields (new_row 1 10 record_with_doc)) = Some "obesity".
Proof.
  split; [left; reflexivity|]. split; [reflexivity|].
  split; [left; reflexivity | reflexivity].
Qed.

(** ** The fetch client *)











Lemma yield_study_raises env cond s rest d w e :
  _parse_study env s cond = Raises e ->
  yield_study env cond s rest d w = (GenRaises e, Finished, w).
Proof. intros H. unfold yield_study. rewrite H. reflexivity. Qed.





















(** ** The coordinator *)

Lemma run_cons fuel env ind rest dl cap w r w1 :
  process_indication fuel env ind dl cap w = Some (r, w1) ->
  run fuel env (ind :: rest) dl cap w
  = match run fuel env rest dl cap w1 with
    | Some (all_stats, w2) =>
        Some (match r with
              | Returns stats => TermStats stats
              | Raises e => TermError ind e
              end :: all_stats, w2)
    | None => None
    end.
Proof. intros H. simpl. rewrite H. reflexivity. Qed.

(** C6.  For the terms [A; B; C], when processing B raises an exception
    [e] and processing A and C succeeds, [run] catches [e]: its result
    has the statistics of A, then an error entry for B that carries [e],
    then the statistics of C, and C is processed in the world that the
    failed processing of B left. *)
Theorem run_isolates_failure :
  forall fuel env A B C download_pdfs cap w0 w1 w2 w3 statsA e statsC,
    process_indication fuel env A download_pdfs cap w0
    = Some (Returns statsA, w1) ->
    process_indication fuel env B download_pdfs cap w1
    = Some (Raises e, w2) ->
    process_indication fuel env C download_pdfs cap w2
    = Some (Returns statsC, w3) ->
    run fuel env [A; B; C] download_pdfs cap w0
    = Some ([TermStats statsA; TermError B e; TermStats statsC], w3).
Proof.
  intros fuel env A B C dl cap w0 w1 w2 w3 sA e sC HA HB HC.
  rewrite (run_cons _ _ _ _ _ _ _ _ _ HA), (run_cons _ _ _ _ _ _ _ _ _ HB),
    (run_cons _ _ _ _ _ _ _ _ _ HC).
  reflexivity.
Qed.

Lemma run_isolates_failure_witness :
  process_indication 10 one_bad_term_env "obesity" false None initial_world
  = Some (Returns {| st_indication := "obesity"; studies_found := 2;
                     new_studies := 2; updated_studies := 0;
                     protocols_downloaded := 0; download_errors := 0 |},
          world_after_obesity)
  /\ process_indication 10 one_bad_term_env "bad" false None world_after_obesity
     = Some (Raises (OtherError "boom"), world_after_bad)
  /\ process_indication 10 one_bad_term_env "asthma" false None world_after_bad
     = Some (Returns {| st_indication := "asthma"; studies_found := 2;
                        new_studies := 0; updated_studies := 2;
                        protocols_downloaded := 0; download_errors := 0 |},
             world_after_asthma)
  /\ run 10 one_bad_term_env ["obesity"; "bad"; "asthma"] false None
       initial_world
     = Some ([TermStats {| st_indication := "obesity"; studies_found := 2;
                           new_studies := 2; updated_studies := 0;
                           protocols_downloaded := 0; download_errors := 0 |};
              TermError "bad" (OtherError "boom");
              TermStats {| st_indication := "asthma"; studies_found := 2;
                           new_studies := 0; updated_studies := 2;
                           protocols_downloaded := 0; download_errors := 0 |}],
             world_after_asthma).
Proof.
  assert (process_indication 10 one_bad_term_env "obesity" false None
            initial_world
          = Some (Returns {| st_indication := "obesity"; studies_found := 2;
                             new_studies := 2; updated_studies := 0;
                             protocols_downloaded := 0; download_errors := 0 |},
                  world_after_obesity)) as HA by (vm_compute; reflexivity).
  assert (process_indication 10 one_bad_term_env "bad" false None
            world_after_obesity
          = Some (Raises (OtherError "boom"), world_after_bad)) as HB
      by (vm_compute; reflexivity).
  assert (process_indication 10 one_bad_term_env "asthma" false None
            world_after_bad
          = Some (Returns {| st_indication := "asthma"; studies_found := 2;
                             new_studies := 0; updated_studies := 2;
                             protocols_downloaded := 0; download_errors := 0 |},
                  world_after_asthma)) as HC by (vm_compute; reflexivity).
  split; [exact HA|]. split; [exact HB|]. split; [exact HC|].
  exact (run_isolates_failure _ _ _ _ _ _ _ _ _ _ _ _ _ _ HA HB HC).
Defined.

(** ** The orchestrator and documents already on disk *)

Lemma db_call_upsert env pd w is_new w1 :
  db_call (fun now flt => upsert_protocol now flt pd) env w
  = (Returns is_new, w1) ->
  w1 = {| db := snd (upsert_effect (clock env (ticks w)) pd (db w));
          files := files w; ticks := S (ticks w); trace := trace w |}
  /\ is_new = fst (upsert_effect (clock env (ticks w)) pd (db w)).
Proof.
  unfold db_call.
  destruct (upsert_protocol _ _ pd (db w)) as [r s] eqn:Hup.
  intros [= -> <-].
  apply upsert_returns in Hup as [-> ->]. split; reflexivity.
Qed.

Lemma get_protocol_in n db r : get_protocol n db = Some r -> In r (protocols db).
Proof. unfold get_protocol. intros H. apply find_some in H. apply H. Qed.

(** After a committed upsert of a payload with a document URL and no
    local path, the row of its ID is a missing document. *)
Lemma upserted_row_without_pdf now pd db :
  is_set (pd_protocol_url pd) = true ->
  pd_protocol_pdf_path pd = None ->
  exists r,
    get_protocol (pd_nct_id pd) (snd (upsert_effect now pd db)) = Some r
    /\ protocol_pdf_path r = None
    /\ has_protocol_doc r = default false (pd_has_protocol_doc pd)
    /\ In r (get_protocols_without_pdf None (snd (upsert_effect now pd db))).
Proof.
  intros Hurl Hpath.
  pose proof (get_protocol_upsert_same now pd db) as Hget.
  set (r := match get_protocol (pd_nct_id pd) db with
            | Some r0 => update_row now pd r0
            | None => new_row (next_rowid id (protocols db)) now pd
            end) in Hget.
  assert (protocol_url r = pd_protocol_url pd
          /\ protocol_pdf_path r = pd_protocol_pdf_path pd
          /\ has_protocol_doc r = default false (pd_has_protocol_doc pd))
    as (Hu & Hp & Hf).
  { unfold r. destruct (get_protocol (pd_nct_id pd) db) as [r0|] eqn:H0.
    - unfold update_row. apply find_has_nct_id, has_nct_id_true in H0.
      rewrite H0. repeat split.
    - repeat split. }
  exists r. split; [exact Hget|]. rewrite Hp, Hf, Hpath.
  split; [reflexivity|]. split; [reflexivity|].
  apply in_without_pdf. split; [apply get_protocol_in in Hget; exact Hget|].
  rewrite Hu, Hp, Hpath.
  split; [destruct (pd_protocol_url pd); [discriminate | discriminate]|].
  split; [left; reflexivity | discriminate].
Qed.

Lemma truthy_is_set o : truthy o = true -> is_set o = true.
Proof. destruct o; [reflexivity | discriminate]. Qed.

(** C10.  When documents are to be retrieved, the record has a document
    URL and a file already exists at the path of its document, the loop
    body of [process_indication] only upserts the record: neither
    [protocols_downloaded] nor [download_errors] changes, nothing is
    downloaded, and the store is the one that the upsert committed, so
    the path and the flag of the row are those written by the upsert.
    For a record without local path, as the fetch client produces them,
    the row is then in the result of the missing-documents query although
    the file is on disk. *)
Theorem existing_file_skips_recording :
  forall env folder st pd w is_new w1,
    db_call (fun now flt => upsert_protocol now flt pd) env w
    = (Returns is_new, w1) ->
    truthy (pd_protocol_url pd) = true ->
    pdf_path_of folder (pd_nct_id pd) ∈ files w ->
    exists st',
      process_study env folder true st pd w = (Returns st', w1)
      /\ protocols_downloaded st' = protocols_downloaded st
      /\ download_errors st' = download_errors st
      /\ db w1 = snd (upsert_effect (clock env (ticks w)) pd (db w))
      /\ files w1 = files w
      /\ trace w1 = trace w
      /\ (pd_protocol_pdf_path pd = None ->
          exists r,
            get_protocol (pd_nct_id pd) (db w1) = Some r
            /\ protocol_pdf_path r = None
            /\ has_protocol_doc r = default false (pd_has_protocol_doc pd)
            /\ In r (get_protocols_without_pdf None (db w1))
            /\ pdf_path_of folder (pd_nct_id pd) ∈ files w1).
Proof.
  intros env folder st pd w is_new w1 Hup Hurl Hfile.
  exists (count_upsert is_new (count_found st)).
  unfold process_study. rewrite Hup, Hurl. simpl.
  apply db_call_upsert in Hup as [-> _]. simpl.
  rewrite bool_decide_eq_true_2 by exact Hfile.
  split; [reflexivity|].
  split; [destruct is_new; reflexivity|].
  split; [destruct is_new; reflexivity|].
  repeat (split; [reflexivity|]).
  intros Hpath.
  destruct (upserted_row_without_pdf (clock env (ticks w)) pd (db w)
              (truthy_is_set _ Hurl) Hpath) as (r & H1 & H2 & H3 & H4).
  exists r. repeat split; assumption.
Qed.

Lemma existing_file_skips_recording_witness :
  db_call (fun now flt => upsert_protocol now flt record_with_doc)
    stopped_clock_env world_with_file
  = (Returns true, world_with_file_upserted)
  /\ truthy (pd_protocol_url record_with_doc) = true
  /\ pdf_path_of (parse_path "protocols/obesity") (pd_nct_id record_with_doc)
     ∈ files world_with_file
  /\ exists st',
      process_study stopped_clock_env (parse_path "protocols/obesity") true
        (new_stats "obesity") record_with_doc world_with_file
      = (Returns st', world_with_file_upserted)
      /\ protocols_downloaded st' = 0
      /\ download_errors st' = 0
      /\ exists r,
          get_protocol "NCT00000001" (db world_with_file_upserted) = Some r
          /\ protocol_pdf_path r = None
          /\ In r (get_protocols_without_pdf None (db world_with_file_upserted)).
Proof.
  assert (db_call (fun now flt => upsert_protocol now flt record_with_doc)
            stopped_clock_env world_with_file
          = (Returns true, world_with_file_upserted)) as Hup by reflexivity.
  assert (truthy (pd_protocol_url record_with_doc) = true) as Hurl
      by reflexivity.
  assert (pdf_path_of (parse_path "protocols/obesity") (pd_nct_id record_with_doc)
          ∈ files world_with_file) as Hfile.
  { unfold world_with_file; cbn [files]. apply elem_of_singleton. reflexivity. }
  split; [exact Hup|]. split; [exact Hurl|]. split; [exact Hfile|].
  destruct (existing_file_skips_recording stopped_clock_env
              (parse_path "protocols/obesity")
              (new_stats "obesity") record_with_doc world_with_file true
              world_with_file_upserted Hup Hurl Hfile)
    as (st' & Hrun & Hd & He & _ & _ & _ & Hrow).
  exists st'. split; [exact Hrun|]. split; [exact Hd|]. split; [exact He|].
  destruct (Hrow eq_refl) as (r & Hr & Hp & _ & Hin & _).
  exists r. split; [exact Hr|]. split; [exact Hp | exact Hin].
Defined.

(** ** Folder names and document paths *)

















Lemma file_name_not_empty nct :
  String.eqb (nct +:+ "_protocol.pdf") EmptyString = false.
Proof. destruct nct; reflexivity. Qed.

Lemma file_name_component x :
  path_component (x +:+ "_protocol.pdf") = true.
Proof.
  unfold path_component. rewrite file_name_not_empty.
  destruct x as [|c x]; [reflexivity|].
  change (String c x +:+ "_protocol.pdf")
    with (String c (x +:+ "_protocol.pdf")).
  simpl. destruct (Ascii.eqb c "."); [|reflexivity].
  destruct x; reflexivity.
Qed.








(** * Further properties *)

(** ** The store: keys and round trips *)

Lemma map_nct_id_preserving (f : Row -> Row) l :
  (forall r, nct_id (f r) = nct_id r) ->
  List.map nct_id (List.map f l) = List.map nct_id l.
Proof.
  intros H. rewrite List.map_map. apply List.map_ext. exact H.
Qed.

Lemma nct_id_update_row now pd r : nct_id (update_row now pd r) = nct_id r.
Proof. unfold update_row. destruct (has_nct_id _ r); reflexivity. Qed.

Lemma nct_id_set_pdf_path now n p r : nct_id (set_pdf_path now n p r) = nct_id r.
Proof. unfold set_pdf_path. destruct (has_nct_id _ r); reflexivity. Qed.

Lemma id_update_row now pd r : id (update_row now pd r) = id r.
Proof. unfold update_row. destruct (has_nct_id _ r); reflexivity. Qed.

Lemma id_set_pdf_path now n p r : id (set_pdf_path now n p r) = id r.
Proof. unfold set_pdf_path. destruct (has_nct_id _ r); reflexivity. Qed.

Lemma find_none_not_in n l :
  List.find (has_nct_id n) l = None -> ~ In n (List.map nct_id l).
Proof.
  intros Hf Hin. apply List.in_map_iff in Hin as (r & Hr & Hin).
  apply (List.find_none _ _ Hf) in Hin.
  apply has_nct_id_false in Hin. congruence.
Qed.

Lemma protocols_after_upsert now flt pd db :
  protocols (snd (upsert_protocol now flt pd db)) = protocols db
  \/ (exists r0, get_protocol (pd_nct_id pd) db = Some r0)
     /\ protocols (snd (upsert_protocol now flt pd db))
        = List.map (update_row now pd) (protocols db)
  \/ get_protocol (pd_nct_id pd) db = None
     /\ protocols (snd (upsert_protocol now flt pd db))
        = protocols db ++ [new_row (next_rowid id (protocols db)) now pd].
Proof.
  rewrite upsert_protocol_unfold. destruct (_ || _); [left; reflexivity|].
  right. unfold upsert_effect.
  destruct (get_protocol (pd_nct_id pd) db) as [r0|] eqn:H0; simpl.
  - left. split; [exists r0|]; reflexivity.
  - right. split; reflexivity.
Qed.

Lemma protocols_after_update_pdf_path now flt n p db :
  protocols (snd (update_pdf_path now flt n p db)) = protocols db
  \/ protocols (snd (update_pdf_path now flt n p db))
     = List.map (set_pdf_path now n p) (protocols db).
Proof.
  rewrite update_pdf_path_unfold. destruct (_ || _); [left | right]; reflexivity.
Qed.

(** X1.  The registry ID stays a unique key: the empty store has at most
    one row per ID, and [upsert_protocol] (of any payload),
    [update_pdf_path] and [log_download] keep it so, whether they commit
    or fail. *)
Theorem operations_keep_ids_unique :
  unique_ids empty_store
  /\ forall now flt db,
      unique_ids db ->
      (forall pd, unique_ids (snd (upsert_protocol now flt pd db)))
      /\ (forall n p, unique_ids (snd (update_pdf_path now flt n p db)))
      /\ (forall ind a b c d status,
            unique_ids (snd (log_download now flt ind a b c d status db))).
Proof.
  split; [constructor|].
  intros now flt db Hdb. unfold unique_ids in *. repeat split.
  - intros pd.
    destruct (protocols_after_upsert now flt pd db) as [-> | [[_ ->] | [Hn ->]]].
    + exact Hdb.
    + rewrite map_nct_id_preserving by apply nct_id_update_row. exact Hdb.
    + rewrite List.map_app. simpl.
      apply NoDup_app. split; [exact Hdb|]. split.
      * intros x Hx [<- | []]%list_elem_of_In.
        apply list_elem_of_In in Hx.
        exact (find_none_not_in _ _ Hn Hx).
      * apply NoDup_singleton.
  - intros n p.
    destruct (protocols_after_update_pdf_path now flt n p db) as [-> | ->].
    + exact Hdb.
    + rewrite map_nct_id_preserving by apply nct_id_set_pdf_path. exact Hdb.
  - intros. rewrite log_download_keeps_protocols. exact Hdb.
Qed.

Lemma operations_keep_ids_unique_witness :
  unique_ids store_with_pdf
  /\ unique_ids (snd (upsert_protocol 30 no_faults record_plain store_with_pdf))
  /\ unique_ids
       (snd (update_pdf_path 30 no_faults "NCT00000001" "p" store_with_pdf)).
Proof.
  assert (unique_ids store_with_pdf) as H.
  { apply NoDup_singleton. }
  destruct operations_keep_ids_unique as [_ Hkeep].
  destruct (Hkeep 30 no_faults store_with_pdf H) as (Hup & Hpdf & _).
  split; [exact H|]. split; [apply Hup | apply Hpdf].
Defined.

(** X2.  Upsert then look up: after an upsert that commits, the row
    found under the payload's ID carries the payload's columns (the flag
    is false when the payload has no flag) and the current time as update
    timestamp; a new row is created now, an existing one keeps its
    internal id and its creation time. *)
Theorem get_protocol_after_upsert :
  forall now flt pd db b db',
    upsert_protocol now flt pd db = (Returns b, db') ->
    exists r,
      get_protocol (pd_nct_id pd) db' = Some r
      /\ nct_id r = pd_nct_id pd
      /\ fields r = pd_fields pd
      /\ protocol_url r = pd_protocol_url pd
      /\ protocol_pdf_path r = pd_protocol_pdf_path pd
      /\ has_protocol_doc r = default false (pd_has_protocol_doc pd)
      /\ updated_at r = now
      /\ match get_protocol (pd_nct_id pd) db with
         | Some r0 => b = false /\ id r = id r0 /\ created_at r = created_at r0
         | None => b = true /\ created_at r = now
         end.
Proof.
  intros now flt pd db b db' Hup.
  apply upsert_returns in Hup as [-> ->].
  rewrite get_protocol_upsert_same. unfold upsert_effect.
  destruct (get_protocol (pd_nct_id pd) db) as [r0|] eqn:H0; simpl.
  - exists (update_row now pd r0). split; [reflexivity|].
    pose proof (find_has_nct_id _ _ _ H0) as Hid.
    unfold update_row. apply has_nct_id_true in Hid. rewrite Hid. simpl.
    apply has_nct_id_true in Hid. repeat split; auto.
  - eexists. split; [reflexivity|]. simpl. repeat split.
Qed.

Lemma get_protocol_after_upsert_witness :
  upsert_protocol 30 no_faults record_plain store_with_pdf
  = (Returns false, store_after_plain)
  /\ exists r,
      get_protocol "NCT00000001" store_after_plain = Some r
      /\ fields r = pd_fields record_plain
      /\ updated_at r = 30.
Proof.
  split; [reflexivity|].
  destruct (get_protocol_after_upsert 30 no_faults record_plain store_with_pdf
              false store_after_plain eq_refl)
    as (r & Hr & _ & Hf & _ & _ & _ & Ht & _).
  exists r. split; [exact Hr|]. split; [exact Hf | exact Ht].
Defined.

Lemma map_id_on {A} (f : A -> A) (l : list A) :
  (forall x, In x l -> f x = x) -> List.map f l = l.
Proof.
  intros H. induction l as [|x l IH]; simpl; [reflexivity|].
  rewrite H by (left; reflexivity).
  rewrite IH by (intros y Hy; apply H; right; exact Hy). reflexivity.
Qed.

Lemma set_pdf_path_other now n p r :
  nct_id r <> n -> set_pdf_path now n p r = r.
Proof.
  intros H. unfold set_pdf_path. apply has_nct_id_false in H.
  rewrite H. reflexivity.
Qed.

(** X3.  [update_pdf_path] for an ID that the store does not hold
    changes nothing and reports nothing: the store is the same, and
    unless SQLite fails the call returns normally. *)
Theorem update_pdf_path_unknown_id :
  forall now flt n p db,
    get_protocol n db = None ->
    snd (update_pdf_path now flt n p db) = db
    /\ (fault_free flt 1 -> fst (update_pdf_path now flt n p db) = Returns tt).
Proof.
  intros now flt n p db Hn. rewrite update_pdf_path_unfold. split.
  - destruct (_ || _); [reflexivity|]. simpl.
    rewrite map_id_on; [destruct db; reflexivity|].
    intros r Hr. apply set_pdf_path_other.
    apply has_nct_id_false. exact (List.find_none _ _ Hn r Hr).
  - intros Hff. rewrite (fault_free_1 _ Hff). reflexivity.
Qed.

Lemma update_pdf_path_unknown_id_witness :
  get_protocol "NCT99999999" store_with_pdf = None
  /\ update_pdf_path 30 no_faults "NCT99999999" "somewhere.pdf" store_with_pdf
     = (Returns tt, store_with_pdf).
Proof.
  assert (get_protocol "NCT99999999" store_with_pdf = None) as H by reflexivity.
  destruct (update_pdf_path_unknown_id 30 no_faults "NCT99999999"
              "somewhere.pdf" store_with_pdf H) as [Hs Hr].
  split; [exact H|].
  rewrite (surjective_pairing (update_pdf_path _ _ _ _ _)), Hs, Hr;
    [reflexivity | split; reflexivity].
Defined.

Lemma update_pdf_path_returns now flt n p db u db' :
  update_pdf_path now flt n p db = (Returns u, db') ->
  db' = {| protocols := List.map (set_pdf_path now n p) (protocols db);
           download_history := download_history db |}.
Proof.
  rewrite update_pdf_path_unfold. destruct (_ || _); [discriminate|].
  intros [= _ <-]. reflexivity.
Qed.

(** X4.  Record a path then look up: after [update_pdf_path] commits
    for an ID that the store holds, the row of that ID has the path, the
    flag set and the current time as update timestamp, and every other
    column as before; the rows of other IDs and the run history are
    untouched. *)
Theorem get_protocol_after_update_pdf_path :
  forall now flt n p db r0 u db',
    get_protocol n db = Some r0 ->
    update_pdf_path now flt n p db = (Returns u, db') ->
    get_protocol n db'
    = Some {| id := id r0; nct_id := nct_id r0; fields := fields r0;
              protocol_url := protocol_url r0;
              protocol_pdf_path := Some p; has_protocol_doc := true;
              created_at := created_at r0; updated_at := now |}
    /\ (forall m, m <> n -> get_protocol m db' = get_protocol m db)
    /\ download_history db' = download_history db.
Proof.
  intros now flt n p db r0 u db' H0 Hup.
  apply update_pdf_path_returns in Hup as ->.
  unfold get_protocol in *; simpl. repeat split.
  - rewrite find_map_preserving by (intros; apply has_nct_id_set_pdf_path).
    rewrite H0; simpl. unfold set_pdf_path.
    pose proof (find_has_nct_id _ _ _ H0) as Hid.
    apply has_nct_id_true in Hid. rewrite Hid. reflexivity.
  - intros m Hm.
    rewrite find_map_preserving by (intros; apply has_nct_id_set_pdf_path).
    destruct (List.find (has_nct_id m) (protocols db)) as [r|] eqn:Hr;
      [|reflexivity].
    simpl. rewrite set_pdf_path_other; [reflexivity|].
    apply find_has_nct_id in Hr. congruence.
Qed.

Lemma get_protocol_after_update_pdf_path_witness :
  get_protocol "NCT00000001" store_with_url = Some (new_row 1 10 record_with_doc)
  /\ update_pdf_path 20 no_faults "NCT00000001"
       "protocols/obesity/NCT00000001_protocol.pdf" store_with_url
     = (Returns tt, store_with_pdf)
  /\ get_protocol "NCT00000001" store_with_pdf = Some row_with_pdf.
Proof.
  assert (get_protocol "NCT00000001" store_with_url
          = Some (new_row 1 10 record_with_doc)) as H by reflexivity.
  split; [exact H|]. split; [reflexivity|].
  exact (proj1 (get_protocol_after_update_pdf_path 20 no_faults "NCT00000001"
                  "protocols/obesity/NCT00000001_protocol.pdf" store_with_url
                  _ tt store_with_pdf H eq_refl)).
Defined.

(** X5.  A recorded path takes the row out of the missing documents:
    after [update_pdf_path] commits a path that is not empty for the ID
    [n], the missing-documents query returns exactly the rows it returned
    before whose ID is not [n]. *)
Theorem recorded_path_leaves_missing_set :
  forall now flt n p db u db' scope r,
    update_pdf_path now flt n p db = (Returns u, db') ->
    p <> EmptyString ->
    (In r (get_protocols_without_pdf scope db')
     <-> In r (get_protocols_without_pdf scope db) /\ nct_id r <> n).
Proof.
  intros now flt n p db u db' scope r Hup Hp.
  apply update_pdf_path_returns in Hup as ->.
  unfold get_protocols_without_pdf; simpl.
  rewrite !filter_In, List.in_map_iff. split.
  - intros [(r0 & <- & Hin) Hw]. unfold set_pdf_path in *.
    destruct (has_nct_id n r0) eqn:Hid.
    + exfalso. unfold without_pdf_where in Hw; simpl in Hw.
      apply String.eqb_neq in Hp. rewrite Hp in Hw.
      rewrite andb_false_r in Hw. discriminate.
    + split; [split; assumption|]. apply has_nct_id_false, Hid.
  - intros [[Hin Hw] Hid]. split; [|exact Hw].
    exists r. split; [apply set_pdf_path_other, Hid | exact Hin].
Qed.

Lemma recorded_path_leaves_missing_set_witness :
  update_pdf_path 20 no_faults "NCT00000001"
    "protocols/obesity/NCT00000001_protocol.pdf" store_with_url
  = (Returns tt, store_with_pdf)
  /\ In (new_row 1 10 record_with_doc)
       (get_protocols_without_pdf None store_with_url)
  /\ ~ In (new_row 1 10 record_with_doc)
         (get_protocols_without_pdf None store_with_pdf).
Proof.
  split; [reflexivity|]. split; [left; reflexivity|].
  intros H.
  apply (recorded_path_leaves_missing_set 20 no_faults "NCT00000001"
           "protocols/obesity/NCT00000001_protocol.pdf" store_with_url tt
           store_with_pdf None _ eq_refl) in H; [|discriminate].
  destruct H as [_ H]. apply H. reflexivity.
Defined.

Lemma upserted_rows_carry_payload now pd db r :
  In r (protocols (snd (upsert_effect now pd db))) ->
  has_nct_id (pd_nct_id pd) r = true ->
  fields r = pd_fields pd
  /\ protocol_url r = pd_protocol_url pd
  /\ protocol_pdf_path r = pd_protocol_pdf_path pd
  /\ has_protocol_doc r = default false (pd_has_protocol_doc pd).
Proof.
  unfold upsert_effect.
  destruct (get_protocol (pd_nct_id pd) db) as [r0|] eqn:H0; simpl.
  - rewrite List.in_map_iff. intros (x & <- & _).
    rewrite has_nct_id_update_row. intros Hid.
    unfold update_row. rewrite Hid. repeat split.
  - rewrite List.in_app_iff. intros [Hin | [<- | []]] Hid.
    + unfold get_protocol in H0.
      rewrite (List.find_none _ _ H0 r Hin) in Hid. discriminate.
    + repeat split.
Qed.

(** X6.  Upserting unchanged data only moves the update timestamp: when
    a payload is upserted and then upserted again, both committing, the
    second call returns [False] and the table after it is the table
    after the first call with the update timestamp of the payload's row
    set to the time of the second call. *)
Theorem reupsert_only_touches_timestamp :
  forall t1 t2 flt1 flt2 pd db b db1 b2 db2,
    upsert_protocol t1 flt1 pd db = (Returns b, db1) ->
    upsert_protocol t2 flt2 pd db1 = (Returns b2, db2) ->
    b2 = false
    /\ protocols db2 = List.map (touch t2 (pd_nct_id pd)) (protocols db1)
    /\ download_history db2 = download_history db.
Proof.
  intros t1 t2 flt1 flt2 pd db b db1 b2 db2 H1 H2.
  apply upsert_returns in H1 as [_ ->].
  apply upsert_returns in H2 as [-> ->].
  pose proof (get_protocol_upsert_same t1 pd db) as Hget.
  assert (download_history (snd (upsert_effect t1 pd db)) = download_history db)
    as Hhist.
  { unfold upsert_effect. destruct (get_protocol _ db); reflexivity. }
  pose proof (upserted_rows_carry_payload t1 pd db) as Hrows.
  set (db1 := snd (upsert_effect t1 pd db)) in *.
  unfold upsert_effect. rewrite Hget. simpl.
  split; [reflexivity|]. split; [|exact Hhist].
  apply List.map_ext_in. intros r Hr.
  unfold update_row, touch.
  destruct (has_nct_id (pd_nct_id pd) r) eqn:Hid; [|reflexivity].
  destruct (Hrows r Hr Hid) as (<- & <- & <- & <-).
  reflexivity.
Qed.

Lemma reupsert_only_touches_timestamp_witness :
  upsert_protocol 10 no_faults record_with_doc empty_store
  = (Returns true, store_with_url)
  /\ upsert_protocol 40 no_faults record_with_doc store_with_url
     = (Returns false,
        snd (upsert_protocol 40 no_faults record_with_doc store_with_url))
  /\ protocols (snd (upsert_protocol 40 no_faults record_with_doc store_with_url))
     = List.map (touch 40 "NCT00000001") (protocols store_with_url).
Proof.
  split; [reflexivity|]. split; [reflexivity|].
  exact (proj1 (proj2 (reupsert_only_touches_timestamp 10 40 no_faults
                         no_faults record_with_doc empty_store true
                         store_with_url false _ eq_refl eq_refl))).
Defined.

Lemma next_rowid_above {A} (key : A -> Z) (l : list A) x :
  In x l -> key x < next_rowid key l.
Proof.
  unfold next_rowid. induction l as [|y l IH]; simpl; [intros []|].
  intros [<- | Hx]; [lia|]. specialize (IH Hx). lia.
Qed.

Lemma next_rowid_not_in {A} (key : A -> Z) (l : list A) :
  ~ In (next_rowid key l) (List.map key l).
Proof.
  intros Hin. apply List.in_map_iff in Hin as (x & Hk & Hx).
  pose proof (next_rowid_above key l x Hx). lia.
Qed.

(** X7.  Internal ids are never reused: when the internal ids of the
    rows are pairwise distinct they remain so after [upsert_protocol],
    [update_pdf_path] and [log_download], whether they commit or fail;
    a row inserted by an upsert gets an id greater than every id in the
    table. *)
Theorem rowids_stay_distinct :
  forall now flt db,
    distinct_rowids db ->
    (forall pd,
        distinct_rowids (snd (upsert_protocol now flt pd db))
        /\ (forall b db' r,
              upsert_protocol now flt pd db = (Returns b, db') ->
              get_protocol (pd_nct_id pd) db = None ->
              get_protocol (pd_nct_id pd) db' = Some r ->
              forall r0, In r0 (protocols db) -> id r0 < id r))
    /\ (forall n p, distinct_rowids (snd (update_pdf_path now flt n p db)))
    /\ (forall ind a b c d status,
          distinct_rowids (snd (log_download now flt ind a b c d status db))).
Proof.
  intros now flt db Hdb. unfold distinct_rowids in *. repeat split.
  - destruct (protocols_after_upsert now flt pd db) as [-> | [[_ ->] | [Hn ->]]].
    + exact Hdb.
    + rewrite List.map_map.
      rewrite (List.map_ext _ id) by (intros; apply id_update_row). exact Hdb.
    + rewrite List.map_app. simpl.
      apply NoDup_app. split; [exact Hdb|]. split.
      * intros x Hx [<- | []]%list_elem_of_In.
        apply list_elem_of_In in Hx.
        exact (next_rowid_not_in id _ Hx).
      * apply NoDup_singleton.
  - intros b db' r Hup Hnone Hget r0 Hr0.
    apply upsert_returns in Hup as [_ ->].
    rewrite get_protocol_upsert_same, Hnone in Hget.
    injection Hget as <-. simpl. apply next_rowid_above, Hr0.
  - intros n p.
    destruct (protocols_after_update_pdf_path now flt n p db) as [-> | ->].
    + exact Hdb.
    + rewrite List.map_map.
      rewrite (List.map_ext _ id) by (intros; apply id_set_pdf_path).
      exact Hdb.
  - intros. rewrite log_download_keeps_protocols. exact Hdb.
Qed.

Lemma rowids_stay_distinct_witness :
  distinct_rowids store_with_pdf
  /\ distinct_rowids
       (snd (upsert_protocol 30 no_faults record_empty_url store_with_pdf)).
Proof.
  assert (distinct_rowids store_with_pdf) as H by apply NoDup_singleton.
  split; [exact H|].
  apply (rowids_stay_distinct 30 no_faults store_with_pdf H).
Defined.

(** X8.  The run history is append-only: a [log_download] that commits
    leaves the table of protocols and all earlier history entries as they
    were and adds one entry at the end, which carries the arguments, the
    current time, and an id greater than that of every earlier entry. *)
Theorem log_download_appends :
  forall now flt ind found downloaded new updated status db u db',
    log_download now flt ind found downloaded new updated status db
    = (Returns u, db') ->
    protocols db' = protocols db
    /\ exists e,
        download_history db' = download_history db ++ [e]
        /\ h_indication e = ind /\ h_download_date e = now
        /\ h_studies_found e = found /\ h_protocols_downloaded e = downloaded
        /\ h_new_studies e = new /\ h_updated_studies e = updated
        /\ h_status e = status
        /\ forall h, In h (download_history db) -> h_id h < h_id e.
Proof.
  intros now flt ind found downloaded new updated status db u db'.
  rewrite log_download_unfold. destruct (_ || _); [discriminate|].
  intros [= _ <-]. simpl. split; [reflexivity|].
  eexists. split; [reflexivity|]. simpl. repeat split.
  intros h Hh. apply (next_rowid_above h_id), Hh.
Qed.

Lemma log_download_appends_witness :
  log_download 50 no_faults "obesity" 2 1 2 0 "completed" store_with_pdf
  = (Returns tt, store_logged)
  /\ protocols store_logged = protocols store_with_pdf
  /\ length (download_history store_logged) = 1%nat.
Proof.
  split; [reflexivity|].
  destruct (log_download_appends 50 no_faults "obesity" 2 1 2 0 "completed"
              store_with_pdf tt store_logged eq_refl) as (Hp & e & He & _).
  split; [exact Hp|]. rewrite He. reflexivity.
Defined.

(** ** ORDER BY *)

Lemma insert_sorted_perm {A} (before : A -> A -> bool) x l :
  Permutation (insert_sorted before x l) (x :: l).
Proof.
  induction l as [|y l IH]; simpl; [reflexivity|].
  destruct (before x y); [reflexivity|].
  rewrite IH. apply perm_swap.
Qed.

Lemma order_by_perm {A} (before : A -> A -> bool) l :
  Permutation (order_by before l) l.
Proof.
  induction l as [|x l IH]; simpl; [reflexivity|].
  rewrite insert_sorted_perm, IH. reflexivity.
Qed.

Lemma order_by_in {A} (before : A -> A -> bool) l x :
  In x (order_by before l) <-> In x l.
Proof.
  split; apply Permutation_in;
    [apply order_by_perm | symmetry; apply order_by_perm].
Qed.

Section Ordering.
Context {A : Type} (before : A -> A -> bool).
Hypothesis before_total : forall a b, before a b = true \/ before b a = true.
Hypothesis before_trans :
  forall a b c, before a b = true -> before b c = true -> before a c = true.

Lemma insert_sorted_in_order x l :
  in_order before l -> in_order before (insert_sorted before x l).
Proof.
  unfold in_order. induction l as [|y l IH]; intros Hl; simpl.
  - constructor; constructor.
  - inversion Hl as [|? ? Hl' Hy]; subst.
    destruct (before x y) eqn:Hxy.
    + constructor; [exact Hl|].
      constructor; [exact Hxy|].
      eapply List.Forall_impl; [|exact Hy].
      intros z Hz. exact (before_trans _ _ _ Hxy Hz).
    + constructor; [apply IH, Hl'|].
      apply List.Forall_forall. intros z Hz.
      apply (Permutation_in _ (insert_sorted_perm before x l)) in Hz.
      destruct Hz as [<- | Hz].
      * destruct (before_total x y) as [H | H]; [congruence | exact H].
      * rewrite List.Forall_forall in Hy. apply Hy, Hz.
Qed.

Lemma order_by_in_order l : in_order before (order_by before l).
Proof.
  induction l as [|x l IH]; simpl; [constructor|].
  apply insert_sorted_in_order, IH.
Qed.
End Ordering.

Lemma null_le_total a b : null_le a b = true \/ null_le b a = true.
Proof.
  destruct a as [x|], b as [y|]; simpl; auto.
  destruct (Z.leb_spec x y); [left; reflexivity|].
  right. apply Z.leb_le. lia.
Qed.

Lemma null_le_trans a b c :
  null_le a b = true -> null_le b c = true -> null_le a c = true.
Proof.
  destruct a as [x|], b as [y|], c as [z|]; simpl; try discriminate; auto.
  rewrite !Z.leb_le. lia.
Qed.

Lemma year_desc_in_order l : in_order year_desc (order_by year_desc l).
Proof.
  apply order_by_in_order; unfold year_desc.
  - intros a b. apply null_le_total.
  - intros a b c H1 H2. exact (null_le_trans _ _ _ H2 H1).
Qed.

Lemma date_desc_in_order l : in_order date_desc (order_by date_desc l).
Proof.
  apply order_by_in_order; unfold date_desc.
  - intros a b.
    destruct (Z.leb_spec (h_download_date b) (h_download_date a));
      [left; reflexivity|].
    right. apply Z.leb_le. lia.
  - intros a b c. rewrite !Z.leb_le. lia.
Qed.

Lemma sql_eq_some column s : sql_eq column (Some s) = true <-> column = Some s.
Proof.
  unfold sql_eq. destruct column as [c|]; [|split; discriminate].
  rewrite String.eqb_eq. split; congruence.
Qed.

(** X9.  [get_protocols_by_indication] returns the rows of the term,
    each as often as it is in the table and no other row, ordered by
    year with the most recent first and the rows without year last; for
    the parameter [None] it returns nothing. *)
Theorem protocols_by_indication_ordered :
  forall ind db,
    Permutation (get_protocols_by_indication (Some ind) db)
      (List.filter (in_scope (Some ind)) (protocols db))
    /\ (forall r, In r (get_protocols_by_indication (Some ind) db)
                  <-> In r (protocols db) /\ indication (fields r) = Some ind)
    /\ in_order (fun r1 r2 => null_le (year (fields r2)) (year (fields r1)))
         (get_protocols_by_indication (Some ind) db)
    /\ get_protocols_by_indication None db = [].
Proof.
  intros ind db. unfold get_protocols_by_indication. repeat split.
  - apply order_by_perm.
  - apply order_by_in in H. apply filter_In in H. apply H.
  - apply order_by_in in H. apply filter_In in H as [_ H].
    apply sql_eq_some, H.
  - intros [Hin Hind]. apply order_by_in, filter_In.
    split; [exact Hin | apply sql_eq_some, Hind].
  - apply year_desc_in_order.
  - replace (List.filter _ (protocols db)) with (@nil Row); [reflexivity|].
    induction (protocols db) as [|r l IH]; simpl; [reflexivity|].
    unfold sql_eq. destruct (indication (fields r)); exact IH.
Qed.

Lemma in_firstn {A} n (l : list A) x : In x (firstn n l) -> In x l.
Proof.
  revert l. induction n as [|n IH]; intros [|y l]; simpl; try tauto.
  intros [-> | H]; [left; reflexivity | right; apply IH, H].
Qed.

Lemma firstn_in_order {A} (before : A -> A -> bool) n l :
  in_order before l -> in_order before (firstn n l).
Proof.
  unfold in_order. revert l. induction n as [|n IH]; intros l Hl; simpl.
  - constructor.
  - destruct l as [|x l]; [constructor|].
    inversion Hl as [|? ? Hl' Hx]; subst.
    constructor; [apply IH, Hl'|].
    apply List.Forall_forall. intros y Hy.
    rewrite List.Forall_forall in Hx. apply Hx.
    eapply in_firstn, Hy.
Qed.

Lemma in_order_split {A} (before : A -> A -> bool) l1 l2 :
  in_order before (l1 ++ l2) ->
  forall x y, In x l1 -> In y l2 -> before x y = true.
Proof.
  unfold in_order. induction l1 as [|a l1 IH]; intros Hl x y Hx Hy;
    [destruct Hx|].
  simpl in Hl. inversion Hl as [|? ? Hl' Ha]; subst.
  destruct Hx as [<- | Hx].
  - rewrite List.Forall_forall in Ha. apply Ha, List.in_or_app. right; exact Hy.
  - exact (IH Hl' x y Hx Hy).
Qed.

(** X10.  [get_download_history] returns entries of the history that
    the scope selects, the most recent first; with a limit that is not
    negative it returns at most that many, and they are the most recent
    ones: the entries left out are not more recent than any entry
    returned.  A negative limit leaves nothing out. *)
Theorem download_history_most_recent :
  forall scope limit db,
    exists left_out,
      Permutation (get_download_history scope limit db ++ left_out)
        (List.filter (history_in_scope scope) (download_history db))
      /\ in_order date_desc (get_download_history scope limit db)
      /\ (forall h h', In h (get_download_history scope limit db) ->
                       In h' left_out ->
                       h_download_date h' <= h_download_date h)
      /\ (0 <= limit ->
          Z.of_nat (length (get_download_history scope limit db)) <= limit)
      /\ (limit < 0 -> left_out = []).
Proof.
  intros scope limit db. unfold get_download_history, sql_limit.
  fold (history_in_scope scope).
  set (sorted := order_by date_desc
                   (List.filter (history_in_scope scope) (download_history db))).
  assert (in_order date_desc sorted) as Hs by apply date_desc_in_order.
  assert (Permutation sorted
            (List.filter (history_in_scope scope) (download_history db)))
    as Hp by apply order_by_perm.
  destruct (Z.ltb_spec limit 0) as [Hneg | Hpos].
  - exists []. rewrite List.app_nil_r.
    split; [exact Hp|]. split; [exact Hs|].
    split; [intros h h' _ []|]. split; [lia | reflexivity].
  - exists (skipn (Z.to_nat limit) sorted).
    rewrite List.firstn_skipn.
    split; [exact Hp|]. split; [apply firstn_in_order, Hs|].
    split; [|split; [|lia]].
    + intros h h' Hh Hh'. apply Z.leb_le.
      rewrite <- (List.firstn_skipn (Z.to_nat limit) sorted) in Hs.
      exact (in_order_split _ _ _ Hs h h' Hh Hh').
    + intros _. pose proof (List.firstn_le_length (Z.to_nat limit) sorted). lia.
Qed.

(** ** Statistics *)

Lemma sum_of_flags (l : list Row) :
  List.fold_right Z.add 0
    (List.map (fun r => if has_protocol_doc r then 1 else 0) l)
  = Z.of_nat (length (List.filter has_protocol_doc l)).
Proof.
  induction l as [|r l IH]; simpl; [reflexivity|].
  rewrite IH. destruct (has_protocol_doc r); simpl length; lia.
Qed.

Lemma fold_min_le x l :
  List.fold_right Z.min x l <= x
  /\ forall y, In y l -> List.fold_right Z.min x l <= y.
Proof.
  induction l as [|z l [IH1 IH2]]; simpl; [split; [lia | intros y []]|].
  split; [lia|]. intros y [<- | Hy]; [lia|]. specialize (IH2 y Hy). lia.
Qed.

Lemma fold_max_ge x l :
  x <= List.fold_right Z.max x l
  /\ forall y, In y l -> y <= List.fold_right Z.max x l.
Proof.
  induction l as [|z l [IH1 IH2]]; simpl; [split; [lia | intros y []]|].
  split; [lia|]. intros y [<- | Hy]; [lia|]. specialize (IH2 y Hy). lia.
Qed.

Lemma in_present {A} (l : list (option A)) x : In x (present l) <-> In (Some x) l.
Proof.
  induction l as [|[y|] l IH]; simpl.
  - tauto.
  - rewrite IH. split; intros [H | H]; auto; left; congruence.
  - rewrite IH. split; [auto | intros [H | H]; [discriminate | exact H]].
Qed.

Lemma filter_length_le {A} (f : A -> bool) l :
  (length (List.filter f l) <= length l)%nat.
Proof.
  induction l as [|x l IH]; simpl; [lia|]. destruct (f x); simpl; lia.
Qed.

Lemma statistics_fields scope db :
  total_studies (get_statistics scope db)
  = Z.of_nat (length (stat_rows scope db))
  /\ with_protocols (get_statistics scope db)
     = sql_sum (List.map (fun r => if has_protocol_doc r then 1 else 0)
                  (stat_rows scope db))
  /\ earliest_year (get_statistics scope db)
     = sql_min (present (List.map (fun r => year (fields r))
                           (stat_rows scope db)))
  /\ latest_year (get_statistics scope db)
     = sql_max (present (List.map (fun r => year (fields r))
                           (stat_rows scope db))).
Proof. repeat split. Qed.

Lemma sql_sum_flags (rows : list Row) :
  sql_sum (List.map (fun r => if has_protocol_doc r then 1 else 0) rows)
  = match rows with
    | [] => None
    | _ :: _ => Some (Z.of_nat (length (List.filter has_protocol_doc rows)))
    end.
Proof.
  destruct rows as [|r l]; [reflexivity|].
  rewrite <- sum_of_flags. reflexivity.
Qed.

Lemma fold_min_in x l : In (List.fold_right Z.min x l) (x :: l).
Proof.
  induction l as [|z l IH]; simpl; [left; reflexivity|].
  destruct (Z.min_spec z (List.fold_right Z.min x l)) as [[_ ->] | [_ ->]].
  - right. left. reflexivity.
  - destruct IH as [IH | IH]; [left; exact IH | right; right; exact IH].
Qed.

Lemma fold_max_in x l : In (List.fold_right Z.max x l) (x :: l).
Proof.
  induction l as [|z l IH]; simpl; [left; reflexivity|].
  destruct (Z.max_spec z (List.fold_right Z.max x l)) as [[_ ->] | [_ ->]].
  - destruct IH as [IH | IH]; [left; exact IH | right; right; exact IH].
  - right. left. reflexivity.
Qed.

Lemma in_years (rows : list Row) y :
  In y (present (List.map (fun r => year (fields r)) rows))
  <-> exists r, In r rows /\ year (fields r) = Some y.
Proof.
  rewrite in_present, List.in_map_iff.
  split; intros (r & H1 & H2); exists r; auto.
Qed.

(** MIN and MAX over the years that are not NULL. *)
Lemma sql_min_max_years (rows : list Row) :
  let years := present (List.map (fun r => year (fields r)) rows) in
  (forall r y, In r rows -> year (fields r) = Some y ->
     exists lo hi, sql_min years = Some lo /\ sql_max years = Some hi
                   /\ lo <= y <= hi)
  /\ (forall lo, sql_min years = Some lo ->
        exists r, In r rows /\ year (fields r) = Some lo)
  /\ (forall hi, sql_max years = Some hi ->
        exists r, In r rows /\ year (fields r) = Some hi)
  /\ (sql_min years = None
      <-> forall r, In r rows -> year (fields r) = None)
  /\ (sql_max years = None
      <-> forall r, In r rows -> year (fields r) = None).
Proof.
  intros years.
  assert (years = [] <-> forall r, In r rows -> year (fields r) = None)
    as Hempty.
  { split.
    - intros Hnil r Hr.
      destruct (year (fields r)) as [y|] eqn:Hy; [|reflexivity].
      assert (In y years) as Hin by (apply in_years; exists r; auto).
      rewrite Hnil in Hin. destruct Hin.
    - intros Hall. destruct years as [|x l] eqn:Hyears; [reflexivity|].
      assert (In x years) as Hin by (rewrite Hyears; left; reflexivity).
      apply in_years in Hin as (r & Hr & Hy).
      rewrite (Hall r Hr) in Hy. discriminate. }
  pose proof (in_years rows) as Hyears. fold years in Hyears.
  split; [|split; [|split; [|split]]].
  - intros r y Hr Hy.
    assert (In y years) as Hin by (apply Hyears; exists r; auto).
    destruct years as [|x l]; [destruct Hin|]. simpl.
    exists (List.fold_right Z.min x l), (List.fold_right Z.max x l).
    split; [reflexivity|]. split; [reflexivity|].
    destruct (fold_min_le x l) as [Hm1 Hm2].
    destruct (fold_max_ge x l) as [HM1 HM2].
    destruct Hin as [<- | Hin]; [lia|].
    specialize (Hm2 y Hin). specialize (HM2 y Hin). lia.
  - intros lo Hlo. apply Hyears.
    destruct years as [|x l]; [discriminate|].
    injection Hlo as <-. apply fold_min_in.
  - intros hi Hhi. apply Hyears.
    destruct years as [|x l]; [discriminate|].
    injection Hhi as <-. apply fold_max_in.
  - rewrite <- Hempty. destruct years; simpl; split; congruence.
  - rewrite <- Hempty. destruct years; simpl; split; congruence.
Qed.

(** X11.  [get_statistics] counts the rows of the scope (all rows when
    the scope is [None] or empty).  Over no rows the number of rows with
    a document is NULL, not zero; otherwise it is the number of rows
    whose flag is set, at most the number of rows.  The earliest and the
    latest year bound the year of every counted row that has one, each
    of them is the year of a counted row, and each of them is NULL
    exactly when no counted row has a year. *)
Theorem statistics_of_rows :
  forall scope db,
    total_studies (get_statistics scope db)
    = Z.of_nat (length (stat_rows scope db))
    /\ with_protocols (get_statistics scope db)
       = match stat_rows scope db with
         | [] => None
         | _ :: _ =>
             Some (Z.of_nat (length (List.filter has_protocol_doc
                                       (stat_rows scope db))))
         end
    /\ (forall k, with_protocols (get_statistics scope db) = Some k ->
                  0 <= k <= total_studies (get_statistics scope db))
    /\ (forall r y, In r (stat_rows scope db) -> year (fields r) = Some y ->
          exists lo hi,
            earliest_year (get_statistics scope db) = Some lo
            /\ latest_year (get_statistics scope db) = Some hi
            /\ lo <= y <= hi)
    /\ (forall lo, earliest_year (get_statistics scope db) = Some lo ->
          exists r, In r (stat_rows scope db) /\ year (fields r) = Some lo)
    /\ (forall hi, latest_year (get_statistics scope db) = Some hi ->
          exists r, In r (stat_rows scope db) /\ year (fields r) = Some hi)
    /\ (earliest_year (get_statistics scope db) = None
        <-> forall r, In r (stat_rows scope db) -> year (fields r) = None)
    /\ (latest_year (get_statistics scope db) = None
        <-> forall r, In r (stat_rows scope db) -> year (fields r) = None).
Proof.
  intros scope db.
  destruct (statistics_fields scope db) as (-> & -> & -> & ->).
  rewrite sql_sum_flags. generalize (stat_rows scope db). intros rows.
  split; [reflexivity|]. split; [reflexivity|]. split.
  - intros k Hk.
    assert (k = Z.of_nat (length (List.filter has_protocol_doc rows))) as ->
        by (destruct rows; [discriminate | congruence]).
    pose proof (filter_length_le has_protocol_doc rows). lia.
  - exact (sql_min_max_years rows).
Qed.

(** ** Terms and export *)

Lemma all_indications_nodup db : NoDup (get_all_indications db).
Proof.
  unfold get_all_indications.
  rewrite order_by_perm. apply NoDup_ListNoDup, List.NoDup_nodup.
Qed.

Lemma in_all_indications db ind :
  In ind (get_all_indications db)
  <-> exists r, In r (protocols db) /\ indication (fields r) = ind.
Proof.
  unfold get_all_indications.
  rewrite order_by_in, List.nodup_In, List.in_map_iff.
  split; intros (r & H1 & H2); exists r; auto.
Qed.

(** X12.  [get_all_indications] lists each term of the table once: a
    value is in the list if and only if some row has it as its term
    (NULL included), and no value is listed twice. *)
Theorem all_indications_distinct :
  forall db,
    NoDup (get_all_indications db)
    /\ forall ind, In ind (get_all_indications db)
                   <-> exists r, In r (protocols db)
                                 /\ indication (fields r) = ind.
Proof.
  intros db. split; [apply all_indications_nodup|].
  intros ind. apply in_all_indications.
Qed.

Lemma filter_disjoint_app {A} (p q : A -> bool) (l : list A) :
  (forall x, In x l -> p x = true -> q x = true -> False) ->
  Permutation (List.filter p l ++ List.filter q l)
    (List.filter (fun x => p x || q x) l).
Proof.
  induction l as [|x l IH]; intros Hd; simpl; [reflexivity|].
  assert (Permutation (List.filter p l ++ List.filter q l)
            (List.filter (fun x => p x || q x) l)) as IH'.
  { apply IH. intros y Hy. apply Hd. right; exact Hy. }
  destruct (p x) eqn:Hp, (q x) eqn:Hq; simpl.
  - exfalso. exact (Hd x (or_introl eq_refl) Hp Hq).
  - rewrite IH'. reflexivity.
  - rewrite <- Permutation_middle, IH'. reflexivity.
  - exact IH'.
Qed.

Lemma groups_partition (l : list Row) (ks : list (option string)) :
  NoDup ks ->
  Permutation
    (List.concat (List.map (fun k => List.filter (in_scope k) l) ks))
    (List.filter (fun r => existsb (fun k => in_scope k r) ks) l).
Proof.
  induction ks as [|k ks IH]; intros Hnd; simpl.
  - induction l as [|r l IHl]; simpl; [reflexivity | exact IHl].
  - apply NoDup_cons in Hnd as [Hk Hnd].
    rewrite (IH Hnd). apply filter_disjoint_app.
    intros r _ Hp Hq. apply Hk.
    apply List.existsb_exists in Hq as (k' & Hk' & Hq).
    unfold in_scope, sql_eq in Hp, Hq.
    destruct (indication (fields r)) as [i|]; [|discriminate].
    destruct k as [s|], k' as [s'|]; try discriminate.
    apply String.eqb_eq in Hp, Hq. subst.
    apply list_elem_of_In, Hk'.
Qed.

Lemma groups_sorted_perm (l : list Row) (ks : list (option string)) :
  Permutation
    (List.concat
       (List.map (fun k => order_by year_desc (List.filter (in_scope k) l)) ks))
    (List.concat (List.map (fun k => List.filter (in_scope k) l) ks)).
Proof.
  induction ks as [|k ks IH]; simpl; [reflexivity|].
  rewrite IH, order_by_perm. reflexivity.
Qed.

Lemma export_rows_perm scope db :
  Permutation
    (if truthy scope then get_protocols_by_indication scope db
     else List.concat
            (List.map (fun ind => get_protocols_by_indication ind db)
               (get_all_indications db)))
    (List.filter (exported scope) (protocols db)).
Proof.
  unfold exported. destruct (truthy scope).
  - apply order_by_perm.
  - etransitivity; [apply (groups_sorted_perm (protocols db))|].
    rewrite groups_partition by apply all_indications_nodup.
    erewrite List.filter_ext_in; [reflexivity|].
    intros r Hr. simpl.
    destruct (indication (fields r)) as [i|] eqn:Hi; simpl.
    + apply List.existsb_exists. exists (Some i). split.
      * apply in_all_indications. exists r. split; assumption.
      * unfold in_scope. rewrite Hi. apply sql_eq_some. reflexivity.
    + apply not_true_is_false. intros H.
      apply List.existsb_exists in H as (k & _ & H).
      unfold in_scope in H. rewrite Hi in H. discriminate.
Qed.

(** X13.  [export_to_csv] hands to the writer every row of the scope's
    term or, without scope, every row that has a term, each as often as
    it is in the table; rows whose term is NULL are never exported.  When
    there is no such row nothing is written. *)
Theorem export_covers_rows_with_term :
  forall scope db,
    match export_to_csv scope db with
    | Some rows =>
        rows <> []
        /\ Permutation rows (List.filter (exported scope) (protocols db))
    | None => List.filter (exported scope) (protocols db) = []
    end.
Proof.
  intros scope db. unfold export_to_csv.
  pose proof (export_rows_perm scope db) as Hp.
  destruct (if truthy scope then _ else _) as [|r rows].
  - apply Permutation_nil in Hp. exact Hp.
  - split; [discriminate | exact Hp].
Qed.

(** ** Free-text search *)

Lemma like_percent rest s :
  like (String "%" rest) s = like_from_some rest s.
Proof.
  induction s as [|c s IH]; [reflexivity|].
  simpl like_from_some. rewrite <- IH. reflexivity.
Qed.

Lemma like_from_some_empty s : like_from_some EmptyString s = true.
Proof.
  induction s as [|c s IH]; [reflexivity|]. simpl. exact IH.
Qed.

Lemma prefix_empty s : String.prefix EmptyString s = true.
Proof. destruct s; reflexivity. Qed.

Lemma prefix_cons a s1 b s2 :
  String.prefix (String a s1) (String b s2)
  = Ascii.eqb a b && String.prefix s1 s2.
Proof.
  simpl. destruct (ascii_dec a b) as [-> | Hne].
  - rewrite Ascii.eqb_refl. reflexivity.
  - apply Ascii.eqb_neq in Hne. rewrite Hne. reflexivity.
Qed.

(** A literal pattern followed by [%] matches the strings that begin
    with it, case ignored. *)
Lemma like_literal q : forall s,
  no_wildcard q = true ->
  like (q +:+ "%") s = String.prefix (lower q) (lower s).
Proof.
  induction q as [|a q IH]; intros s Hq.
  - change (EmptyString +:+ "%") with "%".
    rewrite like_percent, like_from_some_empty. simpl.
    rewrite prefix_empty. reflexivity.
  - simpl in Hq. apply andb_true_iff in Hq as [Ha Hq].
    apply negb_true_iff, orb_false_iff in Ha as [Hp Hu].
    change (String a q +:+ "%") with (String a (q +:+ "%")).
    destruct s as [|c s]; simpl like; rewrite Hp; [reflexivity|].
    rewrite Hu. simpl orb.
    change (lower (String a q)) with (String (lower_char a) (lower q)).
    change (lower (String c s)) with (String (lower_char c) (lower s)).
    rewrite prefix_cons, IH by exact Hq. reflexivity.
Qed.

Lemma like_substring q s :
  no_wildcard q = true ->
  like ("%" +:+ q +:+ "%") s = contains (lower q) (lower s).
Proof.
  intros Hq. change ("%" +:+ q +:+ "%") with (String "%" (q +:+ "%")).
  rewrite like_percent.
  induction s as [|c s IH]; simpl.
  - rewrite like_literal by exact Hq. simpl. rewrite orb_false_r. reflexivity.
  - rewrite like_literal by exact Hq. rewrite IH. reflexivity.
Qed.

Lemma contains_empty s : contains EmptyString s = true.
Proof. destruct s; reflexivity. Qed.

Lemma sql_like_mentions q column :
  no_wildcard q = true ->
  sql_like column ("%" +:+ q +:+ "%") = mentions q column.
Proof.
  intros Hq. destruct column as [t|]; [|reflexivity].
  apply like_substring, Hq.
Qed.

(** X14.  For a query without [%] and [_], [search_protocols] finds
    exactly the rows (of the scope's term, when a scope that is not empty
    is given) whose registry ID, official title, brief title or
    condition list contains the query, letters compared without regard
    to ASCII case; the rows come most recent year first.  In particular
    the empty query finds every row of the scope. *)
Theorem search_finds_substrings :
  forall query scope db,
    no_wildcard query = true ->
    Permutation (search_protocols query scope db)
      (List.filter (found_by query scope) (protocols db))
    /\ in_order year_desc (search_protocols query scope db)
    /\ (query = EmptyString ->
        forall r, In r (search_protocols query scope db)
                  <-> In r (protocols db)
                      /\ (truthy scope = true -> in_scope scope r = true)).
Proof.
  intros q scope db Hq.
  assert (search_protocols q scope db
          = order_by year_desc
              (List.filter (found_by q scope) (protocols db))) as ->.
  { unfold search_protocols. f_equal. apply List.filter_ext. intros r.
    unfold found_by, in_scope.
    rewrite !(sql_like_mentions q) by exact Hq.
    destruct (truthy scope); reflexivity. }
  split; [apply order_by_perm|]. split; [apply year_desc_in_order|].
  intros -> r. rewrite order_by_in, filter_In. unfold found_by.
  unfold mentions at 1. change (lower EmptyString) with EmptyString.
  rewrite contains_empty. simpl. rewrite andb_true_r.
  destruct (truthy scope); intuition congruence.
Qed.

Lemma search_finds_substrings_witness :
  no_wildcard "TRIAL" = true
  /\ List.map nct_id (search_protocols "TRIAL" None store_three)
     = ["NCT00000002"; "NCT00000001"; "NCT00000003"]
  /\ Permutation (search_protocols "TRIAL" None store_three)
       (List.filter (found_by "TRIAL" None) (protocols store_three)).
Proof.
  split; [reflexivity|]. split; [reflexivity|].
  exact (proj1 (search_finds_substrings "TRIAL" None store_three eq_refl)).
Defined.

(** ** Requests and retries *)

Lemma request_attempts_bounds env cond tok R : forall todo attempt w,
  db (snd (request_attempts env cond tok R todo attempt w)) = db w
  /\ files (snd (request_attempts env cond tok R todo attempt w)) = files w
  /\ (ticks w <= ticks (snd (request_attempts env cond tok R todo attempt w)))%nat
  /\ (ticks (snd (request_attempts env cond tok R todo attempt w))
      <= ticks w + todo)%nat.
Proof.
  induction todo as [|todo IH]; intros attempt w; simpl.
  - repeat split; lia.
  - destruct (http_get env (ticks w) cond tok) as [d|e]; simpl.
    + repeat split; lia.
    + destruct e; simpl; try (repeat split; lia).
      destruct (_ <? _); simpl; [|repeat split; lia].
      match goal with |- context [request_attempts _ _ _ _ _ ?a ?w'] =>
        destruct (IH a w') as (-> & -> & H) end.
      simpl in H. repeat split; lia.
Qed.

(** X15.  [_make_request] makes at most [retries] requests and touches
    neither the store nor the files; with [retries = 0] it makes no
    request at all and returns [None]. *)
Theorem make_request_bounded :
  forall env condition tok retries w,
    db (snd (_make_request env condition tok retries w)) = db w
    /\ files (snd (_make_request env condition tok retries w)) = files w
    /\ (ticks w
        <= ticks (snd (_make_request env condition tok retries w)))%nat
    /\ (ticks (snd (_make_request env condition tok retries w))
        <= ticks w + retries)%nat
    /\ _make_request env condition tok 0 w = (Returns None, w).
Proof.
  intros env cond tok R w. unfold _make_request.
  destruct (request_attempts_bounds env cond tok R R 0%nat w) as (H1 & H2 & H3).
  repeat split; try assumption; lia.
Qed.

Lemma request_attempts_retry env cond tok R d : forall k todo attempt w,
  (attempt + todo = R)%nat ->
  (k < todo)%nat ->
  (forall i, (i < k)%nat ->
     http_get env (ticks w + i) cond tok = Raises RequestException) ->
  http_get env (ticks w + k) cond tok = Returns d ->
  exists w',
    request_attempts env cond tok R todo attempt w = (Returns (Some d), w')
    /\ trace w' = trace w ++ retry_trace (EvGet cond tok) attempt k
                  ++ [EvGet cond tok]
    /\ ticks w' = (ticks w + k + 1)%nat
    /\ db w' = db w /\ files w' = files w.
Proof.
  induction k as [|k IH]; intros todo attempt w HR Hk Hfail Hok;
    (destruct todo as [|todo]; [lia|]); simpl.
  - rewrite Nat.add_0_r in Hok. rewrite Hok.
    eexists. split; [reflexivity|]. simpl.
    repeat split. lia.
  - pose proof (Hfail 0%nat ltac:(lia)) as H0. rewrite Nat.add_0_r in H0.
    rewrite H0.
    assert ((Z.of_nat attempt <? Z.of_nat R - 1) = true) as ->
        by (apply Z.ltb_lt; lia).
    edestruct (IH todo (S attempt)
                 (sleep (Backoff (2 ^ Z.of_nat attempt))
                    (tick (emit (EvGet cond tok) w))))
      as (w' & Hrun & Htr & Ht & Hdb & Hf).
    + lia.
    + lia.
    + intros i Hi. simpl.
      replace (S (ticks w + i)) with (ticks w + S i)%nat by lia.
      apply Hfail. lia.
    + simpl. replace (S (ticks w + k)) with (ticks w + S k)%nat by lia.
      exact Hok.
    + exists w'. split; [exact Hrun|]. simpl in *.
      rewrite Htr, Ht, Hdb, Hf. unfold retry_trace. simpl.
      rewrite <- !List.app_assoc. simpl.
      repeat split. lia.
Qed.

(** X16.  Retrying with doubling waits: when the first [k] attempts of
    a request fail with a [RequestException], [k] being less than
    [retries], and the next attempt is answered, [_make_request] returns
    the answer after [k + 1] requests, having waited [2 ^ i] seconds
    after failed attempt [i] for every [i < k]. *)
Theorem make_request_retries_with_backoff :
  forall env condition tok retries k d w,
    (k < retries)%nat ->
    (forall i, (i < k)%nat ->
       http_get env (ticks w + i) condition tok = Raises RequestException) ->
    http_get env (ticks w + k) condition tok = Returns d ->
    exists w',
      _make_request env condition tok retries w = (Returns (Some d), w')
      /\ trace w' = trace w ++ retry_trace (EvGet condition tok) 0 k
                    ++ [EvGet condition tok]
      /\ ticks w' = (ticks w + k + 1)%nat.
Proof.
  intros env cond tok R k d w Hk Hfail Hok.
  destruct (request_attempts_retry env cond tok R d k R 0%nat w)
    as (w' & H1 & H2 & H3 & _); try assumption; [lia|].
  exists w'. repeat split; assumption.
Qed.

Lemma make_request_retries_with_backoff_witness :
  http_get flaky_env 0 "obesity" None = Raises RequestException
  /\ http_get flaky_env 1 "obesity" None = Raises RequestException
  /\ http_get flaky_env 2 "obesity" None = Returns page_two
  /\ exists w',
      _make_request flaky_env "obesity" None 3 initial_world
      = (Returns (Some page_two), w')
      /\ trace w' = [EvGet "obesity" None; EvSleep (Backoff 1);
                     EvGet "obesity" None; EvSleep (Backoff 2);
                     EvGet "obesity" None].
Proof.
  repeat (split; [reflexivity|]).
  destruct (make_request_retries_with_backoff flaky_env "obesity" None 3 2
              page_two initial_world) as (w' & Hrun & Htr & _).
  - lia.
  - intros i Hi. destruct i as [|[|i]]; [reflexivity | reflexivity | lia].
  - reflexivity.
  - exists w'. split; [exact Hrun | exact Htr].
Defined.

(** ** Normalisation *)

Lemma lower_char_idempotent c : lower_char (lower_char c) = lower_char c.
Proof. destruct c as [[] [] [] [] [] [] [] []]; reflexivity. Qed.

Lemma lower_idempotent s : lower (lower s) = lower s.
Proof.
  induction s as [|c s IH]; simpl; [reflexivity|].
  rewrite lower_char_idempotent, IH. reflexivity.
Qed.

Lemma find_protocol_url_first nct docs :
  match find_protocol_url nct docs with
  | Some url =>
      exists before doc after,
        docs = before ++ doc :: after
        /\ Forall (fun d => is_protocol_doc d = false) before
        /\ is_protocol_doc doc = true
        /\ url = document_url nct (get_str (filename doc))
  | None => Forall (fun d => is_protocol_doc d = false) docs
  end.
Proof.
  induction docs as [|doc docs IH]; simpl; [constructor|].
  rewrite lower_idempotent.
  destruct (contains "protocol" (lower (get_str (label doc)))
            || contains "sap" (lower (get_str (label doc)))) eqn:Hl;
    [destruct (negb (String.eqb (get_str (filename doc)) EmptyString)) eqn:Hf|].
  - exists [], doc, docs. split; [reflexivity|]. split; [constructor|].
    split; [unfold is_protocol_doc; rewrite Hl, Hf; reflexivity | reflexivity].
  - assert (is_protocol_doc doc = false) as Hd
        by (unfold is_protocol_doc; rewrite Hl, Hf; reflexivity).
    destruct (find_protocol_url nct docs) as [url|].
    + destruct IH as (before & d & after & -> & Hb & Hd' & ->).
      exists (doc :: before), d, after.
      split; [reflexivity|]. split; [constructor; assumption|].
      split; [exact Hd' | reflexivity].
    + constructor; assumption.
  - assert (is_protocol_doc doc = false) as Hd
        by (unfold is_protocol_doc; rewrite Hl; reflexivity).
    destruct (find_protocol_url nct docs) as [url|].
    + destruct IH as (before & d & after & -> & Hb & Hd' & ->).
      exists (doc :: before), d, after.
      split; [reflexivity|]. split; [constructor; assumption|].
      split; [exact Hd' | reflexivity].
    + constructor; assumption.
Qed.

(** X17.  The document URL of a normalised record comes from the first
    descriptor, in the order of the payload, whose label mentions
    "protocol" or "sap" (case ignored) and whose file name is not empty:
    it is the fixed prefix, the last two characters of the registry ID,
    the registry ID and that file name; the flag of the record is then
    true.  Without such a descriptor the record has no URL and its flag
    is false. *)
Theorem document_url_is_first_match :
  forall env study ind pd,
    _parse_study env study ind = Returns pd ->
    match pd_protocol_url pd with
    | Some url =>
        pd_has_protocol_doc pd = Some true
        /\ exists before doc after,
            largeDocs study = before ++ doc :: after
            /\ Forall (fun d => is_protocol_doc d = false) before
            /\ is_protocol_doc doc = true
            /\ url = document_url (get_str (nctId study))
                       (get_str (filename doc))
    | None =>
        pd_has_protocol_doc pd = Some false
        /\ Forall (fun d => is_protocol_doc d = false) (largeDocs study)
    end.
Proof.
  intros env study ind pd Hpd.
  apply parse_study_returns in Hpd as [y ->]. simpl.
  pose proof (find_protocol_url_first (get_str (nctId study))
                (largeDocs study)) as H.
  destruct (find_protocol_url _ _); split; [reflexivity | exact H
                                           | reflexivity | exact H].
Qed.

Lemma document_url_is_first_match_witness :
  _parse_study quiet_env study_with_doc "obesity" = Returns record_with_doc
  /\ pd_protocol_url record_with_doc
     = Some (document_url "NCT00000001" "Prot_000.pdf")
  /\ pd_has_protocol_doc record_with_doc = Some true.
Proof.
  pose proof (document_url_is_first_match quiet_env study_with_doc "obesity"
                record_with_doc eq_refl) as H.
  split; [reflexivity|]. split; [reflexivity|].
  simpl in H. exact (proj1 H).
Defined.

Lemma parse_study_normalised env study cond pd :
  _parse_study env study cond = Returns pd -> normalised cond pd.
Proof.
  intros Hpd. apply parse_study_returns in Hpd as [y ->].
  unfold normalised. simpl. repeat split.
  apply find_protocol_url_truthy.
Qed.

(** ** The generator *)

Ltac frame_step :=
  split; [first [assumption | reflexivity | simpl; lia]|];
  split; [first [assumption | reflexivity | simpl; lia]|];
  split; [first [assumption | reflexivity | simpl; lia]|];
  let r := fresh "r" in
  let H := fresh "H" in
  intros r H; simpl in H;
  discriminate H.

Lemma yield_study_frame env cond s rest d w :
  snd (yield_study env cond s rest d w) = w
  /\ forall r, fst (fst (yield_study env cond s rest d w)) = Yielded r ->
               normalised cond r.
Proof.
  unfold yield_study.
  destruct (_parse_study env s cond) as [pd|e] eqn:Hp; simpl.
  - split; [reflexivity|]. intros r [= <-].
    exact (parse_study_normalised _ _ _ _ Hp).
  - split; [reflexivity | discriminate].
Qed.

Lemma fetch_page_frame env cond tok w :
  db (snd (fetch_page env cond tok w)) = db w
  /\ files (snd (fetch_page env cond tok w)) = files w
  /\ (ticks w <= ticks (snd (fetch_page env cond tok w)))%nat
  /\ forall r, fst (fst (fetch_page env cond tok w)) = Yielded r ->
               normalised cond r.
Proof.
  unfold fetch_page, _make_request.
  destruct (request_attempts_bounds env cond tok 3 3 0%nat w)
    as (Hdb & Hf & Ht & _).
  destruct (request_attempts env cond tok 3 3 0%nat w) as [[[d|]|e] w1];
    simpl in Hdb, Hf, Ht; [|frame_step|frame_step].
  destruct (data_falsy d); [frame_step|].
  destruct (default [] (studies d)) as [|s rest]; [frame_step|].
  destruct (yield_study_frame env cond s rest d w1) as [-> Hn].
  repeat (split; [assumption|]). exact Hn.
Qed.

Lemma gen_next_frame env cond g w :
  db (snd (gen_next env cond g w)) = db w
  /\ files (snd (gen_next env cond g w)) = files w
  /\ (ticks w <= ticks (snd (gen_next env cond g w)))%nat
  /\ forall r, fst (fst (gen_next env cond g w)) = Yielded r ->
               normalised cond r.
Proof.
  destruct g as [|[|s rest] d|]; simpl.
  - apply fetch_page_frame.
  - destruct (truthy (nextPageToken d)); [|frame_step].
    apply (fetch_page_frame env cond (nextPageToken d)
             (sleep REQUEST_DELAY w)).
  - destruct (yield_study_frame env cond s rest d w) as [-> Hn].
    repeat (split; [first [reflexivity | lia]|]). exact Hn.
  - frame_step.
Qed.

Lemma drain_frame env cond : forall fuel g w rs o w',
  drain fuel env cond g w = Some (rs, o, w') ->
  Forall (normalised cond) rs /\ db w' = db w /\ files w' = files w.
Proof.
  induction fuel as [|fuel IH]; intros g w rs o w' H; [discriminate|].
  simpl in H.
  destruct (gen_next_frame env cond g w) as (Hdb & Hf & _ & Hn).
  destruct (gen_next env cond g w) as [[step g1] w1]; simpl in *.
  destruct step as [r| |e].
  - destruct (drain fuel env cond g1 w1) as [[[rs1 o1] w2]|] eqn:Hd;
      [|discriminate].
    injection H as <- <- <-.
    destruct (IH _ _ _ _ _ Hd) as (H1 & H2 & H3).
    split; [constructor; [apply Hn; reflexivity | exact H1]|].
    split; congruence.
  - injection H as <- <- <-. split; [constructor|]. split; assumption.
  - injection H as <- <- <-. split; [constructor|]. split; assumption.
Qed.

(** X18.  Whatever the registry answers, every record that
    [search_studies] yields carries the searched term as its term, has no
    local document path, has its flag set exactly when it has a document
    URL, and a URL that is never empty; and the generator changes
    neither the store nor the files. *)
Theorem search_studies_yields_normalised :
  forall fuel env condition w rs o w',
    search_studies fuel env condition w = Some (rs, o, w') ->
    Forall (normalised condition) rs /\ db w' = db w /\ files w' = files w.
Proof. intros fuel env cond w rs o w'. apply drain_frame. Qed.

Lemma search_studies_yields_normalised_witness :
  search_studies 3 two_page_env "obesity" initial_world
  = Some ([record_with_doc; record_page_two],
          Returns tt,
          snd (default ([], Returns tt, initial_world)
                 (search_studies 3 two_page_env "obesity" initial_world)))
  /\ Forall (normalised "obesity") [record_with_doc; record_page_two].
Proof.
  assert (search_studies 3 two_page_env "obesity" initial_world
          = Some ([record_with_doc; record_page_two],
                  Returns tt,
                  snd (default ([], Returns tt, initial_world)
                         (search_studies 3 two_page_env "obesity"
                            initial_world)))) as H by reflexivity.
  split; [exact H|].
  exact (proj1 (search_studies_yields_normalised _ _ _ _ _ _ _ H)).
Defined.

(** ** Downloads *)

#[local] Set Warnings "-clear-no-such-hyp".

Lemma download_attempts_frame env url path R : forall todo attempt w,
  db (snd (download_attempts env url path R todo attempt w)) = db w
  /\ files w ⊆ files (snd (download_attempts env url path R todo attempt w))
  /\ files (snd (download_attempts env url path R todo attempt w))
     ⊆ {[ path ]} ∪ files w
  /\ (ticks w
      <= ticks (snd (download_attempts env url path R todo attempt w)))%nat
  /\ (ticks (snd (download_attempts env url path R todo attempt w))
      <= ticks w + todo)%nat
  /\ (fst (download_attempts env url path R todo attempt w) = Returns true ->
      path ∈ files (snd (download_attempts env url path R todo attempt w))).
Proof.
  induction todo as [|todo IH]; intros attempt w; simpl.
  - repeat split; intros;
      solve [reflexivity | lia | discriminate | set_solver].
  - destruct (http_download env (ticks w) url) as [|e opened]; simpl.
    + repeat split; intros;
        solve [reflexivity | simpl; lia | discriminate | set_solver].
    + destruct e;
        try (destruct opened; simpl; repeat split; intros;
             solve [reflexivity | simpl; lia | discriminate | set_solver]).
      match goal with |- context [download_attempts _ _ _ _ _ ?a ?w'] =>
        destruct (IH a w') as (H1 & H2 & H3 & H4 & H5 & H6) end.
      destruct opened, (_ <? _); simpl in *;
        (split; [congruence|]); (split; [set_solver|]);
        (split; [set_solver|]); (split; [lia|]); (split; [lia|]); exact H6.
Qed.

(** X19.  [download_pdf] makes at most [retries] attempts, does not
    touch the store, and the only file it can create is the one at
    [save_path]: every file that existed still exists, and when it
    returns [True] the file at [save_path] exists. *)
Theorem download_pdf_frame :
  forall env url save_path retries w,
    db (snd (download_pdf env url save_path retries w)) = db w
    /\ files w ⊆ files (snd (download_pdf env url save_path retries w))
    /\ files (snd (download_pdf env url save_path retries w))
       ⊆ {[ save_path ]} ∪ files w
    /\ (ticks (snd (download_pdf env url save_path retries w))
        <= ticks w + retries)%nat
    /\ (fst (download_pdf env url save_path retries w) = Returns true ->
        save_path ∈ files (snd (download_pdf env url save_path retries w))).
Proof.
  intros env url path R w. unfold download_pdf.
  destruct (download_attempts_frame env url path R R 0%nat w)
    as (H1 & H2 & H3 & _ & H5 & H6).
  repeat split; assumption.
Qed.





(** ** The orchestrator: counters, caps, history *)

Lemma history_after_upsert now flt pd db :
  download_history (snd (upsert_protocol now flt pd db)) = download_history db.
Proof.
  rewrite upsert_protocol_unfold. destruct (_ || _); [reflexivity|].
  unfold upsert_effect. destruct (get_protocol _ db); reflexivity.
Qed.

Lemma history_after_update_pdf_path now flt n p db :
  download_history (snd (update_pdf_path now flt n p db)) = download_history db.
Proof. rewrite update_pdf_path_unfold. destruct (_ || _); reflexivity. Qed.

Lemma db_call_frame {A} (op : Z -> Faults -> Store -> Outcome A * Store) env w :
  files (snd (db_call op env w)) = files w
  /\ trace (snd (db_call op env w)) = trace w
  /\ db (snd (db_call op env w))
     = snd (op (clock env (ticks w)) (db_faults env (ticks w)) (db w))
  /\ fst (db_call op env w)
     = fst (op (clock env (ticks w)) (db_faults env (ticks w)) (db w)).
Proof. unfold db_call. destruct (op _ _ _); repeat split. Qed.

Lemma count_downloads_app t t' :
  count_downloads (t ++ t') = (count_downloads t + count_downloads t')%nat.
Proof.
  unfold count_downloads. rewrite List.filter_app, List.length_app. reflexivity.
Qed.

Lemma count_downloads_quiet t e :
  match e with EvDownload _ _ => False | _ => True end ->
  count_downloads (t ++ [e]) = count_downloads t.
Proof.
  intros He. rewrite count_downloads_app.
  destruct e; [|destruct He|]; unfold count_downloads; simpl; lia.
Qed.

Lemma request_attempts_no_download env cond tok R : forall todo attempt w,
  count_downloads (trace (snd (request_attempts env cond tok R todo attempt w)))
  = count_downloads (trace w).
Proof.
  induction todo as [|todo IH]; intros attempt w; simpl; [reflexivity|].
  destruct (http_get env (ticks w) cond tok) as [d|e]; simpl.
  - apply count_downloads_quiet. exact I.
  - destruct e; simpl; try (apply count_downloads_quiet; exact I).
    destruct (_ <? _); simpl.
    + rewrite IH. simpl. rewrite !count_downloads_quiet by exact I. reflexivity.
    + apply count_downloads_quiet. exact I.
Qed.

Lemma fetch_page_no_download env cond tok w :
  count_downloads (trace (snd (fetch_page env cond tok w)))
  = count_downloads (trace w).
Proof.
  unfold fetch_page, _make_request.
  pose proof (request_attempts_no_download env cond tok 3 3 0%nat w) as H.
  destruct (request_attempts env cond tok 3 3 0%nat w) as [[[d|]|e] w1];
    simpl in *; try exact H.
  destruct (data_falsy d); [exact H|].
  destruct (default [] (studies d)) as [|s rest]; [exact H|].
  rewrite (proj1 (yield_study_frame env cond s rest d w1)). exact H.
Qed.

Lemma gen_next_no_download env cond g w :
  count_downloads (trace (snd (gen_next env cond g w)))
  = count_downloads (trace w).
Proof.
  destruct g as [|[|s rest] d|]; simpl; try reflexivity.
  - apply fetch_page_no_download.
  - destruct (truthy (nextPageToken d)); [|reflexivity].
    rewrite fetch_page_no_download. simpl.
    apply count_downloads_quiet. exact I.
  - rewrite (proj1 (yield_study_frame env cond s rest d w)). reflexivity.
Qed.

(** One turn of the loop body: what it leaves alone. *)
Lemma process_study_frame env folder dl st pd w :
  download_history (db (snd (process_study env folder dl st pd w)))
  = download_history (db w)
  /\ files w ⊆ files (snd (process_study env folder dl st pd w))
  /\ (dl = false ->
      files (snd (process_study env folder dl st pd w)) = files w
      /\ count_downloads (trace (snd (process_study env folder dl st pd w)))
         = count_downloads (trace w)).
Proof.
  unfold process_study.
  destruct (db_call_frame (fun now flt => upsert_protocol now flt pd) env w)
    as (Hf1 & Ht1 & Hd1 & _).
  destruct (db_call _ env w) as [[is_new|e] w1]; simpl in Hf1, Ht1, Hd1.
  2:{ simpl. rewrite Hd1, history_after_upsert, Hf1, Ht1.
      repeat split; reflexivity. }
  assert (download_history (db w1) = download_history (db w)) as Hh1
      by (rewrite Hd1; apply history_after_upsert).
  destruct dl; simpl.
  2:{ rewrite Hh1, Hf1, Ht1. repeat split; reflexivity. }
  destruct (truthy (pd_protocol_url pd)); simpl.
  2:{ rewrite Hh1, Hf1. repeat split; (reflexivity || discriminate). }
  destruct (bool_decide _); simpl.
  { rewrite Hh1, Hf1. repeat split; (reflexivity || discriminate). }
  destruct (download_pdf_frame env (get_str (pd_protocol_url pd))
              (pdf_path_of folder (pd_nct_id pd)) 3 w1)
    as (Hd2 & Hs2 & _).
  rewrite Hf1 in Hs2.
  destruct (download_pdf env _ _ 3 w1) as [[[|]|e] w2]; simpl in Hd2, Hs2.
  - destruct (db_call_frame
                (fun now flt => update_pdf_path now flt (pd_nct_id pd)
                                  (pdf_path_of folder (pd_nct_id pd))) env w2)
      as (Hf3 & _ & Hd3 & _).
    assert (download_history
              (db (snd (db_call
                          (fun now flt =>
                             update_pdf_path now flt (pd_nct_id pd)
                               (pdf_path_of folder (pd_nct_id pd))) env w2)))
            = download_history (db w)) as Hh3
        by (rewrite Hd3, history_after_update_pdf_path, Hd2; exact Hh1).
    destruct (db_call _ env w2) as [[u|e] w3]; simpl in *;
      (split; [exact Hh3|]); (split; [rewrite Hf3; exact Hs2|]); discriminate.
  - simpl. rewrite Hd2.
    split; [exact Hh1|]. split; [exact Hs2 | discriminate].
  - simpl. rewrite Hd2.
    split; [exact Hh1|]. split; [exact Hs2 | discriminate].
Qed.

(** One turn of the loop body: the counters. *)
Lemma process_study_counts env folder dl st pd w st' :
  fst (process_study env folder dl st pd w) = Returns st' ->
  st_indication st' = st_indication st
  /\ studies_found st' = studies_found st + 1
  /\ new_studies st <= new_studies st'
  /\ updated_studies st <= updated_studies st'
  /\ new_studies st' + updated_studies st'
     = new_studies st + updated_studies st + 1
  /\ protocols_downloaded st <= protocols_downloaded st'
  /\ download_errors st <= download_errors st'
  /\ protocols_downloaded st' + download_errors st'
     <= protocols_downloaded st + download_errors st + 1
  /\ (dl = false ->
      protocols_downloaded st' = protocols_downloaded st
      /\ download_errors st' = download_errors st).
Proof.
  unfold process_study.
  destruct (db_call _ env w) as [[is_new|e] w1]; [|discriminate].
  destruct dl; simpl.
  2:{ intros [= <-]. destruct is_new; simpl; repeat split; lia. }
  destruct (truthy (pd_protocol_url pd)); simpl.
  2:{ intros [= <-]. destruct is_new; simpl; repeat split; lia || discriminate. }
  destruct (bool_decide _); simpl.
  { intros [= <-]. destruct is_new; simpl; repeat split; lia || discriminate. }
  destruct (download_pdf env _ _ 3 w1) as [[[|]|e] w2]; [| |discriminate].
  - destruct (db_call _ env w2) as [[u|e] w3]; [|discriminate].
    intros [= <-]. destruct is_new; simpl; repeat split; lia || discriminate.
  - intros [= <-]. destruct is_new; simpl; repeat split; lia || discriminate.
Qed.

Lemma process_loop_frame env ind folder dl cap :
  forall fuel g st processed w r w',
    process_loop fuel env ind folder dl cap g st processed w = Some (r, w') ->
    download_history (db w') = download_history (db w)
    /\ files w ⊆ files w'
    /\ (dl = false ->
        files w' = files w
        /\ count_downloads (trace w') = count_downloads (trace w)).
Proof.
  induction fuel as [|fuel IH]; intros g st processed w r w' H;
    [discriminate|].
  simpl in H.
  destruct (gen_next_frame env ind g w) as (Hdb & Hf & _ & _).
  pose proof (gen_next_no_download env ind g w) as Hn.
  destruct (gen_next env ind g w) as [[step g1] w1]; simpl in Hdb, Hf, Hn.
  assert (download_history (db w1) = download_history (db w)
          /\ files w ⊆ files w1
          /\ (dl = false ->
              files w1 = files w
              /\ count_downloads (trace w1) = count_downloads (trace w)))
    as Hstop.
  { rewrite Hdb, Hf. repeat split; intros; (reflexivity || assumption). }
  destruct step as [pd| |e];
    [|injection H as <- <-; exact Hstop|injection H as <- <-; exact Hstop].
  destruct (cap_reached cap processed); [injection H as <- <-; exact Hstop|].
  destruct (process_study_frame env folder dl st pd w1) as (Hh2 & Hs2 & Hq2).
  destruct (process_study env folder dl st pd w1) as [[st1|e] w2];
    simpl in Hh2, Hs2, Hq2.
  - destruct (IH _ _ _ _ _ _ H) as (Hh3 & Hs3 & Hq3).
    split; [rewrite Hh3, Hh2, Hdb; reflexivity|].
    split; [rewrite Hf in Hs2; etransitivity; eassumption|].
    intros ->. destruct (Hq2 eq_refl) as [Hx1 Hx2].
    destruct (Hq3 eq_refl) as [Hy1 Hy2].
    split; congruence.
  - injection H as <- <-.
    split; [rewrite Hh2, Hdb; reflexivity|].
    split; [rewrite Hf in Hs2; exact Hs2|].
    intros ->. destruct (Hq2 eq_refl) as [Hx1 Hx2]. split; congruence.
Qed.

Lemma process_loop_counts env ind folder dl cap :
  forall fuel g st processed w st' w',
    stats_ok ind st ->
    studies_found st = processed ->
    process_loop fuel env ind folder dl cap g st processed w
    = Some (Returns st', w') ->
    stats_ok ind st'
    /\ (dl = false ->
        protocols_downloaded st' = protocols_downloaded st
        /\ download_errors st' = download_errors st)
    /\ (forall m, cap = Some m -> 0 < m -> processed <= m ->
                  studies_found st' <= m)
    /\ (forall m, cap = Some m -> m < 0 -> st' = st).
Proof.
  induction fuel as [|fuel IH]; intros g st processed w st' w' Hok Hp H;
    [discriminate|].
  simpl in H.
  assert (stats_ok ind st
          /\ (dl = false ->
              protocols_downloaded st = protocols_downloaded st
              /\ download_errors st = download_errors st)
          /\ (forall m, cap = Some m -> 0 < m -> processed <= m ->
                        studies_found st <= m)
          /\ (forall m, cap = Some m -> m < 0 -> st = st)) as Hstop.
  { split; [exact Hok|]. split; [split; reflexivity|].
    split; [intros; lia | reflexivity]. }
  destruct (gen_next env ind g w) as [[[pd| |e] g1] w1];
    [|injection H as <- <-; exact Hstop|discriminate].
  destruct (cap_reached cap processed) eqn:Hcap;
    [injection H as <- <-; exact Hstop|].
  pose proof (process_study_counts env folder dl st pd w1) as Hc.
  destruct (process_study env folder dl st pd w1) as [[st1|e] w2];
    [|discriminate].
  destruct (Hc st1 eq_refl)
    as (C1 & C2 & C3 & C4 & C5 & C6 & C7 & C8 & C9).
  destruct Hok as (K1 & K2 & K3 & K4 & K5 & K6 & K7).
  assert (stats_ok ind st1) as Hok1.
  { unfold stats_ok. repeat split; try lia. congruence. }
  destruct (IH g1 st1 (processed + 1) w2 st' w' Hok1 ltac:(lia) H)
    as (R1 & R2 & R3 & R4).
  split; [exact R1|]. split; [|split].
  - intros ->. destruct (C9 eq_refl), (R2 eq_refl). split; congruence.
  - intros m -> Hm Hle. apply (R3 m eq_refl Hm).
    unfold cap_reached in Hcap.
    apply andb_false_iff in Hcap as [Hz | Hlt].
    + apply negb_false_iff, Z.eqb_eq in Hz. lia.
    + apply Z.leb_gt in Hlt. lia.
  - intros m -> Hm. exfalso.
    unfold cap_reached in Hcap.
    apply andb_false_iff in Hcap as [Hz | Hlt].
    + apply negb_false_iff, Z.eqb_eq in Hz. lia.
    + apply Z.leb_gt in Hlt. lia.
Qed.

Lemma new_stats_ok ind : stats_ok ind (new_stats ind).
Proof. unfold stats_ok. simpl. repeat split; lia. Qed.

Lemma process_indication_returns fuel env ind dl cap w st w' :
  process_indication fuel env ind dl cap w = Some (Returns st, w') ->
  exists w1 u,
    process_loop fuel env ind (_get_indication_folder env ind) dl cap
      NotStarted (new_stats ind) 0 w = Some (Returns st, w1)
    /\ db_call (fun now flt =>
                  log_download now flt ind (studies_found st)
                    (protocols_downloaded st) (new_studies st)
                    (updated_studies st) "completed") env w1
       = (Returns u, w').
Proof.
  unfold process_indication.
  destruct (process_loop _ _ _ _ _ _ _ _ _ _) as [[[st1|e] w1]|];
    [|discriminate|discriminate].
  destruct (db_call _ env w1) as [[u|e] w2] eqn:Hlog; [|discriminate].
  intros [= <- <-]. exists w1, u. split; [reflexivity | exact Hlog].
Qed.

(** X21.  The counters that [process_indication] returns are
    consistent: they are not negative, every study found is counted
    exactly once as new or as updated, the downloads and the download
    errors together do not exceed the studies found, and the statistics
    name the term; when documents are not to be retrieved both download
    counters are zero. *)
Theorem process_indication_counters :
  forall fuel env ind download_pdfs cap w st w',
    process_indication fuel env ind download_pdfs cap w
    = Some (Returns st, w') ->
    stats_ok ind st
    /\ (download_pdfs = false ->
        protocols_downloaded st = 0 /\ download_errors st = 0).
Proof.
  intros fuel env ind dl cap w st w' H.
  apply process_indication_returns in H as (w1 & u & Hloop & _).
  destruct (process_loop_counts _ _ _ _ _ _ _ _ _ _ _ _
              (new_stats_ok ind) eq_refl Hloop) as (H1 & H2 & _).
  split; [exact H1 | exact H2].
Qed.

Lemma process_indication_counters_witness :
  process_indication 10 one_bad_term_env "obesity" false None initial_world
  = Some (Returns {| st_indication := "obesity"; studies_found := 2;
                     new_studies := 2; updated_studies := 0;
                     protocols_downloaded := 0; download_errors := 0 |},
          world_after_obesity)
  /\ stats_ok "obesity" {| st_indication := "obesity"; studies_found := 2;
                     new_studies := 2; updated_studies := 0;
                     protocols_downloaded := 0; download_errors := 0 |}.
Proof.
  assert (process_indication 10 one_bad_term_env "obesity" false None initial_world
  = Some (Returns {| st_indication := "obesity"; studies_found := 2;
                     new_studies := 2; updated_studies := 0;
                     protocols_downloaded := 0; download_errors := 0 |},
          world_after_obesity)) as H by (vm_compute; reflexivity).
  split; [exact H|].
  exact (proj1 (process_indication_counters _ _ _ _ _ _ _ _ H)).
Defined.

(** X22.  The cap on the number of studies: with a positive
    [max_studies] the loop of [process_indication] processes at most that
    many studies, and with a negative one it processes none. *)
Theorem max_studies_caps_run :
  forall fuel env ind download_pdfs m w st w',
    process_indication fuel env ind download_pdfs (Some m) w
    = Some (Returns st, w') ->
    (0 < m -> studies_found st <= m)
    /\ (m < 0 -> studies_found st = 0).
Proof.
  intros fuel env ind dl m w st w' H.
  apply process_indication_returns in H as (w1 & u & Hloop & _).
  destruct (process_loop_counts _ _ _ _ _ _ _ _ _ _ _ _
              (new_stats_ok ind) eq_refl Hloop) as (_ & _ & H3 & H4).
  split.
  - intros Hm. apply (H3 m eq_refl Hm). simpl. lia.
  - intros Hm. rewrite (H4 m eq_refl Hm). reflexivity.
Qed.

Lemma max_studies_caps_run_witness :
  process_indication 10 two_page_env "obesity" false (Some 1) initial_world
  = Some (Returns {| st_indication := "obesity"; studies_found := 1;
                     new_studies := 1; updated_studies := 0;
                     protocols_downloaded := 0; download_errors := 0 |},
          world_after_capped)
  /\ 0 < 1
  /\ studies_found {| st_indication := "obesity"; studies_found := 1;
                      new_studies := 1; updated_studies := 0;
                      protocols_downloaded := 0; download_errors := 0 |} <= 1.
Proof.
  assert (process_indication 10 two_page_env "obesity" false (Some 1)
            initial_world
          = Some (Returns {| st_indication := "obesity"; studies_found := 1;
                             new_studies := 1; updated_studies := 0;
                             protocols_downloaded := 0; download_errors := 0 |},
                  world_after_capped)) as H by (vm_compute; reflexivity).
  split; [exact H|]. split; [lia|].
  apply (proj1 (max_studies_caps_run _ _ _ _ _ _ _ _ H)). lia.
Defined.

Lemma process_loop_zero_cap env ind folder dl :
  forall fuel g st processed w,
    process_loop fuel env ind folder dl (Some 0) g st processed w
    = process_loop fuel env ind folder dl None g st processed w.
Proof.
  induction fuel as [|fuel IH]; intros g st processed w; [reflexivity|].
  simpl. destruct (gen_next env ind g w) as [[[pd| |e] g1] w1];
    try reflexivity.
  destruct (process_study env folder dl st pd w1) as [[st1|e] w2];
    [apply IH | reflexivity].
Qed.

(** X23.  A cap of zero is no cap: [process_indication] with
    [max_studies = 0] does exactly what it does without [max_studies]. *)
Theorem zero_cap_is_no_cap :
  forall fuel env ind download_pdfs w,
    process_indication fuel env ind download_pdfs (Some 0) w
    = process_indication fuel env ind download_pdfs None w.
Proof.
  intros. unfold process_indication. rewrite process_loop_zero_cap.
  reflexivity.
Qed.

(** X24.  One history entry per completed run: when
    [process_indication] returns, the run history is the history before
    the call followed by one entry with the term, the counters returned
    and the status "completed"; when it raises, the run history is what
    it was. *)
Theorem process_indication_logs_once :
  forall fuel env ind download_pdfs cap w r w',
    process_indication fuel env ind download_pdfs cap w = Some (r, w') ->
    match r with
    | Returns st =>
        exists e,
          download_history (db w') = download_history (db w) ++ [e]
          /\ h_indication e = ind
          /\ h_studies_found e = studies_found st
          /\ h_new_studies e = new_studies st
          /\ h_updated_studies e = updated_studies st
          /\ h_protocols_downloaded e = protocols_downloaded st
          /\ h_status e = "completed"
    | Raises _ => download_history (db w') = download_history (db w)
    end.
Proof.
  intros fuel env ind dl cap w r w'. unfold process_indication.
  destruct (process_loop _ _ _ _ _ _ _ _ _ _) as [[[st1|e] w1]|] eqn:Hloop;
    [| |discriminate].
  - destruct (process_loop_frame _ _ _ _ _ _ _ _ _ _ _ _ Hloop) as (Hh & _).
    destruct (db_call_frame
                (fun now flt =>
                   log_download now flt ind (studies_found st1)
                     (protocols_downloaded st1) (new_studies st1)
                     (updated_studies st1) "completed") env w1)
      as (_ & _ & Hd & Hr).
    destruct (db_call _ env w1) as [[u|e] w2]; simpl in Hd, Hr;
      intros [= <- <-].
    + symmetry in Hr.
      destruct (log_download _ _ _ _ _ _ _ _ (db w1)) as [r' s'] eqn:Hlog.
      simpl in Hr, Hd. subst r' s'.
      destruct (log_download_appends _ _ _ _ _ _ _ _ _ _ _ Hlog)
        as (_ & e & He & E1 & _ & E3 & E4 & E5 & E6 & E7 & _).
      exists e. rewrite He, Hh. repeat split; assumption.
    + rewrite log_download_unfold in Hr, Hd.
      destruct (_ || _); simpl in Hr, Hd; [rewrite Hd; exact Hh | discriminate].
  - intros [= <- <-].
    apply (process_loop_frame _ _ _ _ _ _ _ _ _ _ _ _ Hloop).
Qed.

Lemma process_indication_logs_once_witness :
  process_indication 10 one_bad_term_env "obesity" false None initial_world
  = Some (Returns {| st_indication := "obesity"; studies_found := 2;
                     new_studies := 2; updated_studies := 0;
                     protocols_downloaded := 0; download_errors := 0 |},
          world_after_obesity)
  /\ exists e,
      download_history (db world_after_obesity)
      = download_history (db initial_world) ++ [e]
      /\ h_indication e = "obesity" /\ h_studies_found e = 2.
Proof.
  assert (process_indication 10 one_bad_term_env "obesity" false None initial_world
  = Some (Returns {| st_indication := "obesity"; studies_found := 2;
                     new_studies := 2; updated_studies := 0;
                     protocols_downloaded := 0; download_errors := 0 |},
          world_after_obesity)) as H by (vm_compute; reflexivity).
  split; [exact H|].
  destruct (process_indication_logs_once _ _ _ _ _ _ _ _ H)
    as (e & He & E1 & E2 & _).
  exists e. split; [exact He|]. split; [exact E1 | exact E2].
Defined.

(** X25.  Metadata only: when documents are not to be retrieved,
    [process_indication] makes no download attempt and creates no file,
    whether it returns or raises. *)
Theorem no_pdfs_no_downloads :
  forall fuel env ind cap w r w',
    process_indication fuel env ind false cap w = Some (r, w') ->
    files w' = files w
    /\ count_downloads (trace w') = count_downloads (trace w).
Proof.
  intros fuel env ind cap w r w'. unfold process_indication.
  destruct (process_loop _ _ _ _ _ _ _ _ _ _) as [[[st1|e] w1]|] eqn:Hloop;
    [| |discriminate].
  - destruct (process_loop_frame _ _ _ _ _ _ _ _ _ _ _ _ Hloop)
      as (_ & _ & Hq).
    destruct (Hq eq_refl) as [Hf Hc].
    destruct (db_call_frame
                (fun now flt =>
                   log_download now flt ind (studies_found st1)
                     (protocols_downloaded st1) (new_studies st1)
                     (updated_studies st1) "completed") env w1)
      as (Hf2 & Ht2 & _).
    destruct (db_call _ env w1) as [[u|e] w2]; simpl in Hf2, Ht2;
      intros [= <- <-]; split; congruence.
  - intros [= <- <-].
    destruct (process_loop_frame _ _ _ _ _ _ _ _ _ _ _ _ Hloop)
      as (_ & _ & Hq).
    exact (Hq eq_refl).
Qed.

Lemma no_pdfs_no_downloads_witness :
  process_indication 10 one_bad_term_env "obesity" false None initial_world
  = Some (Returns {| st_indication := "obesity"; studies_found := 2;
                     new_studies := 2; updated_studies := 0;
                     protocols_downloaded := 0; download_errors := 0 |},
          world_after_obesity)
  /\ files world_after_obesity = files initial_world
  /\ count_downloads (trace world_after_obesity)
     = count_downloads (trace initial_world).
Proof.
  assert (process_indication 10 one_bad_term_env "obesity" false None initial_world
  = Some (Returns {| st_indication := "obesity"; studies_found := 2;
                     new_studies := 2; updated_studies := 0;
                     protocols_downloaded := 0; download_errors := 0 |},
          world_after_obesity)) as H by (vm_compute; reflexivity).
  split; [exact H|].
  exact (no_pdfs_no_downloads _ _ _ _ _ _ _ H).
Defined.

(** ** The coordinator: one entry per term *)

Lemma process_indication_names_term fuel env ind dl cap w st w' :
  process_indication fuel env ind dl cap w = Some (Returns st, w') ->
  st_indication st = ind.
Proof.
  intros H. apply process_indication_returns in H as (w1 & u & Hloop & _).
  destruct (process_loop_counts _ _ _ _ _ _ _ _ _ _ _ _
              (new_stats_ok ind) eq_refl Hloop) as ((H1 & _) & _).
  exact H1.
Qed.

(** X26.  Whatever happens to the single terms, the result of [run]
    has exactly one entry per term of the list, in the order of the list,
    and the entry of a term, statistics or error, names that term. *)
Theorem run_one_entry_per_term :
  forall fuel env indications download_pdfs cap w all_stats w',
    run fuel env indications download_pdfs cap w = Some (all_stats, w') ->
    List.map entry_term all_stats = indications.
Proof.
  intros fuel env inds dl cap.
  induction inds as [|ind inds IH]; intros w all_stats w' H; simpl in H.
  - injection H as <- <-. reflexivity.
  - destruct (process_indication fuel env ind dl cap w) as [[r w1]|] eqn:Hp;
      [|discriminate].
    destruct (run fuel env inds dl cap w1) as [[rest w2]|] eqn:Hr;
      [|discriminate].
    injection H as <- <-. simpl. rewrite (IH _ _ _ Hr). f_equal.
    destruct r as [st|e]; [|reflexivity].
    exact (process_indication_names_term _ _ _ _ _ _ _ _ Hp).
Qed.

Lemma run_one_entry_per_term_witness :
  run 10 one_bad_term_env ["obesity"; "bad"; "asthma"] false None initial_world
  = Some ([TermStats {| st_indication := "obesity"; studies_found := 2;
                        new_studies := 2; updated_studies := 0;
                        protocols_downloaded := 0; download_errors := 0 |};
           TermError "bad" (OtherError "boom");
           TermStats {| st_indication := "asthma"; studies_found := 2;
                        new_studies := 0; updated_studies := 2;
                        protocols_downloaded := 0; download_errors := 0 |}],
          world_after_asthma)
  /\ List.map entry_term
       [TermStats {| st_indication := "obesity"; studies_found := 2;
                     new_studies := 2; updated_studies := 0;
                     protocols_downloaded := 0; download_errors := 0 |};
        TermError "bad" (OtherError "boom");
        TermStats {| st_indication := "asthma"; studies_found := 2;
                     new_studies := 0; updated_studies := 2;
                     protocols_downloaded := 0; download_errors := 0 |}]
     = ["obesity"; "bad"; "asthma"].
Proof.
  assert (run 10 one_bad_term_env ["obesity"; "bad"; "asthma"] false None
            initial_world
          = Some ([TermStats {| st_indication := "obesity"; studies_found := 2;
                                new_studies := 2; updated_studies := 0;
                                protocols_downloaded := 0;
                                download_errors := 0 |};
                   TermError "bad" (OtherError "boom");
                   TermStats {| st_indication := "asthma"; studies_found := 2;
                                new_studies := 0; updated_studies := 2;
                                protocols_downloaded := 0;
                                download_errors := 0 |}],
                  world_after_asthma)) as H by (vm_compute; reflexivity).
  split; [exact H|].
  exact (run_one_entry_per_term _ _ _ _ _ _ _ _ H).
Defined.

(** ** The backfill of missing documents *)

Lemma advanced_refl x : advanced x x.
Proof. unfold advanced. repeat split. left; reflexivity. Qed.

Lemma advanced_trans x y z : advanced x y -> advanced y z -> advanced x z.
Proof.
  intros (A1 & A2 & A3 & A4) (B1 & B2 & B3 & B4).
  unfold advanced. repeat split; try congruence.
  destruct B4 as [B4 | B4]; [|right; exact B4].
  destruct A4 as [A4 | (p & Hp & Hne)]; [left; congruence|].
  right. exists p. split; [congruence | exact Hne].
Qed.

Lemma advanced_all_refl l : Forall2 advanced l l.
Proof. induction l; constructor; [apply advanced_refl | assumption]. Qed.

Lemma advanced_all_trans l1 l2 l3 :
  Forall2 advanced l1 l2 -> Forall2 advanced l2 l3 -> Forall2 advanced l1 l3.
Proof.
  intros H. revert l3. induction H as [|x y l1 l2 Hxy _ IH]; intros l3 H3.
  - inversion H3. constructor.
  - inversion H3 as [|? z ? l3' Hyz Hrest]; subst.
    constructor; [exact (advanced_trans _ _ _ Hxy Hyz) | apply IH, Hrest].
Qed.

Lemma forall2_preimage {A} (R : A -> A -> Prop) l l' y :
  Forall2 R l l' -> In y l' -> exists x, In x l /\ R x y.
Proof.
  induction 1 as [|a b l l' Hab _ IH]; intros Hy; [destruct Hy|].
  destruct Hy as [<- | Hy]; [exists a; split; [left; reflexivity | exact Hab]|].
  destruct (IH Hy) as (x & Hx & HR). exists x. split; [right|]; assumption.
Qed.

Lemma append_not_empty_r a b : b <> EmptyString -> a +:+ b <> EmptyString.
Proof. destruct a; simpl; [auto | discriminate]. Qed.

Lemma join_last_not_empty sep l y :
  y <> EmptyString -> join sep (l ++ [y]) <> EmptyString.
Proof.
  intros Hy. induction l as [|x l IH]; [exact Hy|].
  change ((x :: l) ++ [y]) with (x :: (l ++ [y])).
  destruct (l ++ [y]) as [|z l'] eqn:E; [destruct l; discriminate|].
  change (join sep (x :: z :: l')) with (x +:+ sep +:+ join sep (z :: l')).
  apply append_not_empty_r, append_not_empty_r, IH.
Qed.

(** The last component of a path that ends in a document file name ends
    in that name. *)
Lemma split_file_name s :
  exists l x,
    split "/" (s +:+ "_protocol.pdf") = l ++ [x +:+ "_protocol.pdf"].
Proof.
  induction s as [|c s (l & x & IH)].
  - exists [], EmptyString. reflexivity.
  - change (String c s +:+ "_protocol.pdf")
      with (String c (s +:+ "_protocol.pdf")).
    cbn [split]. rewrite IH. destruct (Ascii.eqb c "/").
    + exists (EmptyString :: l), x. reflexivity.
    + destruct l as [|y l].
      * exists [], (String c x). reflexivity.
      * exists (String c y :: l), x. reflexivity.
Qed.

Lemma path_str_not_empty p :
  path_root p <> EmptyString
  \/ (exists l y, path_parts p = l ++ [y] /\ y <> EmptyString) ->
  path_str p <> EmptyString.
Proof.
  unfold path_str. destruct (path_root p) as [|c r].
  - intros [H | (l & y & Hp & Hy)]; [congruence|].
    rewrite Hp. destruct (l ++ [y]) as [|z l'] eqn:E;
      [destruct l; discriminate|].
    rewrite <- E. apply (join_last_not_empty "/" l y Hy).
  - intros _. discriminate.
Qed.

(** [str] of the path of a document is never the empty string. *)
Lemma pdf_path_not_empty folder nct : pdf_path_of folder nct <> EmptyString.
Proof.
  unfold pdf_path_of. apply path_str_not_empty.
  unfold path_div.
  destruct (String.eqb_spec
              (path_root (parse_path (nct +:+ "_protocol.pdf"))) EmptyString)
    as [_ | Hroot]; [right | left; exact Hroot].
  destruct (split_file_name nct) as (l & x & Hsplit).
  exists (path_parts folder ++ List.filter path_component l),
    (x +:+ "_protocol.pdf").
  split.
  - unfold parse_path. cbn [path_parts]. rewrite Hsplit, List.filter_app.
    cbn [List.filter]. rewrite file_name_component.
    rewrite List.app_assoc. reflexivity.
  - intros H. apply String.eqb_eq in H.
    rewrite file_name_not_empty in H. discriminate H.
Qed.

Lemma set_pdf_path_advanced now n p x :
  p <> EmptyString -> advanced x (set_pdf_path now n p x).
Proof.
  intros Hp. unfold set_pdf_path.
  destruct (has_nct_id n x); [|apply advanced_refl].
  unfold advanced; simpl. repeat split.
  right. exists p. split; [reflexivity | exact Hp].
Qed.

Lemma update_pdf_path_advanced now flt n p db :
  p <> EmptyString ->
  Forall2 advanced (protocols db)
    (protocols (snd (update_pdf_path now flt n p db))).
Proof.
  intros Hp.
  destruct (protocols_after_update_pdf_path now flt n p db) as [-> | ->];
    [apply advanced_all_refl|].
  induction (protocols db) as [|x l IH]; simpl; constructor;
    [apply set_pdf_path_advanced, Hp | exact IH].
Qed.

(** What the loop of the backfill does, however it ends. *)
Lemma sweep_loop_frame env : forall rows st w,
  Forall2 advanced (protocols (db w))
    (protocols (db (snd (sweep_loop env rows st w))))
  /\ download_history (db (snd (sweep_loop env rows st w)))
     = download_history (db w)
  /\ forall st',
      fst (sweep_loop env rows st w) = Returns st' ->
      sw_total st' = sw_total st
      /\ sw_downloaded st <= sw_downloaded st'
      /\ sw_errors st <= sw_errors st'
      /\ (sw_downloaded st' - sw_downloaded st)
         + (sw_errors st' - sw_errors st) <= Z.of_nat (length rows).
Proof.
  induction rows as [|r rows IH]; intros st w.
  - simpl. split; [apply advanced_all_refl|]. split; [reflexivity|].
    intros st' [= <-]. lia.
  - simpl sweep_loop.
    destruct (truthy (protocol_url r)); simpl negb; cbv iota.
    2:{ destruct (IH st w) as (H1 & H2 & H3).
        split; [exact H1|]. split; [exact H2|].
        intros st' Hst. specialize (H3 st' Hst). simpl length. lia. }
    destruct (indication (fields r)) as [ind|].
    2:{ simpl. split; [apply advanced_all_refl|]. split; [reflexivity|].
        discriminate. }
    set (path := pdf_path_of (_get_indication_folder env ind) (nct_id r)).
    destruct (download_pdf_frame env (get_str (protocol_url r)) path 3 w)
      as (Hd1 & _).
    destruct (download_pdf env _ path 3 w) as [[[|]|e] w1]; simpl in Hd1.
    + destruct (db_call_frame
                  (fun now flt => update_pdf_path now flt (nct_id r) path)
                  env w1) as (_ & _ & Hd2 & _).
      assert (Forall2 advanced (protocols (db w))
                (protocols (db (snd (db_call
                   (fun now flt => update_pdf_path now flt (nct_id r) path)
                   env w1))))) as Ha.
      { rewrite Hd2, <- Hd1. apply update_pdf_path_advanced.
        apply pdf_path_not_empty. }
      assert (download_history (db (snd (db_call
                (fun now flt => update_pdf_path now flt (nct_id r) path)
                env w1))) = download_history (db w)) as Hh.
      { rewrite Hd2, history_after_update_pdf_path, Hd1. reflexivity. }
      destruct (db_call _ env w1) as [[u|e] w2]; simpl in Ha, Hh.
      * destruct (IH (sweep_count true st) (sleep REQUEST_DELAY w2))
          as (H1 & H2 & H3). simpl in H1, H2.
        split; [exact (advanced_all_trans _ _ _ Ha H1)|].
        split; [rewrite H2; exact Hh|].
        intros st' Hst. specialize (H3 st' Hst). simpl in H3.
        simpl length. lia.
      * simpl. split; [exact Ha|]. split; [exact Hh | discriminate].
    + destruct (IH (sweep_count false st) (sleep REQUEST_DELAY w1))
        as (H1 & H2 & H3). simpl in H1, H2.
      rewrite Hd1 in H1, H2.
      split; [exact H1|]. split; [exact H2|].
      intros st' Hst. specialize (H3 st' Hst). simpl in H3.
      simpl length. lia.
    + simpl. rewrite Hd1.
      split; [apply advanced_all_refl|]. split; [reflexivity | discriminate].
Qed.

Lemma db_query_frame {A} (q : Store -> A) now flt db :
  snd (db_query q now flt db) = db
  /\ forall x, fst (db_query q now flt db) = Returns x -> x = q db.
Proof.
  unfold db_query, _get_connection, execute; simpl.
  destruct (fail_execute flt 0); simpl; [split; [reflexivity | discriminate]|].
  destruct (fail_commit flt); simpl; [split; [reflexivity | discriminate]|].
  split; [reflexivity|]. intros x [= <-]. reflexivity.
Qed.

(** X27.  The backfill only adds local paths: however
    [download_missing_pdfs] ends, the table has the same rows in the same
    order, each with its registry ID, document URL and descriptive
    columns unchanged and with a local path that is the old one or a
    recorded path that is not empty, and the run history is untouched.
    When it returns, [total] is the number of missing documents found at
    the start, and the downloads and errors counted are not negative and
    together at most [total]. *)
Theorem backfill_only_adds_paths :
  forall env scope w,
    Forall2 advanced (protocols (db w))
      (protocols (db (snd (download_missing_pdfs env scope w))))
    /\ download_history (db (snd (download_missing_pdfs env scope w)))
       = download_history (db w)
    /\ forall st,
        fst (download_missing_pdfs env scope w) = Returns st ->
        sw_total st
        = Z.of_nat (length (get_protocols_without_pdf scope (db w)))
        /\ 0 <= sw_downloaded st /\ 0 <= sw_errors st
        /\ sw_downloaded st + sw_errors st <= sw_total st.
Proof.
  intros env scope w. unfold download_missing_pdfs.
  destruct (db_call_frame (db_query (get_protocols_without_pdf scope)) env w)
    as (_ & _ & Hd & Hr).
  destruct (db_query_frame (get_protocols_without_pdf scope)
              (clock env (ticks w)) (db_faults env (ticks w)) (db w))
    as (Hq1 & Hq2).
  rewrite Hq1 in Hd.
  destruct (db_call _ env w) as [[rows|e] w1]; simpl in Hd, Hr.
  - symmetry in Hr. apply Hq2 in Hr. subst rows.
    match goal with |- context [sweep_loop env ?rows ?st w1] =>
      destruct (sweep_loop_frame env rows st w1) as (H1 & H2 & H3) end.
    rewrite Hd in H1, H2.
    split; [exact H1|]. split; [exact H2|].
    intros st Hst. specialize (H3 st Hst). simpl in H3. lia.
  - simpl. rewrite Hd.
    split; [apply advanced_all_refl|]. split; [reflexivity | discriminate].
Qed.

Lemma backfill_only_adds_paths_witness :
  fst (download_missing_pdfs quiet_env None world_with_file_upserted)
  = Returns {| sw_total := 1; sw_downloaded := 1; sw_errors := 0 |}
  /\ sw_total {| sw_total := 1; sw_downloaded := 1; sw_errors := 0 |}
     = Z.of_nat (length (get_protocols_without_pdf None
                           (db world_with_file_upserted))).
Proof.
  assert (fst (download_missing_pdfs quiet_env None world_with_file_upserted)
          = Returns {| sw_total := 1; sw_downloaded := 1; sw_errors := 0 |})
    as H by (vm_compute; reflexivity).
  split; [exact H|].
  exact (proj1 (proj2 (proj2 (backfill_only_adds_paths quiet_env None
                                world_with_file_upserted)) _ H)).
Defined.

Lemma download_pdf_first_try env url path w :
  http_download env (ticks w) url = DlSaved ->
  download_pdf env url path 3 w
  = (Returns true, create_file path (tick (emit (EvDownload url path) w))).
Proof. intros H. unfold download_pdf. simpl. rewrite H. reflexivity. Qed.

Lemma recorded_stays x x' : advanced x x' -> recorded x -> recorded x'.
Proof.
  intros (_ & _ & _ & [H | H]) (p & Hp & Hne); [|exact H].
  exists p. split; [congruence | exact Hne].
Qed.

(** The loop of the backfill when nothing fails. *)
Lemma sweep_loop_success env :
  downloads_succeed env -> store_never_fails env ->
  forall rows st w,
    (forall r, In r rows -> truthy (protocol_url r) = true ->
               indication (fields r) <> None) ->
    exists st' w',
      sweep_loop env rows st w = (Returns st', w')
      /\ sw_errors st' = sw_errors st
      /\ forall r, In r rows -> truthy (protocol_url r) = true ->
           forall x', In x' (protocols (db w')) -> nct_id x' = nct_id r ->
                      recorded x'.
Proof.
  intros Hdl Hdb. induction rows as [|r rows IH]; intros st w Hind.
  - exists st, w. split; [reflexivity|]. split; [reflexivity|].
    intros r [].
  - simpl sweep_loop.
    destruct (truthy (protocol_url r)) eqn:Hurl; simpl negb; cbv iota.
    2:{ destruct (IH st w) as (st' & w' & Hrun & He & Hrec).
        { intros x Hx. apply Hind. right; exact Hx. }
        exists st', w'. split; [exact Hrun|]. split; [exact He|].
        intros x [<- | Hx] Hux; [congruence | exact (Hrec x Hx Hux)]. }
    destruct (indication (fields r)) as [ind|] eqn:Hi;
      [|exfalso; exact (Hind r (or_introl eq_refl) Hurl Hi)].
    set (path := pdf_path_of (_get_indication_folder env ind) (nct_id r)).
    rewrite download_pdf_first_try by apply Hdl.
    unfold db_call. rewrite update_pdf_path_unfold, (fault_free_1 _ (Hdb _)).
    set (w2 := sleep REQUEST_DELAY _).
    destruct (IH (sweep_count true st) w2) as (st' & w' & Hrun & He & Hrec).
    { intros x Hx. apply Hind. right; exact Hx. }
    exists st', w'. split; [exact Hrun|]. split; [rewrite He; reflexivity|].
    intros x [<- | Hx] Hux; [|exact (Hrec x Hx Hux)].
    intros x' Hx' Hid.
    destruct (sweep_loop_frame env rows (sweep_count true st) w2)
      as (Hadv & _).
    rewrite Hrun in Hadv. simpl in Hadv.
    destruct (forall2_preimage _ _ _ _ Hadv Hx') as (x2 & Hx2 & Ha).
    apply (recorded_stays _ _ Ha).
    apply List.in_map_iff in Hx2 as (x0 & <- & _).
    destruct Ha as (Hn & _).
    rewrite nct_id_set_pdf_path in Hn.
    unfold set_pdf_path.
    assert (has_nct_id (nct_id r) x0 = true) as ->
        by (apply has_nct_id_true; congruence).
    exists path. split; [reflexivity | apply pdf_path_not_empty].
Qed.

Lemma db_query_ok {A} (q : Store -> A) now flt db :
  fault_free flt 1 -> db_query q now flt db = (Returns (q db), db).
Proof.
  intros [Hc He]. unfold db_query, _get_connection, execute; simpl.
  rewrite (He 0%nat) by lia. simpl. rewrite Hc. reflexivity.
Qed.

Lemma truthy_false_set o :
  truthy o = false -> o <> None -> o = Some EmptyString.
Proof.
  destruct o as [s|]; [|congruence]. simpl. intros H _.
  apply negb_false_iff, String.eqb_eq in H. congruence.
Qed.

(** X28.  A backfill in which nothing fails leaves no usable document
    missing: when every download succeeds, SQLite never fails and every
    missing document has a term, [download_missing_pdfs] returns with no
    error counted, and afterwards the only rows that the
    missing-documents query still returns, for the same scope, are rows
    whose document URL is the empty string. *)
Theorem successful_backfill_completes :
  forall env scope w,
    downloads_succeed env -> store_never_fails env ->
    (forall r, In r (get_protocols_without_pdf scope (db w)) ->
               truthy (protocol_url r) = true ->
               indication (fields r) <> None) ->
    exists st w',
      download_missing_pdfs env scope w = (Returns st, w')
      /\ sw_errors st = 0
      /\ forall r', In r' (get_protocols_without_pdf scope (db w')) ->
                    protocol_url r' = Some EmptyString.
Proof.
  intros env scope w Hdl Hdb Hind. unfold download_missing_pdfs.
  unfold db_call at 1. rewrite db_query_ok by apply Hdb.
  set (rows := get_protocols_without_pdf scope (db w)) in *.
  set (w1 := {| db := db w; files := files w; ticks := S (ticks w);
                trace := trace w |}).
  set (st0 := {| sw_total := Z.of_nat (length rows); sw_downloaded := 0;
                 sw_errors := 0 |}).
  destruct (sweep_loop_success env Hdl Hdb rows st0 w1 Hind)
    as (st & w' & Hrun & He & Hrec).
  exists st, w'. split; [exact Hrun|]. split; [exact He|].
  intros r' Hr'.
  destruct (sweep_loop_frame env rows st0 w1) as (Hadv & _).
  rewrite Hrun in Hadv. simpl in Hadv.
  apply in_without_pdf in Hr' as (Hin' & Hurl' & Hpath' & Hscope').
  destruct (forall2_preimage _ _ _ _ Hadv Hin') as (x & Hx & Ha).
  destruct (truthy (protocol_url r')) eqn:Ht;
    [|exact (truthy_false_set _ Ht Hurl')].
  exfalso.
  pose proof Ha as (Hn & Hu & Hf & Hp).
  assert (~ recorded r') as Hnot.
  { intros (p & Hp1 & Hp2). destruct Hpath' as [H | H]; congruence. }
  destruct Hp as [Hp | Hp]; [|exact (Hnot Hp)].
  apply Hnot, (Hrec x); [| congruence | exact Hin' | exact Hn].
  apply in_without_pdf. rewrite <- Hu, <- Hp, <- Hf.
  repeat split; assumption.
Qed.

Lemma successful_backfill_completes_witness :
  downloads_succeed quiet_env
  /\ store_never_fails quiet_env
  /\ exists st w',
      download_missing_pdfs quiet_env None world_with_file_upserted
      = (Returns st, w')
      /\ sw_errors st = 0
      /\ forall r', In r' (get_protocols_without_pdf None (db w')) ->
                    protocol_url r' = Some EmptyString.
Proof.
  assert (downloads_succeed quiet_env) as Hdl by (intros k url; reflexivity).
  assert (store_never_fails quiet_env) as Hdb by (intros k; split; reflexivity).
  split; [exact Hdl|]. split; [exact Hdb|].
  apply (successful_backfill_completes quiet_env None world_with_file_upserted
           Hdl Hdb).
  intros r [<- | []] _. discriminate.
Defined.

(** ** The table only grows *)

Lemma ids_after_upsert now flt pd db :
  exists added,
    List.map nct_id (protocols (snd (upsert_protocol now flt pd db)))
    = List.map nct_id (protocols db) ++ added
    /\ forall b, fst (upsert_protocol now flt pd db) = Returns b ->
                 added = if b then [pd_nct_id pd] else [].
Proof.
  rewrite upsert_protocol_unfold.
  destruct (_ || _); simpl.
  - exists []. rewrite List.app_nil_r. split; [reflexivity | discriminate].
  - unfold upsert_effect.
    destruct (get_protocol (pd_nct_id pd) db); simpl.
    + exists []. rewrite List.app_nil_r.
      rewrite map_nct_id_preserving by apply nct_id_update_row.
      split; [reflexivity|]. intros b [= <-]. reflexivity.
    + exists [pd_nct_id pd]. rewrite List.map_app.
      split; [reflexivity|]. intros b [= <-]. reflexivity.
Qed.

Lemma ids_after_update_pdf_path now flt n p db :
  List.map nct_id (protocols (snd (update_pdf_path now flt n p db)))
  = List.map nct_id (protocols db).
Proof.
  destruct (protocols_after_update_pdf_path now flt n p db) as [-> | ->];
    [reflexivity|].
  apply map_nct_id_preserving, nct_id_set_pdf_path.
Qed.

Lemma process_study_grows env folder dl st pd w :
  exists added,
    List.map nct_id (protocols (db (snd (process_study env folder dl st pd w))))
    = List.map nct_id (protocols (db w)) ++ added
    /\ forall st',
        fst (process_study env folder dl st pd w) = Returns st' ->
        Z.of_nat (length added) = new_studies st' - new_studies st.
Proof.
  unfold process_study.
  destruct (db_call_frame (fun now flt => upsert_protocol now flt pd) env w)
    as (_ & _ & Hd1 & Hr1).
  destruct (ids_after_upsert (clock env (ticks w)) (db_faults env (ticks w))
              pd (db w)) as (added & Hids & Hadded).
  rewrite <- Hd1 in Hids. rewrite <- Hr1 in Hadded.
  exists added.
  destruct (db_call _ env w) as [[is_new|e] w1]; simpl in Hids, Hadded.
  2:{ simpl. split; [exact Hids | discriminate]. }
  assert (Z.of_nat (length added)
          = new_studies (count_upsert is_new (count_found st)) - new_studies st)
    as Hlen.
  { rewrite (Hadded is_new eq_refl). destruct is_new; simpl; lia. }
  destruct (dl && truthy (pd_protocol_url pd)); simpl.
  2:{ split; [exact Hids|]. intros st' [= <-]. exact Hlen. }
  destruct (bool_decide _); simpl.
  { split; [exact Hids|]. intros st' [= <-]. exact Hlen. }
  destruct (download_pdf_frame env (get_str (pd_protocol_url pd))
              (pdf_path_of folder (pd_nct_id pd)) 3 w1) as (Hd2 & _).
  destruct (download_pdf env _ _ 3 w1) as [[[|]|e] w2]; simpl in Hd2.
  - destruct (db_call_frame
                (fun now flt => update_pdf_path now flt (pd_nct_id pd)
                                  (pdf_path_of folder (pd_nct_id pd))) env w2)
      as (_ & _ & Hd3 & _).
    assert (List.map nct_id (protocols (db (snd (db_call
              (fun now flt => update_pdf_path now flt (pd_nct_id pd)
                                (pdf_path_of folder (pd_nct_id pd))) env w2))))
            = List.map nct_id (protocols (db w)) ++ added) as Hids3
        by (rewrite Hd3, ids_after_update_pdf_path, Hd2; exact Hids).
    destruct (db_call _ env w2) as [[u|e] w3]; simpl in *;
      (split; [exact Hids3|]); [|discriminate].
    intros st' [= <-]. simpl. exact Hlen.
  - simpl. rewrite Hd2. split; [exact Hids|].
    intros st' [= <-]. simpl. exact Hlen.
  - simpl. rewrite Hd2. split; [exact Hids | discriminate].
Qed.

Lemma process_loop_grows env ind folder dl cap :
  forall fuel g st processed w r w',
    process_loop fuel env ind folder dl cap g st processed w = Some (r, w') ->
    exists added,
      List.map nct_id (protocols (db w'))
      = List.map nct_id (protocols (db w)) ++ added
      /\ forall st', r = Returns st' ->
           Z.of_nat (length added) = new_studies st' - new_studies st.
Proof.
  induction fuel as [|fuel IH]; intros g st processed w r w' H;
    [discriminate|].
  simpl in H.
  destruct (gen_next_frame env ind g w) as (Hdb & _).
  destruct (gen_next env ind g w) as [[step g1] w1]; simpl in Hdb.
  assert (exists added,
            List.map nct_id (protocols (db w1))
            = List.map nct_id (protocols (db w)) ++ added
            /\ forall st', Returns st = Returns st' ->
                 Z.of_nat (length added) = new_studies st' - new_studies st)
    as Hstop.
  { exists []. rewrite Hdb, List.app_nil_r. split; [reflexivity|].
    intros st' [= <-]. simpl. lia. }
  destruct step as [pd| |e].
  - destruct (cap_reached cap processed);
      [injection H as <- <-; exact Hstop|].
    destruct (process_study_grows env folder dl st pd w1)
      as (added1 & Hids1 & Hlen1).
    destruct (process_study env folder dl st pd w1) as [[st1|e] w2];
      simpl in Hids1, Hlen1.
    + destruct (IH _ _ _ _ _ _ H) as (added2 & Hids2 & Hlen2).
      exists (added1 ++ added2).
      rewrite Hids2, Hids1, Hdb, List.app_assoc. split; [reflexivity|].
      intros st' Hst. rewrite List.length_app.
      specialize (Hlen1 st1 eq_refl). specialize (Hlen2 st' Hst). lia.
    + injection H as <- <-. exists added1. rewrite Hids1, Hdb.
      split; [reflexivity | discriminate].
  - injection H as <- <-. exact Hstop.
  - injection H as <- <-. destruct Hstop as (added & Ha & _).
    exists added. split; [exact Ha | discriminate].
Qed.

(** X29.  Rows are only ever added at the end: however
    [process_indication] ends, the registry IDs of the table are those
    it had before, in the same order, followed by those of the rows
    inserted; and when it returns, the number of rows inserted is its
    count of new studies. *)
Theorem process_indication_grows_table :
  forall fuel env ind download_pdfs cap w r w',
    process_indication fuel env ind download_pdfs cap w = Some (r, w') ->
    exists added,
      List.map nct_id (protocols (db w'))
      = List.map nct_id (protocols (db w)) ++ added
      /\ forall st, r = Returns st ->
           Z.of_nat (length added) = new_studies st.
Proof.
  intros fuel env ind dl cap w r w'. unfold process_indication.
  destruct (process_loop _ _ _ _ _ _ _ _ _ _) as [[[st1|e] w1]|] eqn:Hloop;
    [| |discriminate].
  - destruct (process_loop_grows _ _ _ _ _ _ _ _ _ _ _ _ Hloop)
      as (added & Hids & Hlen).
    destruct (db_call_frame
                (fun now flt =>
                   log_download now flt ind (studies_found st1)
                     (protocols_downloaded st1) (new_studies st1)
                     (updated_studies st1) "completed") env w1)
      as (_ & _ & Hd & _).
    assert (List.map nct_id (protocols (db (snd (db_call
              (fun now flt =>
                 log_download now flt ind (studies_found st1)
                   (protocols_downloaded st1) (new_studies st1)
                   (updated_studies st1) "completed") env w1))))
            = List.map nct_id (protocols (db w)) ++ added) as Hids2
        by (rewrite Hd, log_download_keeps_protocols; exact Hids).
    destruct (db_call _ env w1) as [[u|e] w2]; simpl in Hids2;
      intros [= <- <-]; exists added; (split; [exact Hids2|]);
      [|discriminate].
    intros st [= <-]. specialize (Hlen st1 eq_refl). simpl in Hlen. lia.
  - intros [= <- <-].
    destruct (process_loop_grows _ _ _ _ _ _ _ _ _ _ _ _ Hloop)
      as (added & Hids & _).
    exists added. split; [exact Hids | discriminate].
Qed.

Lemma process_indication_grows_table_witness :
  process_indication 10 one_bad_term_env "obesity" false None initial_world
  = Some (Returns {| st_indication := "obesity"; studies_found := 2;
                     new_studies := 2; updated_studies := 0;
                     protocols_downloaded := 0; download_errors := 0 |},
          world_after_obesity)
  /\ exists added,
      List.map nct_id (protocols (db world_after_obesity))
      = List.map nct_id (protocols (db initial_world)) ++ added
      /\ Z.of_nat (length added) = 2.
Proof.
  assert (process_indication 10 one_bad_term_env "obesity" false None
            initial_world
          = Some (Returns {| st_indication := "obesity"; studies_found := 2;
                             new_studies := 2; updated_studies := 0;
                             protocols_downloaded := 0; download_errors := 0 |},
                  world_after_obesity)) as H by (vm_compute; reflexivity).
  split; [exact H|].
  destruct (process_indication_grows_table _ _ _ _ _ _ _ _ H)
    as (added & Hids & Hlen).
  exists added. split; [exact Hids | exact (Hlen _ eq_refl)].
Defined.

(** ** Safe folder names *)

Lemma kept_char_is_safe c :
  special_char (lower_char c) = false ->
  is_space (lower_char c) = false ->
  safe_char (lower_char c) = true.
Proof. destruct c as [[] [] [] [] [] [] [] []]; vm_compute; congruence. Qed.

Lemma safe_char_facts c :
  safe_char c = true ->
  lower_char c = c /\ special_char c = false /\ is_space c = false.
Proof.
  destruct c as [[] [] [] [] [] [] [] []]; vm_compute;
    intros H; try discriminate H; repeat split.
Qed.

Lemma re_sub_runs_safe s : forall b,
  all_chars (fun c => safe_char c || is_space c) s = true ->
  all_chars safe_char (re_sub_runs is_space "_" b s) = true.
Proof.
  induction s as [|c s IH]; intros b Hs; [reflexivity|].
  simpl in Hs. apply andb_true_iff in Hs as [Hc Hs].
  simpl re_sub_runs. destruct (is_space c) eqn:Hsp.
  - destruct b; [apply IH, Hs|]. simpl. apply IH, Hs.
  - rewrite orb_false_r in Hc. simpl. rewrite Hc. apply IH, Hs.
Qed.

Lemma delete_lower_kept s :
  all_chars (fun c => safe_char c || is_space c)
    (re_sub_delete special_char (lower s)) = true.
Proof.
  induction s as [|c s IH]; [reflexivity|].
  simpl. destruct (special_char (lower_char c)) eqn:Hsp; [exact IH|].
  simpl. rewrite IH, andb_true_r.
  destruct (is_space (lower_char c)) eqn:Hs; [apply orb_true_r|].
  rewrite (kept_char_is_safe c Hsp Hs). reflexivity.
Qed.

Lemma safe_string_fixed s :
  all_chars safe_char s = true ->
  lower s = s
  /\ re_sub_delete special_char s = s
  /\ forall b, re_sub_runs is_space "_" b s = s.
Proof.
  induction s as [|c s IH]; intros Hs; [repeat split|].
  simpl in Hs. apply andb_true_iff in Hs as [Hc Hs].
  destruct (IH Hs) as (H1 & H2 & H3).
  destruct (safe_char_facts c Hc) as (F1 & F2 & F3).
  simpl. rewrite F1, F2, F3, H1, H2. repeat split.
  intros b. rewrite H3. reflexivity.
Qed.

(** X30.  The folder name is safe and stable: every character of
    [_sanitize_folder_name name] is a lowercase letter, a digit, an
    underscore or a hyphen (on ASCII text), so it holds no path separator
    and no dot; and sanitising a sanitised name changes nothing. *)
Theorem sanitized_name_is_safe :
  forall name,
    all_chars safe_char (_sanitize_folder_name name) = true
    /\ _sanitize_folder_name (_sanitize_folder_name name)
       = _sanitize_folder_name name.
Proof.
  intros name.
  assert (all_chars safe_char (_sanitize_folder_name name) = true) as Hsafe.
  { unfold _sanitize_folder_name. apply re_sub_runs_safe, delete_lower_kept. }
  split; [exact Hsafe|].
  destruct (safe_string_fixed _ Hsafe) as (H1 & H2 & H3).
  unfold _sanitize_folder_name at 1. rewrite H1, H2. apply H3.
Qed.
